(** * The shared memory store of the multi-agent intake pipeline

    A shallow embedding of [src/memory/shared_memory.py] (class
    [SharedMemory]) together with the part of [src/models/schemas.py] it
    depends on, of the memory endpoints of [src/main.py], of the classifier
    of [src/agents/classifier.py] and of the urgency rule of
    [src/agents/email_agent.py], followed by their properties.

    Conventions of the embedding:
    - a Python [str] is a [string] of UTF-8 bytes; byte-wise lexicographic
      order is code-point order, which is how Python compares strings;
    - [self._memory] is an insertion-ordered dictionary, kept as an
      association list in insertion order ([sorted] is stable, so the order
      decides ties between equal timestamps);
    - [self._conversation_index] and the metadata dictionaries are finite
      maps ([gmap]); their iteration order is never observed below;
    - a dictionary is the map of its items, not an object with an identity:
      Python keeps the dictionary that the caller hands to
      [store_metadata] and updates it in place, so a caller that hands one
      object to several calls, or changes it afterwards, makes records
      share their later updates; the embedding takes every dictionary
      handed to the store to be the caller's last use of it, and what is
      stated of a [store_metadata] is stated of the record it writes;
    - a datetime is naive or offset-aware; those of [datetime.utcnow()]
      are naive, a timestamp read back with [datetime.fromisoformat] is
      aware when its text ends with a UTC offset, and mixing the two kinds
      in a subtraction or a comparison raises [TypeError]; naive datetimes
      and durations have the ranges of [datetime] and [timedelta], outside
      of which an operation raises [OverflowError];
    - every method runs in a state-and-exception monad over the object and
      the wall clock: each call of [datetime.utcnow()] consumes one reading
      of the clock;
    - the reentrant lock serialises the methods, so each one is modelled as
      an atomic step;
    - floats are IEEE 754 binary64 numbers, as Python's are; the text
      methods [str.lower] and [str.strip], the JSON parser (which returns,
      raises [JSONDecodeError] or raises another exception) and the
      language model are interfaces.

    The file has three parts: the embedding (built-ins, schemas, the store,
    its invariants, a concrete clock format, worked configurations, the
    endpoints and the agents), the facts about the embedding, and the
    properties, first for every store and clock, then on the worked
    configurations; the properties of the store are followed by further
    ones, by those of the endpoints and by those of the agents. *)

From stdpp Require Import gmap strings list sorting.
From Stdlib Require Import ZArith Ascii OrderedTypeEx.
From Stdlib Require Floats.PrimFloat Uint63.

Local Open Scope Z_scope.

(** ** Python built-ins used by the store *)

Module py.

(** Exceptions that the modelled code can raise. *)
Inductive exn :=
| KeyError | ValueError | TypeError | OverflowError
| JSONDecodeError | RecursionError.

Abbreviation dict V := (list (string * V)).

Section Dict.
Context {V : Type}.

(** [d.get(k)], also [k in d] and [d[k]] for a present key. *)
Fixpoint get (k : string) (d : dict V) : option V :=
  match d with
  | [] => None
  | (k', v) :: d' => if decide (k' = k) then Some v else get k d'
  end.

(** [d[k] = v]: a present key keeps its position, a new key goes last. *)
Fixpoint set_item (k : string) (v : V) (d : dict V) : dict V :=
  match d with
  | [] => [(k, v)]
  | (k', v') :: d' =>
      if decide (k' = k) then (k', v) :: d' else (k', v') :: set_item k v d'
  end.

(** [del d[k]] for a present key. *)
Fixpoint del_item (k : string) (d : dict V) : dict V :=
  match d with
  | [] => []
  | (k', v') :: d' =>
      if decide (k' = k) then d' else (k', v') :: del_item k d'
  end.
End Dict.

(** [l.remove(x)]: drops the first occurrence of [x]. *)
Fixpoint remove (x : string) (l : list string) : list string :=
  match l with
  | [] => []
  | y :: l' => if decide (y = x) then l' else y :: remove x l'
  end.

(** [sorted(l, key=key)] and [l.sort(key=key)] on string keys: a stable
    sort, here by insertion from the right. *)
Fixpoint insert_by {A} (key : A → string) (x : A) (l : list A) : list A :=
  match l with
  | [] => [x]
  | y :: l' =>
      if String.leb (key x) (key y) then x :: y :: l' else y :: insert_by key x l'
  end.

Definition sorted {A} (key : A → string) (l : list A) : list A :=
  foldr (insert_by key) [] l.

(** The order of strings, and the order a key induces. *)
Definition str_le (s1 s2 : string) : Prop := String.leb s1 s2 = true.

Definition by_key {A} (key : A → string) (x y : A) : Prop :=
  str_le (key x) (key y).

(** Truth value of a [str]: the empty string is false. *)
Definition truthy (s : string) : bool :=
  if decide (s = EmptyString) then false else true.

End py.

(** ** [models/schemas.py] *)

Module schemas.

(** [class ClassificationResult(BaseModel)]: a pydantic model, not a
    dataclass.  The carrier of Python floats is left abstract. *)
Record ClassificationResult {float : Type} := {
  format : string;
  intent : string;
  confidence : float;
  timestamp : string;
  error : option string;
}.
Arguments ClassificationResult : clear implicits.

End schemas.

(** ** [memory/shared_memory.py] *)

(** [@dataclass class MemoryEntry]. *)
Record MemoryEntry {Any float : Type} := {
  processing_id : string;
  timestamp : string;
  metadata : gmap string Any;
  classification : option (schemas.ClassificationResult float);
  extracted_data : option (gmap string Any);
  conversation_id : option string;
  agent_history : list string;
}.
Arguments MemoryEntry : clear implicits.

(** [self._stats]; the key ["last_update"] is absent until the first
  [_update_stats]. *)
Record Stats := {
  total_entries : Z;
  active_conversations : Z;
  last_cleanup : string;
  last_update : option string;
}.

(** The attributes of a [SharedMemory] object (the lock apart). *)
Record SharedMemory {Any float : Type} := {
  _memory : py.dict (MemoryEntry Any float);
  _conversation_index : gmap string (list string);
  max_entries : Z;
  cleanup_hours : Z;
  _stats : Stats;
}.
Arguments SharedMemory : clear implicits.

(** The object together with the number of clock readings taken so far. *)
Record World {Any float : Type} := {
  self : SharedMemory Any float;
  ticks : nat;
}.
Arguments World : clear implicits.

(** Result of running a method body: a value or a raised exception. *)
Inductive outcome (A : Type) :=
| Return (a : A)
| Raise (e : py.exn).
Arguments Return {A} a.
Arguments Raise {A} e.

#[global] Instance exn_eq_dec : EqDecision py.exn.
Proof. solve_decision. Defined.

#[global] Instance outcome_eq_dec {A} `{EqDecision A} : EqDecision (outcome A).
Proof. solve_decision. Defined.

(** What [datetime.fromisoformat] returns: a naive datetime, in microseconds
    on the naive UTC time line, or an offset-aware datetime, for a text that
    ends with a UTC offset.  The store only compares a parsed datetime with
    the naive ones of [utcnow], and Python refuses to subtract or to order a
    naive and an aware datetime ([TypeError]), so the instant of an aware
    datetime is never looked at and is not kept. *)
Inductive parsed := Naive (t : Z) | Aware.

(** The standard library's clock and ISO-8601 conversions are an interface:
    [utc k] is the [k]-th reading of [datetime.utcnow()], a naive datetime,
    in microseconds on the naive UTC time line; [isoformat] is
    [datetime.isoformat] on naive datetimes; [fromisoformat s] is [None]
    where [datetime.fromisoformat(s)] raises [ValueError]. *)
Class Clock := {
  utc : nat → Z;
  isoformat : Z → string;
  fromisoformat : string → option parsed;
}.

(** The least and the greatest naive datetime, 0001-01-01T00:00:00 and
    9999-12-31T23:59:59.999999. *)
Definition datetime_min : Z := -62135596800000000.
Definition datetime_max : Z := 253402300799999999.

(** [timedelta(hours=h)] in microseconds; the constructor raises
    [OverflowError] when the days of the duration, [h // 24], are more than
    999999999 in magnitude. *)
Definition timedelta (hours : Z) : outcome Z :=
  if (-999999999 <=? hours / 24) && (hours / 24 <=? 999999999)
  then Return (hours * 3600000000)
  else Raise py.OverflowError.

(** [d - delta] for a naive datetime [d] and a duration [delta]:
    [OverflowError] when the result is outside the years 1 to 9999. *)
Definition datetime_sub (d delta : Z) : outcome Z :=
  if (datetime_min <=? d - delta) && (d - delta <=? datetime_max)
  then Return (d - delta)
  else Raise py.OverflowError.

Section Store.
Context {Any float : Type} {clock : Clock}.

Abbreviation Entry := (MemoryEntry Any float).
Abbreviation Store := (SharedMemory Any float).
Abbreviation W := (World Any float).

(** *** The method monad *)

Definition M (A : Type) : Type := W → outcome A * W.

Definition ret {A} (a : A) : M A := λ w, (Return a, w).

Definition bind {A B} (m : M A) (k : A → M B) : M B :=
  λ w, match m w with
       | (Return a, w') => k a w'
       | (Raise e, w') => (Raise e, w')
       end.

Definition raise {A} (e : py.exn) : M A := λ w, (Raise e, w).

(** [try: m  except Exception as e: h e]; the state reached when the
    exception was raised is kept. *)
Definition try_except {A} (m : M A) (h : py.exn → M A) : M A :=
  λ w, match m w with
       | (Return a, w') => (Return a, w')
       | (Raise e, w') => h e w'
       end.

Notation "'let!' x := m 'in' k" := (bind m (λ x, k))
  (at level 10, x name, m at level 100, k at level 200, only parsing).
Notation "'do!' m 'in' k" := (bind m (λ _, k))
  (at level 10, m at level 100, k at level 200, only parsing).

Definition get_self : M Store := λ w, (Return (self w), w).

Definition put_self (s : Store) : M unit :=
  λ w, (Return tt, {| self := s; ticks := ticks w |}).

(** [datetime.utcnow()]. *)
Definition utcnow : M Z :=
  λ w, (Return (utc (ticks w)), {| self := self w; ticks := S (ticks w) |}).

(** An expression that returns or raises, evaluated inside a method. *)
Definition lift {A} (o : outcome A) : M A :=
  match o with
  | Return a => ret a
  | Raise e => raise e
  end.

(** An expression statement: the value of the call is dropped. *)
Definition call {A} (m : M A) : M unit := bind m (λ _, ret tt).

(** [for x in l: body x]. *)
Fixpoint for_each {A} (l : list A) (body : A → M unit) : M unit :=
  match l with
  | [] => ret tt
  | x :: l' => do! body x in for_each l' body
  end.

(** Attribute assignments. *)
Definition with_memory (s : Store) (m : py.dict Entry) : Store :=
  {| _memory := m; _conversation_index := _conversation_index s;
     max_entries := max_entries s; cleanup_hours := cleanup_hours s;
     _stats := _stats s |}.

Definition with_index (s : Store) (i : gmap string (list string)) : Store :=
  {| _memory := _memory s; _conversation_index := i;
     max_entries := max_entries s; cleanup_hours := cleanup_hours s;
     _stats := _stats s |}.

Definition with_stats (s : Store) (st : Stats) : Store :=
  {| _memory := _memory s; _conversation_index := _conversation_index s;
     max_entries := max_entries s; cleanup_hours := cleanup_hours s;
     _stats := st |}.

(** [len(d)] as a Python integer. *)
Definition len {A} (l : list A) : Z := Z.of_nat (length l).

(** *** [SharedMemory] *)

(** [SharedMemory.__init__], called when the clock has been read [t0]
    times. *)
Definition __init__ (max_entries cleanup_hours : Z) (t0 : nat) : W :=
  {| self :=
       {| _memory := []; _conversation_index := ∅;
          max_entries := max_entries; cleanup_hours := cleanup_hours;
          _stats := {| total_entries := 0; active_conversations := 0;
                       last_cleanup := isoformat (utc t0);
                       last_update := None |} |};
     ticks := S t0 |}.

(** [_update_stats]. *)
Definition _update_stats : M unit :=
  let! s := get_self in
  let! now := utcnow in
  put_self (with_stats s
    {| total_entries := len (_memory s);
       active_conversations := Z.of_nat (size (_conversation_index s));
       last_cleanup := last_cleanup (_stats s);
       last_update := Some (isoformat now) |}).

(** The block under [if entry.conversation_id:] in [clear_memory], which is
    entered for a conversation id that is neither [None] nor empty.
    [conv_list] aliases the bucket stored in the index when there is one, so
    [conv_list.remove] changes the index; when there is none, [conv_list] is
    a fresh empty list and [del] raises [KeyError]. *)
Definition unregister (pid cid : string) : M unit :=
  let! s := get_self in
  match _conversation_index s !! cid with
  | Some conv_list =>
      let conv_list' :=
        if decide (pid ∈ conv_list) then py.remove pid conv_list else conv_list in
      match conv_list' with
      | [] => put_self (with_index s (delete cid (_conversation_index s)))
      | _ => put_self (with_index s (<[cid := conv_list']> (_conversation_index s)))
      end
  | None => raise py.KeyError
  end.

(** [clear_memory]. *)
Definition clear_memory (pid : string) : M bool :=
  try_except
    (let! s := get_self in
     match py.get pid (_memory s) with
     | Some entry =>
         do! match conversation_id entry with
             | Some cid => if py.truthy cid then unregister pid cid else ret tt
             | None => ret tt
             end in
         let! s := get_self in
         do! put_self (with_memory s (py.del_item pid (_memory s))) in
         do! _update_stats in
         ret true
     | None => ret false
     end)
    (λ _, ret false).

(** [_cleanup_old_entries]. *)
Definition _cleanup_old_entries : M unit :=
  let! s := get_self in
  if len (_memory s) <=? max_entries s then ret tt
  else
    let sorted_entries := py.sorted (λ x, timestamp x.2) (_memory s) in
    let entries_to_remove := len (_memory s) - max_entries s + 100 in
    for_each
      (take (Z.to_nat (Z.min entries_to_remove (len sorted_entries))) sorted_entries)
      (λ x, call (clear_memory x.1)).

(** The body of the first loop of [_cleanup_expired_entries] on one entry:
    whether its id is put on [expired_ids].  [ValueError] from
    [fromisoformat] is caught and the entry counts as expired; the
    comparison [entry_time < cutoff_time] of an aware datetime with the
    naive cutoff raises [TypeError], which no handler of the loop catches. *)
Definition expired (cutoff_time : Z) (x : string * Entry) : outcome bool :=
  match fromisoformat (timestamp x.2) with
  | Some (Naive entry_time) => Return (entry_time <? cutoff_time)
  | Some Aware => Raise py.TypeError
  | None => Return true
  end.

(** The first loop of [_cleanup_expired_entries], over the table in
    insertion order: the list [expired_ids], or the exception of the first
    entry whose test raises. *)
Fixpoint expired_ids (cutoff_time : Z) (mem : py.dict Entry)
    : outcome (list string) :=
  match mem with
  | [] => Return []
  | x :: mem' =>
      match expired cutoff_time x with
      | Return b =>
          match expired_ids cutoff_time mem' with
          | Return ids => Return (if b then x.1 :: ids else ids)
          | Raise e => Raise e
          end
      | Raise e => Raise e
      end
  end.

(** [_cleanup_expired_entries]. *)
Definition _cleanup_expired_entries : M unit :=
  let! s := get_self in
  let! now := utcnow in
  let! delta := lift (timedelta (cleanup_hours s)) in
  let! cutoff_time := lift (datetime_sub now delta) in
  let! expired_ids := lift (expired_ids cutoff_time (_memory s)) in
  do! for_each expired_ids (λ pid, call (clear_memory pid)) in
  let! now' := utcnow in
  let! s' := get_self in
  put_self (with_stats s'
    {| total_entries := total_entries (_stats s');
       active_conversations := active_conversations (_stats s');
       last_cleanup := isoformat now';
       last_update := last_update (_stats s') |}).

(** [_cleanup_if_needed]. *)
Definition _cleanup_if_needed : M unit :=
  let! s := get_self in
  let current_count := len (_memory s) in
  do! (if current_count >? max_entries s then _cleanup_old_entries else ret tt) in
  let! s := get_self in
  match fromisoformat (last_cleanup (_stats s)) with
  | None => raise py.ValueError
  | Some last_cleanup =>
      let! now := utcnow in
      match last_cleanup with
      | Aware => raise py.TypeError
      | Naive last_cleanup =>
          let! delta := lift (timedelta (cleanup_hours s)) in
          if now - last_cleanup >? delta
          then _cleanup_expired_entries
          else ret tt
      end
  end.

(** The common shape of the four writers: create the entry when the id is
    new, else change the existing entry in place. *)
Definition upsert (pid : string) (create : string → Entry)
    (update : Entry → Entry) : M unit :=
  let! s := get_self in
  match py.get pid (_memory s) with
  | None =>
      let! now := utcnow in
      put_self (with_memory s (py.set_item pid (create (isoformat now)) (_memory s)))
  | Some e =>
      put_self (with_memory s (py.set_item pid (update e) (_memory s)))
  end.

(** [store_metadata]. *)
Definition store_metadata (pid : string) (md : gmap string Any) : M bool :=
  try_except
    (do! upsert pid
       (λ ts, {| processing_id := pid; timestamp := ts; metadata := md;
                 classification := None; extracted_data := None;
                 conversation_id := None;
                 agent_history := ["metadata_stored"] |})
       (λ e, {| processing_id := processing_id e; timestamp := timestamp e;
                metadata := md ∪ metadata e;
                classification := classification e;
                extracted_data := extracted_data e;
                conversation_id := conversation_id e;
                agent_history := agent_history e ++ ["metadata_updated"] |}) in
     do! _update_stats in
     do! _cleanup_if_needed in
     ret true)
    (λ _, ret false).

(** [store_classification]. *)
Definition store_classification (pid : string)
    (c : schemas.ClassificationResult float) : M bool :=
  try_except
    (do! upsert pid
       (λ ts, {| processing_id := pid; timestamp := ts; metadata := ∅;
                 classification := Some c; extracted_data := None;
                 conversation_id := None;
                 agent_history := ["classification_stored"] |})
       (λ e, {| processing_id := processing_id e; timestamp := timestamp e;
                metadata := metadata e;
                classification := Some c;
                extracted_data := extracted_data e;
                conversation_id := conversation_id e;
                agent_history := agent_history e ++ ["classification_stored"] |}) in
     do! _update_stats in
     ret true)
    (λ _, ret false).

(** [store_extracted_data]. *)
Definition store_extracted_data (pid : string) (d : gmap string Any) : M bool :=
  try_except
    (do! upsert pid
       (λ ts, {| processing_id := pid; timestamp := ts; metadata := ∅;
                 classification := None; extracted_data := Some d;
                 conversation_id := None;
                 agent_history := ["data_extracted"] |})
       (λ e, {| processing_id := processing_id e; timestamp := timestamp e;
                metadata := metadata e;
                classification := classification e;
                extracted_data := Some d;
                conversation_id := conversation_id e;
                agent_history := agent_history e ++ ["data_extracted"] |}) in
     do! _update_stats in
     ret true)
    (λ _, ret false).

(** The index update of [store_conversation_id]. *)
Definition register (pid cid : string) : M unit :=
  let! s := get_self in
  let bucket := default [] (_conversation_index s !! cid) in
  let bucket' := if decide (pid ∈ bucket) then bucket else bucket ++ [pid] in
  put_self (with_index s (<[cid := bucket']> (_conversation_index s))).

(** [store_conversation_id]. *)
Definition store_conversation_id (pid cid : string) : M bool :=
  try_except
    (do! upsert pid
       (λ ts, {| processing_id := pid; timestamp := ts; metadata := ∅;
                 classification := None; extracted_data := None;
                 conversation_id := Some cid;
                 agent_history := ["conversation_id_stored"] |})
       (λ e, {| processing_id := processing_id e; timestamp := timestamp e;
                metadata := metadata e;
                classification := classification e;
                extracted_data := extracted_data e;
                conversation_id := Some cid;
                agent_history := agent_history e ++ ["conversation_id_stored"] |}) in
     do! register pid cid in
     do! _update_stats in
     ret true)
    (λ _, ret false).

(** [_serialize_entry].  [asdict(entry)] copies the dataclass field by
    field, so the dictionary it returns is identified with the entry;
    [asdict(entry.classification)] is then applied to a pydantic model,
    which is not a dataclass instance, and raises [TypeError]. *)
Definition _serialize_entry (entry : Entry) : outcome Entry :=
  match classification entry with
  | Some _ => Raise py.TypeError
  | None => Return entry
  end.

(** [get_memory]. *)
Definition get_memory (pid : string) (s : Store) : outcome (option Entry) :=
  match py.get pid (_memory s) with
  | Some entry =>
      match _serialize_entry entry with
      | Return d => Return (Some d)
      | Raise e => Raise e
      end
  | None => Return None
  end.

(** [get_metadata]. *)
Definition get_metadata (pid : string) (s : Store) : option (gmap string Any) :=
  match py.get pid (_memory s) with
  | Some entry => Some (metadata entry)
  | None => None
  end.

(** [get_classification]. *)
Definition get_classification (pid : string) (s : Store)
    : option (schemas.ClassificationResult float) :=
  match py.get pid (_memory s) with
  | Some entry => classification entry
  | None => None
  end.

(** [get_extracted_data]. *)
Definition get_extracted_data (pid : string) (s : Store)
    : option (gmap string Any) :=
  match py.get pid (_memory s) with
  | Some entry => extracted_data entry
  | None => None
  end.

(** The loop of [get_conversation_history] that fills [history]. *)
Fixpoint collect (mem : py.dict Entry) (processing_ids : list string)
    : outcome (list Entry) :=
  match processing_ids with
  | [] => Return []
  | pid :: rest =>
      match py.get pid mem with
      | Some entry =>
          match _serialize_entry entry with
          | Return d =>
              match collect mem rest with
              | Return history => Return (d :: history)
              | Raise e => Raise e
              end
          | Raise e => Raise e
          end
      | None => collect mem rest
      end
  end.

(** [get_conversation_history]. *)
Definition get_conversation_history (cid : string) (s : Store)
    : outcome (list Entry) :=
  let processing_ids := default [] (_conversation_index s !! cid) in
  match collect (_memory s) processing_ids with
  | Return history => Return (py.sorted timestamp history)
  | Raise e => Raise e
  end.

(** [clear_all_memory]. *)
Definition clear_all_memory : M bool :=
  try_except
    (let! s := get_self in
     do! put_self (with_index (with_memory s []) ∅) in
     do! _update_stats in
     ret true)
    (λ _, ret false).

(** *** Invariants and write sequences *)

(** Every live entry with a non-empty conversation id is listed in the
    bucket of that conversation.  [clear_memory] relies on it: without the
    bucket its [del] raises [KeyError] and the entry is kept. *)
Definition index_covers (s : Store) : Prop :=
  ∀ pid e cid,
    py.get pid (_memory s) = Some e →
    conversation_id e = Some cid → cid ≠ EmptyString →
    ∃ bucket, _conversation_index s !! cid = Some bucket ∧ pid ∈ bucket.

(** The representation invariant of the object: the keys of a dictionary
    are distinct, and the index covers the table. *)
Definition store_ok (s : Store) : Prop :=
  NoDup (_memory s).*1 ∧ index_covers s.

(** Index consistency (I2): every id in a bucket has a live entry, and no
    bucket is empty. *)
Definition index_consistent (s : Store) : Prop :=
  ∀ cid bucket,
    _conversation_index s !! cid = Some bucket →
    bucket ≠ [] ∧ ∀ pid, pid ∈ bucket → py.get pid (_memory s) ≠ None.

(** The worlds that the public methods reach from a new object; other code
    may read the clock in between. *)
Inductive reachable : W → Prop :=
| reach_init max_entries cleanup_hours t0 :
    reachable (__init__ max_entries cleanup_hours t0)
| reach_store_metadata pid md w :
    reachable w → reachable (store_metadata pid md w).2
| reach_store_classification pid c w :
    reachable w → reachable (store_classification pid c w).2
| reach_store_extracted_data pid d w :
    reachable w → reachable (store_extracted_data pid d w).2
| reach_store_conversation_id pid cid w :
    reachable w → reachable (store_conversation_id pid cid w).2
| reach_clear_memory pid w :
    reachable w → reachable (clear_memory pid w).2
| reach_clear_all_memory w :
    reachable w → reachable (clear_all_memory w).2
| reach_tick w :
    reachable w → reachable {| self := self w; ticks := S (ticks w) |}.

(** The calls that maintain the index. *)
Inductive index_call :=
| Register (pid cid : string)
| Clear (pid : string).

Definition index_step (c : index_call) : M bool :=
  match c with
  | Register pid cid => store_conversation_id pid cid
  | Clear pid => clear_memory pid
  end.

(** A call that names a non-empty conversation and does not move a record
    from one conversation to another. *)
Definition settled (c : index_call) (s : Store) : Prop :=
  match c with
  | Register pid cid =>
      cid ≠ EmptyString
      ∧ ∀ e, py.get pid (_memory s) = Some e →
             conversation_id e = None ∨ conversation_id e = Some cid
  | Clear _ => True
  end.

Fixpoint all_settled (cs : list index_call) (w : W) : Prop :=
  match cs with
  | [] => True
  | c :: cs' => settled c (self w) ∧ all_settled cs' (index_step c w).2
  end.

(** The index lists exactly the records of each conversation. *)
Definition index_exact (s : Store) : Prop :=
  store_ok s
  ∧ (∀ pid e, py.get pid (_memory s) = Some e →
       conversation_id e ≠ Some EmptyString)
  ∧ ∀ cid bucket, _conversation_index s !! cid = Some bucket →
      bucket ≠ [] ∧ NoDup bucket
      ∧ ∀ pid, pid ∈ bucket →
          ∃ e, py.get pid (_memory s) = Some e ∧ conversation_id e = Some cid.

(** The four write operations as data. *)
Inductive write :=
| PutMetadata (md : gmap string Any)
| PutClassification (c : schemas.ClassificationResult float)
| PutExtractedData (d : gmap string Any)
| PutConversationId (cid : string).

Definition apply_write (pid : string) (op : write) : M bool :=
  match op with
  | PutMetadata md => store_metadata pid md
  | PutClassification c => store_classification pid c
  | PutExtractedData d => store_extracted_data pid d
  | PutConversationId cid => store_conversation_id pid cid
  end.

(** The world after the whole sequence. *)
Definition run_writes (pid : string) (ops : list write) (w : W) : W :=
  foldl (λ w op, (apply_write pid op w).2) w ops.

(** The tag a write appends to [agent_history]; [fresh] tells whether the
    write creates the entry. *)
Definition tag (fresh : bool) (op : write) : string :=
  match op with
  | PutMetadata _ => if fresh then "metadata_stored" else "metadata_updated"
  | PutClassification _ => "classification_stored"
  | PutExtractedData _ => "data_extracted"
  | PutConversationId _ => "conversation_id_stored"
  end.

Definition tags (ops : list write) : list string :=
  match ops with
  | [] => []
  | op :: ops' => tag true op :: (tag false <$> ops')
  end.

Definition is_metadata (op : write) : bool :=
  match op with PutMetadata _ => true | _ => false end.

(** The number of entries of the table whose key is [pid]. *)
Definition records (pid : string) (s : Store) : nat :=
  length (filter (λ x, x.1 = pid) (_memory s)).

(** No [store_metadata] of the sequence ends with the entry of [pid]
    evicted by its own retention run. *)
Fixpoint survives (pid : string) (ops : list write) (w : W) : Prop :=
  match ops with
  | [] => True
  | op :: ops' =>
      let w' := (apply_write pid op w).2 in
      (is_metadata op = true → py.get pid (_memory (self w')) ≠ None)
      ∧ survives pid ops' w'
  end.

(** What a step may do to the rest of the world: entries are deleted at
    most, the configuration is kept, the clock moves forward. *)
Definition evolves (w w' : W) : Prop :=
  sublist (_memory (self w')) (_memory (self w)) ∧
  max_entries (self w') = max_entries (self w) ∧
  cleanup_hours (self w') = cleanup_hours (self w) ∧
  (ticks w ≤ ticks w')%nat.

(** Conditions under which the retention run that ends a [store_metadata]
    from [w] cannot raise, whatever it finds to do: the recorded time of
    the last sweep parses to a naive datetime, the sweep interval is a
    [timedelta], the cutoff of a sweep is a datetime at every reading of the
    clock that a sweep of this call can make, and no timestamp is
    offset-aware, neither in the table nor the one that a new record
    gets. *)
Definition retention_safe (w : W) : Prop :=
  (∃ t, fromisoformat (last_cleanup (_stats (self w))) = Some (Naive t))
  ∧ (∃ delta, timedelta (cleanup_hours (self w)) = Return delta
       ∧ ∀ k, (ticks w ≤ k ≤ ticks w + length (_memory (self w)) + 4)%nat →
              datetime_sub (utc k) delta = Return (utc k - delta))
  ∧ fromisoformat (isoformat (utc (ticks w))) ≠ Some Aware
  ∧ ∀ x, x ∈ _memory (self w) → fromisoformat (timestamp x.2) ≠ Some Aware.

(** The entries [_cleanup_old_entries] passes to [clear_memory] when the
    table is over capacity. *)
Definition victims (s : Store) : list (string * Entry) :=
  let sorted_entries := py.sorted (λ x, timestamp x.2) (_memory s) in
  let entries_to_remove := len (_memory s) - max_entries s + 100 in
  take (Z.to_nat (Z.min entries_to_remove (len sorted_entries))) sorted_entries.

(** *** The snapshot and further invariants *)

(** The dictionary comprehension of [get_all_memory]: every entry is
    serialised, in table order; the first failure is raised. *)
Fixpoint serialize_all (mem : py.dict Entry) : outcome (py.dict Entry) :=
  match mem with
  | [] => Return []
  | (pid, entry) :: rest =>
      match _serialize_entry entry with
      | Return d =>
          match serialize_all rest with
          | Return entries => Return ((pid, d) :: entries)
          | Raise e => Raise e
          end
      | Raise e => Raise e
      end
  end.

(** The dictionary that [get_all_memory] returns. *)
Record Snapshot := {
  entries : py.dict Entry;
  conversation_index : gmap string (list string);
  statistics : Stats;
}.

(** [get_all_memory]. *)
Definition get_all_memory (s : Store) : outcome Snapshot :=
  match serialize_all (_memory s) with
  | Return entries =>
      Return {| entries := entries;
                conversation_index := _conversation_index s;
                statistics := _stats s |}
  | Raise e => Raise e
  end.

(** The counters of [_stats] agree with the table and the index. *)
Definition stats_current (s : Store) : Prop :=
  total_entries (_stats s) = len (_memory s)
  ∧ active_conversations (_stats s) = Z.of_nat (size (_conversation_index s)).

(** Every entry is stored under its own id and has a history. *)
Definition keyed (s : Store) : Prop :=
  ∀ pid e, (pid, e) ∈ _memory s → processing_id e = pid ∧ agent_history e ≠ [].

(** No bucket of the index is empty or lists an id twice. *)
Definition buckets_tidy (s : Store) : Prop :=
  ∀ cid bucket, _conversation_index s !! cid = Some bucket →
                bucket ≠ [] ∧ NoDup bucket.

Definition well_formed (s : Store) : Prop :=
  store_ok s ∧ keyed s ∧ buckets_tidy s.

End Store.

(** ** A concrete clock format

    An instance of the conversions for the worked examples: naive datetimes
    as microseconds since 1970-01-01T00:00:00 in the proleptic Gregorian
    calendar, printed the way [datetime.isoformat] prints them
    ([YYYY-MM-DDTHH:MM:SS], followed by [.ffffff] when the microsecond is
    not zero) and parsed back from these two shapes, or from one of them
    followed by a UTC offset, which makes the datetime offset-aware. *)

Module datetime.

Definition days_from_civil (y m d : Z) : Z :=
  let y' := if m <=? 2 then y - 1 else y in
  let era := y' / 400 in
  let yoe := y' - era * 400 in
  let mp := if m >? 2 then m - 3 else m + 9 in
  let doy := (153 * mp + 2) / 5 + d - 1 in
  let doe := yoe * 365 + yoe / 4 - yoe / 100 + doy in
  era * 146097 + doe - 719468.

Definition civil_from_days (z : Z) : Z * Z * Z :=
  let z' := z + 719468 in
  let era := z' / 146097 in
  let doe := z' - era * 146097 in
  let yoe := (doe - doe / 1460 + doe / 36524 - doe / 146096) / 365 in
  let doy := doe - (365 * yoe + yoe / 4 - yoe / 100) in
  let mp := (5 * doy + 2) / 153 in
  let d := doy - (153 * mp + 2) / 5 + 1 in
  let m := if mp <? 10 then mp + 3 else mp - 9 in
  let y := yoe + era * 400 in
  (if m <=? 2 then y + 1 else y, m, d).

Definition digit_char (n : Z) : ascii := Ascii.ascii_of_N (Z.to_N (48 + n mod 10)).

(** [n] in decimal on [width] digits, zero-padded. *)
Fixpoint digits (width : nat) (n : Z) : string :=
  match width with
  | O => EmptyString
  | S w => digits w (n / 10) +:+ String (digit_char n) EmptyString
  end.

Definition isoformat (t : Z) : string :=
  let us := t mod 1000000 in
  let secs := t / 1000000 in
  let '(y, m, d) := civil_from_days (secs / 86400) in
  let sod := secs mod 86400 in
  digits 4 y +:+ "-" +:+ digits 2 m +:+ "-" +:+ digits 2 d +:+ "T" +:+
  digits 2 (sod / 3600) +:+ ":" +:+ digits 2 (sod / 60 mod 60) +:+ ":" +:+
  digits 2 (sod mod 60) +:+
  (if us =? 0 then EmptyString else "." +:+ digits 6 us).

Definition digit_val (c : ascii) : option Z :=
  let n := Z.of_N (Ascii.N_of_ascii c) in
  if (48 <=? n) && (n <=? 57) then Some (n - 48) else None.

Fixpoint number (acc : Z) (l : list ascii) : option Z :=
  match l with
  | [] => Some acc
  | c :: l' =>
      match digit_val c with
      | Some d => number (10 * acc + d) l'
      | None => None
      end
  end.

(** Reads [n] decimal digits followed by the separators [sep]. *)
Definition field (n : nat) (sep : list ascii) (l : list ascii)
    : option (Z * list ascii) :=
  match number 0 (take n l) with
  | Some v =>
      if decide (length (take n l) = n ∧ take (length sep) (drop n l) = sep)
      then Some (v, drop (n + length sep) l)
      else None
  | None => None
  end.

Definition days_in_month (y m : Z) : Z :=
  days_from_civil (if m =? 12 then y + 1 else y) (if m =? 12 then 1 else m + 1) 1
  - days_from_civil y m 1.

(** The UTC offset that may end a timestamp: [+HH:MM] or [-HH:MM], of less
    than 24 hours; [Some true] when it is there, [Some false] when nothing
    is left, [None] for any other text. *)
Definition offset (l : list ascii) : option bool :=
  match l with
  | [] => Some false
  | c :: l' =>
      if decide (c = "+"%char ∨ c = "-"%char) then
        '(hh, l') ← field 2 [":"%char] l';
        '(mm, l') ← field 2 [] l';
        if decide (l' = [] ∧ hh * 60 + mm < 1440) then Some true else None
      else None
  end.

(** [datetime.fromisoformat] on the texts [YYYY-MM-DDTHH:MM:SS], with or
    without six digits of microseconds, and with or without a UTC offset
    [+HH:MM] or [-HH:MM]; every other text is refused.  These are the
    shapes that [isoformat] prints; Python 3.11 reads more of ISO 8601. *)
Definition fromisoformat (s : string) : option parsed :=
  '(y, l) ← field 4 ["-"%char] (String.list_ascii_of_string s);
  '(m, l) ← field 2 ["-"%char] l;
  '(d, l) ← field 2 ["T"%char] l;
  '(hh, l) ← field 2 [":"%char] l;
  '(mm, l) ← field 2 [":"%char] l;
  '(ss, l) ← field 2 [] l;
  '(us, l) ← match l with
             | c :: l' =>
                 if decide (c = "."%char)
                 then field 6 [] l'
                 else Some (0, l)
             | [] => Some (0, l)
             end;
  aware ← offset l;
  if (1 <=? y) && (1 <=? m) && (m <=? 12) && (1 <=? d) && (d <=? days_in_month y m)
     && (hh <? 24) && (mm <? 60) && (ss <? 60)
  then Some (if aware : bool then Aware
             else Naive ((((days_from_civil y m d * 24 + hh) * 60 + mm) * 60 + ss)
                         * 1000000 + us))
  else None.

(** 2024-01-15T10:30:00 on this time line. *)
Definition t_2024_01_15 : Z := 1705314600000000.

End datetime.

(** ** Worked configurations

    Metadata values are integers and confidences are given in thousandths
    in the examples. *)

(** A clock that starts at 2024-01-15T10:30:00 and advances by [step]
    microseconds from one reading to the next. *)
Definition clock_every (step : Z) : Clock :=
  {| utc := λ k, datetime.t_2024_01_15 + Z.of_nat k * step;
     isoformat := datetime.isoformat;
     fromisoformat := datetime.fromisoformat |}.

(** One millisecond between readings. *)
Definition steady : Clock := clock_every 1000.

(** One millisecond between readings, and twenty-five hours more between
    the fourth reading and the fifth. *)
Definition next_day : Clock :=
  {| utc := λ k, datetime.t_2024_01_15 + Z.of_nat k * 1000
                 + (if (4 <=? k)%nat then 25 * 3600000000 else 0);
     isoformat := datetime.isoformat;
     fromisoformat := datetime.fromisoformat |}.

Definition order : schemas.ClassificationResult Z :=
  {| schemas.format := "json"; schemas.intent := "order";
     schemas.confidence := 800;
     schemas.timestamp := "2024-01-15T10:30:00";
     schemas.error := None |}.

(** [SharedMemory()] with the default configuration. *)
Definition fresh : World Z Z := __init__ (clock := steady) 1000 24 0.

(** [SharedMemory()] under the clock [next_day]: the clock has been read
    four times when a first [store_metadata] of a new id returns. *)
Definition day_one : World Z Z := __init__ (clock := next_day) 1000 24 0.

(** [SharedMemory(max_entries=1)]. *)
Definition tiny : World Z Z := __init__ (clock := steady) 1 24 0.

(** [tiny] after one classification: one record, at capacity. *)
Definition full : World Z Z :=
  (store_classification (clock := steady) "q" order tiny).2.

(** [tiny] after two classifications: two records, over capacity. *)
Definition crowded : World Z Z :=
  (store_classification (clock := steady) "b" order
     (store_classification (clock := steady) "a" order tiny).2).2.

Definition plain (pid ts : string) : MemoryEntry Z Z :=
  {| processing_id := pid; timestamp := ts; metadata := ∅;
     classification := None; extracted_data := None;
     conversation_id := None; agent_history := ["data_extracted"] |}.

(** A table with an entry five days old, an entry whose timestamp is not
    a date, and an entry half an hour old, last swept a day ago. *)
Definition aged : World Z Z :=
  {| self :=
       {| _memory := [("old", plain "old" "2024-01-10T08:00:00");
                      ("odd", plain "odd" "yesterday");
                      ("new", plain "new" "2024-01-15T10:00:00")];
          _conversation_index := ∅;
          max_entries := 1000; cleanup_hours := 24;
          _stats := {| total_entries := 3; active_conversations := 0;
                       last_cleanup := "2024-01-14T10:00:00";
                       last_update := None |} |};
     ticks := 0 |}.

(** The table of [aged] with one entry more, whose timestamp carries a UTC
    offset. *)
Definition zoned : World Z Z :=
  {| self :=
       {| _memory := [("old", plain "old" "2024-01-10T08:00:00");
                      ("odd", plain "odd" "yesterday");
                      ("new", plain "new" "2024-01-15T10:00:00");
                      ("utc", plain "utc" "2024-01-15T10:00:00+00:00")];
          _conversation_index := ∅;
          max_entries := 1000; cleanup_hours := 24;
          _stats := {| total_entries := 4; active_conversations := 0;
                       last_cleanup := "2024-01-14T10:00:00";
                       last_update := None |} |};
     ticks := 0 |}.

(** [SharedMemory(cleanup_hours=-70000000)]: the sweep interval is
    negative, so a sweep is due at every [store_metadata], and its cutoff
    lies some 7985 years after the clock's reading. *)
Definition backward : World Z Z :=
  __init__ (clock := steady) 1000 (-70000000) 0.

(** Two messages of one conversation on the default store, the first of
    them with metadata. *)
Definition thread : World Z Z :=
  (store_conversation_id (clock := steady) "m2" "thread"
     (store_conversation_id (clock := steady) "m1" "thread"
        (store_metadata (clock := steady) "m1" {["source" := 1]} fresh).2).2).2.

(** ** [main.py]: the memory endpoints

    The three endpoints over the store object [shared_memory].  An endpoint
    returns a value or raises; what it raises is FastAPI's [HTTPException],
    of which the status code is kept, or another exception.
    [HTTPException] derives from [Exception], so a handler
    [except Exception] catches it like any other. *)

Module main.

Inductive exn :=
| HTTPException (status_code : Z)
| Other (e : py.exn).

Inductive response (A : Type) :=
| Respond (a : A)
| Fail (e : exn).
Arguments Respond {A} a.
Arguments Fail {A} e.

(** [try: body  except Exception as e: handler e]. *)
Definition try_except {A} (body : response A) (handler : exn → response A)
    : response A :=
  match body with
  | Respond a => Respond a
  | Fail e => handler e
  end.

(** A call of a method of the store from an endpoint. *)
Definition called {A} (o : outcome A) : response A :=
  match o with
  | Return a => Respond a
  | Raise e => Fail (Other e)
  end.

(** The dictionary that [list_all_memory] returns: the three keys of a
    snapshot, and the key ["error"] that the fallback adds to its
    statistics; the message [str(e)] is identified with the exception. *)
Record Listing {Any float : Type} := {
  listed : Snapshot (Any:=Any) (float:=float);
  error : option py.exn;
}.
Arguments Listing : clear implicits.

Section Endpoints.
Context {Any float : Type} {clock : Clock}.

(** [GET /memory/{processing_id}]. *)
Definition get_memory (processing_id : string)
    (shared_memory : SharedMemory Any float)
    : response (MemoryEntry Any float) :=
  try_except
    (match called (get_memory processing_id shared_memory) with
     | Respond memory_data =>
         match memory_data with
         | None => Fail (HTTPException 404)
         | Some d => Respond d
         end
     | Fail e => Fail e
     end)
    (λ _, Fail (HTTPException 500)).

(** [GET /memory]. *)
Definition list_all_memory (shared_memory : SharedMemory Any float)
    : Listing Any float :=
  match get_all_memory shared_memory with
  | Return memory_data => {| listed := memory_data; error := None |}
  | Raise e =>
      {| listed :=
           {| entries := []; conversation_index := ∅;
              statistics := {| total_entries := 0; active_conversations := 0;
                               last_cleanup := "never";
                               last_update := None |} |};
         error := Some e |}
  end.

(** [DELETE /memory/{processing_id}]; the value returned is the message. *)
Definition clear_memory (processing_id : string) (w : World Any float)
    : response string * World Any float :=
  let '(success, w') := clear_memory processing_id w in
  (try_except
     (match called success with
      | Respond success =>
          if success then Respond "Memory cleared successfully"
          else Fail (HTTPException 404)
      | Fail e => Fail e
      end)
     (λ _, Fail (HTTPException 500)),
   w').

End Endpoints.

End main.

(** ** Python [str], [json] and built-ins used by the agents *)

Module str.

(** [pattern in s] on strings: [pattern] occurs in [s] as a substring.
    On UTF-8 an occurrence of bytes that starts a code point is an
    occurrence of code points, and conversely. *)
Fixpoint contains (pattern s : string) : bool :=
  String.prefix pattern s
  || match s with
     | EmptyString => false
     | String _ s' => contains pattern s'
     end.

(** [s.startswith(prefix)] and [s.endswith(suffix)]. *)
Definition startswith (prefix s : string) : bool := String.prefix prefix s.

Definition endswith (suffix s : string) : bool :=
  String.prefix (String.rev suffix) (String.rev s).

(** [sum(1 for pattern in patterns if pattern in s)]. *)
Fixpoint count (patterns : list string) (s : string) : nat :=
  match patterns with
  | [] => 0
  | pattern :: patterns' =>
      ((if contains pattern s then 1 else 0) + count patterns' s)%nat
  end.

(** A byte that continues a code point of UTF-8. *)
Definition continuation (c : ascii) : bool :=
  let n := nat_of_ascii c in (128 <=? n)%nat && (n <? 192)%nat.

(** [s[:n]]: the first [n] code points of [s]. *)
Fixpoint head (n : nat) (s : string) : string :=
  match s with
  | EmptyString => EmptyString
  | String c s' =>
      if continuation c then String c (head n s')
      else match n with
           | O => EmptyString
           | S n' => String c (head n' s')
           end
  end.

(** [s.lower()] and [s.strip()], on arbitrary text, are an interface. *)
Class Methods := {
  lower : string → string;
  strip : string → string;
}.

(** The two methods where every character of [s] is ASCII: the letters
    [A] to [Z] are mapped to [a] to [z]; the characters stripped are those
    for which [str.isspace] holds, which among the ASCII ones are the
    codes 9 to 13 and 28 to 32. *)
Definition ascii_lower_char (c : ascii) : ascii :=
  let n := nat_of_ascii c in
  if (65 <=? n)%nat && (n <=? 90)%nat then ascii_of_nat (n + 32) else c.

Fixpoint ascii_lower (s : string) : string :=
  match s with
  | EmptyString => EmptyString
  | String c s' => String (ascii_lower_char c) (ascii_lower s')
  end.

Definition isspace (c : ascii) : bool :=
  let n := nat_of_ascii c in
  ((9 <=? n)%nat && (n <=? 13)%nat) || ((28 <=? n)%nat && (n <=? 32)%nat).

Fixpoint lstrip (s : string) : string :=
  match s with
  | EmptyString => EmptyString
  | String c s' => if isspace c then lstrip s' else s
  end.

Definition ascii_strip (s : string) : string :=
  String.rev (lstrip (String.rev (lstrip s))).

Definition ascii : Methods := {| lower := ascii_lower; strip := ascii_strip |}.

Definition isascii (s : string) : bool :=
  forallb (λ c, (nat_of_ascii c <? 128)%nat) (String.list_ascii_of_string s).

End str.

Module json.

(** [loads s] is the outcome of [json.loads(s)], the value parsed being
    dropped: the call returns, or raises [JSONDecodeError] on a text that is
    not JSON, or raises another exception, as [RecursionError] on a text
    that is nested too deeply. *)
Class Parser := {
  loads : string → outcome unit;
}.

End json.

Module builtins.
Import PrimFloat.

(** [min(a, b)] on floats: the first argument unless the second is less. *)
Definition min (a b : float) : float := if (b <? a)%float then b else a.

(** [float(n)] for a count [n], as in [matches * 0.25] and in the true
    division of two counts. *)
Definition float_of_nat (n : nat) : float :=
  of_uint63 (Uint63.of_Z (Z.of_nat n)).

(** [max(d, key=d.get)] continued from the best entry so far: a later key
    wins only with a strictly greater value. *)
Fixpoint max_by_value (best : string * nat) (d : list (string * nat)) : string :=
  match d with
  | [] => best.1
  | x :: d' => max_by_value (if (best.2 <? x.2)%nat then x else best) d'
  end.

(** [d[k]]. *)
Definition item {V} (k : string) (d : py.dict V) : outcome V :=
  match py.get k d with
  | Some v => Return v
  | None => Raise py.KeyError
  end.

End builtins.

(** ** [agents/classifier.py] *)

Module classifier.
Import PrimFloat.
#[local] Set Warnings "-inexact-float".

(** [gemini_service.generate_response(prompt)] for the prompt that
    [_classify_intent] builds from [format_type] and [content]: the
    response, or [None] where the call raises. *)
Class Gemini := {
  generate_response : string → string → option string;
}.

(** [str(e)] in the error message of the fallback. *)
Class Rendering := {
  str_exn : py.exn → string;
}.

(** [self.intent_patterns], in insertion order. *)
Definition intent_patterns : list (string * list string) :=
  [("invoice", ["invoice"; "bill"; "payment"; "amount due"; "total:"; "$"; "€"; "£"]);
   ("rfq", ["request for quote"; "rfq"; "quotation"; "price"; "estimate"; "proposal"]);
   ("complaint", ["complaint"; "issue"; "problem"; "dissatisfied"; "unhappy"; "concern"]);
   ("regulation", ["regulation"; "compliance"; "policy"; "legal"; "requirement"; "standard"]);
   ("support", ["help"; "support"; "assistance"; "question"; "inquiry"]);
   ("order", ["order"; "purchase"; "buy"; "procurement"; "delivery"])].

(** [ClassificationResult(...)]: pydantic validates [confidence] against
    [ge=0.0] and [le=1.0] and raises [ValidationError], a [ValueError],
    where it fails. *)
Definition new_ClassificationResult (format intent : string)
    (confidence : float) (timestamp : string) (error : option string)
    : outcome (schemas.ClassificationResult float) :=
  if (0 <=? confidence)%float && (confidence <=? 1)%float
  then Return {| schemas.format := format; schemas.intent := intent;
                 schemas.confidence := confidence;
                 schemas.timestamp := timestamp;
                 schemas.error := error |}
  else Raise py.ValueError.

Section ClassifierAgent.
Context {methods : str.Methods} {parser : json.Parser} {gemini : Gemini}
  {rendering : Rendering}.

(** The dictionary [intent_scores] that [_pattern_based_intent] builds. *)
Definition intent_scores (content_lower : string) : list (string * nat) :=
  filter (λ x, (0 < x.2)%nat)
    ((λ x, (x.1, str.count x.2 content_lower)) <$> intent_patterns).

(** [_pattern_based_intent]. *)
Definition _pattern_based_intent (content : string) : string :=
  let content_lower := str.lower content in
  match intent_scores content_lower with
  | [] => "unknown"
  | x :: d => builtins.max_by_value x d
  end.

(** [_detect_format].  The handler of the JSON check catches
    [JSONDecodeError] only; any other exception of the parser leaves the
    method. *)
Definition _detect_format (content : string) : outcome string :=
  let content_lower := str.strip (str.lower content) in
  let after_json_check :=
    let email_indicators :=
      ["from:"; "to:"; "subject:"; "date:";
       "message-id:"; "received:"; "reply-to:";
       "dear"; "hi"; "hello"; "best regards"; "sincerely"] in
    if existsb (λ indicator, str.contains indicator content_lower) email_indicators
    then "email"
    else if str.contains "[pdf content]" content_lower
            || str.contains "extracted text from" content_lower
    then "pdf"
    else "text" in
  if str.startswith "{" (str.strip content)
     && str.endswith "}" (str.strip content)
  then
    match json.loads content with
    | Return _ => Return "json"
    | Raise py.JSONDecodeError => Return after_json_check
    | Raise e => Raise e
    end
  else Return after_json_check.

(** [_classify_intent]. *)
Definition _classify_intent (content format_type : string) : string :=
  let pattern_intent := _pattern_based_intent content in
  if negb (String.eqb pattern_intent "unknown") then pattern_intent
  else
    match generate_response format_type content with
    | Some response =>
        let valid_intents :=
          ["invoice"; "rfq"; "complaint"; "regulation"; "support"; "order";
           "general"] in
        let intent := str.lower (str.strip response) in
        if bool_decide (intent ∈ valid_intents) then intent else "general"
    | None => _pattern_based_intent content
    end.

(** [_calculate_confidence]. *)
Definition _calculate_confidence (content format_type intent : string) : float :=
  let confidence := 0.0%float in
  let confidence :=
    if String.eqb format_type "json" then
      match json.loads content with
      | Return _ => (confidence + 0.8)%float
      | Raise _ => (confidence + 0.3)%float
      end
    else if String.eqb format_type "email" then
      let email_indicators := ["from:"; "to:"; "subject:"] in
      let matches := str.count email_indicators (str.lower content) in
      (confidence + builtins.min 0.7 (builtins.float_of_nat matches * 0.25))%float
    else if String.eqb format_type "pdf" then (confidence + 0.6)%float
    else (confidence + 0.4)%float in
  let confidence :=
    if negb (String.eqb intent "unknown") then
      let pattern_intent := _pattern_based_intent content in
      if String.eqb pattern_intent intent then (confidence + 0.2)%float
      else (confidence + 0.1)%float
    else confidence in
  builtins.min 1.0 confidence.

Section Classify.
Context {Any : Type} {clock : Clock}.

Notation "'let!' x := m 'in' k" := (bind m (λ x, k))
  (at level 10, x name, m at level 100, k at level 200, only parsing).
Notation "'do!' m 'in' k" := (bind m (λ _, k))
  (at level 10, m at level 100, k at level 200, only parsing).

(** [classify].  The store is touched by the call of
    [store_classification] only, after every [await]. *)
Definition classify (content processing_id : string)
    : M (Any:=Any) (float:=float) (schemas.ClassificationResult float) :=
  try_except
    (let! format_type := lift (_detect_format content) in
     let intent := _classify_intent content format_type in
     let confidence := _calculate_confidence content format_type intent in
     let! now := utcnow in
     let! classification :=
       lift (new_ClassificationResult format_type intent confidence
               (isoformat now) None) in
     do! call (store_classification processing_id classification) in
     ret classification)
    (λ e,
     let! now := utcnow in
     let! fallback_classification :=
       lift (new_ClassificationResult "unknown" "unknown" 0.0 (isoformat now)
               (Some ("Classification failed: " +:+ str_exn e))) in
     do! call (store_classification processing_id fallback_classification) in
     ret fallback_classification).

End Classify.

End ClassifierAgent.

(** The text that [process_file] of [main.py] hands to the classifier for
    an upload whose name ends in [.pdf]. *)
Definition pdf_text (filename : string) : string :=
  "[PDF Content] Extracted text from " +:+ filename +:+ ". " +:+
  "This is a mock extraction. In production, implement proper PDF parsing.".

End classifier.

(** ** [agents/email_agent.py]: the urgency of an e-mail *)

Module email_agent.
Import PrimFloat.
#[local] Set Warnings "-inexact-float".

(** [self.urgency_indicators], in insertion order. *)
Definition urgency_indicators : list (string * list string) :=
  [("high", ["urgent"; "asap"; "emergency"; "critical"; "immediate"; "rush"; "!!!"]);
   ("medium", ["soon"; "priority"; "important"; "quickly"; "expedite"]);
   ("low", ["when possible"; "no rush"; "low priority"; "convenience"])].

(** The dictionary that [_classify_urgency] returns. *)
Record Urgency := {
  level : string;
  confidence : float;
  indicators_found : list (string * nat);
}.

Section EmailAgent.
Context {methods : str.Methods}.

(** [_classify_urgency]. *)
Definition _classify_urgency (email_content : string) : outcome Urgency :=
  let content_lower := str.lower email_content in
  let urgency_scores :=
    filter (λ x, (0 < x.2)%nat)
      ((λ x, (x.1, str.count x.2 content_lower)) <$> urgency_indicators) in
  match
    match urgency_scores with
    | x :: d =>
        let top_urgency := builtins.max_by_value x d in
        match builtins.item top_urgency urgency_scores,
              builtins.item top_urgency urgency_indicators with
        | Return score, Return indicators =>
            Return (top_urgency,
                    (builtins.float_of_nat score
                     / builtins.float_of_nat (length indicators))%float)
        | Raise e, _ | _, Raise e => Raise e
        end
    | [] => Return ("medium", 0.3%float)
    end
  with
  | Return (top_urgency, confidence) =>
      let subject_indicators := ["urgent"; "asap"; "important"; "priority"] in
      let subject_urgency :=
        existsb
          (λ indicator,
           str.contains indicator (str.head 200 (str.lower email_content)))
          subject_indicators in
      let '(top_urgency, confidence) :=
        if subject_urgency && String.eqb top_urgency "medium"
        then ("high", (confidence + 0.2)%float)
        else (top_urgency, confidence) in
      Return {| level := top_urgency;
                confidence := builtins.min 1.0 confidence;
                indicators_found := urgency_scores |}
  | Raise e => Raise e
  end.

End EmailAgent.

End email_agent.

(** * Facts about the Python built-ins *)

Lemma filter_all {A} (P : A → Prop) `{!∀ x, Decision (P x)} (l : list A) :
  (∀ x, x ∈ l → P x) → filter P l = l.
Proof.
  induction l as [|x l IH]; intros Hl; [done |].
  rewrite filter_cons_True by (apply Hl; left).
  f_equal. apply IH. intros y Hy. apply Hl. by right.
Qed.

Lemma filter_none {A} (P : A → Prop) `{!∀ x, Decision (P x)} (l : list A) :
  (∀ x, x ∈ l → ¬ P x) → filter P l = [].
Proof.
  induction l as [|x l IH]; intros Hl; [done |].
  rewrite filter_cons_False by (apply Hl; left).
  apply IH. intros y Hy. apply Hl. by right.
Qed.

Lemma filter_ext_elem {A} (P Q : A → Prop)
    `{!∀ x, Decision (P x), !∀ x, Decision (Q x)} (l : list A) :
  (∀ x, x ∈ l → P x ↔ Q x) → filter P l = filter Q l.
Proof.
  induction l as [|x l IH]; intros Hl; [done |].
  rewrite !filter_cons, IH by (intros y Hy; apply Hl; by right).
  destruct (decide (P x)) as [HP | HP], (decide (Q x)) as [HQ | HQ]; try done;
    exfalso; apply (Hl x) in HP || apply (Hl x) in HQ; done || left.
Qed.

Section DictFacts.
Context {V : Type}.
Implicit Types (d : py.dict V) (k : string) (v : V).

Lemma get_None d k : py.get k d = None ↔ k ∉ d.*1.
Proof.
  induction d as [|[k' v'] d IH]; simpl.
  - split; [intros _; apply not_elem_of_nil | done].
  - case_decide; subst.
    + split; [done | intros H; exfalso; apply H; left].
    + rewrite IH, not_elem_of_cons. split; [intros ?; split; [congruence | done] | by intros [_ ?]].
Qed.

Lemma get_Some_elem d k v : py.get k d = Some v → (k, v) ∈ d.
Proof.
  induction d as [|[k' v'] d IH]; simpl; [done |].
  case_decide; subst.
  - intros [= ->]. left.
  - intros H'. right. auto.
Qed.

Lemma elem_get_Some d k v : NoDup d.*1 → (k, v) ∈ d → py.get k d = Some v.
Proof.
  induction d as [|[k' v'] d IH]; simpl.
  - intros _ H. by apply elem_of_nil in H.
  - intros Hnd H. apply NoDup_cons in Hnd as [Hk Hnd].
    apply elem_of_cons in H as [[= -> ->] | H].
    + by rewrite decide_True.
    + rewrite decide_False; [auto |].
      intros ->. apply Hk. apply (list_elem_of_fmap_2 fst) in H. done.
Qed.

Lemma get_is_Some d k : is_Some (py.get k d) ↔ k ∈ d.*1.
Proof.
  rewrite <- not_eq_None_Some, get_None.
  split; [apply dec_stable | auto].
Qed.

Lemma get_set_item_eq d k v : py.get k (py.set_item k v d) = Some v.
Proof.
  induction d as [|[k' v'] d IH]; simpl.
  - by rewrite decide_True.
  - case_decide; simpl; [by rewrite decide_True | by rewrite decide_False].
Qed.

Lemma get_set_item_ne d k k' v :
  k ≠ k' → py.get k' (py.set_item k v d) = py.get k' d.
Proof.
  intros Hne. induction d as [|[k0 v0] d IH]; simpl.
  - by rewrite decide_False.
  - case_decide; simpl; subst.
    + by rewrite !decide_False.
    + case_decide; [done | apply IH].
Qed.

Lemma set_item_keys d k v :
  (py.set_item k v d).*1 =
  match py.get k d with Some _ => d.*1 | None => d.*1 ++ [k] end.
Proof.
  induction d as [|[k' v'] d IH]; csimpl; [done |].
  case_decide; csimpl; [done |].
  rewrite IH. by destruct (py.get k d).
Qed.

Lemma set_item_NoDup d k v : NoDup d.*1 → NoDup (py.set_item k v d).*1.
Proof.
  intros Hnd. rewrite set_item_keys.
  destruct (py.get k d) eqn:Hg; [done |].
  apply NoDup_app. split_and!; [done | | apply NoDup_singleton].
  intros x Hx ->%list_elem_of_singleton. by apply get_None in Hg.
Qed.

Lemma set_item_length d k v :
  length (py.set_item k v d) =
  match py.get k d with Some _ => length d | None => S (length d) end.
Proof.
  rewrite <- (length_fmap fst), set_item_keys.
  destruct (py.get k d); rewrite ?length_app, length_fmap; simpl; lia.
Qed.

Lemma set_item_elem d k v x :
  x ∈ py.set_item k v d → x = (k, v) ∨ x ∈ d.
Proof.
  induction d as [|[k' v'] d IH]; simpl.
  - intros ->%list_elem_of_singleton. by left.
  - case_decide; subst.
    + intros [-> | Hx]%elem_of_cons; [by left | right; by right].
    + intros [-> | Hx]%elem_of_cons; [right; left |].
      destruct (IH Hx) as [-> | ?]; [by left | right; by right].
Qed.

Lemma del_item_filter d k :
  NoDup d.*1 → py.del_item k d = filter (λ x, x.1 ≠ k) d.
Proof.
  induction d as [|[k' v'] d IH]; simpl; intros Hnd; [done |].
  apply NoDup_cons in Hnd as [Hk Hnd]. case_decide; subst.
  - rewrite filter_cons_False by (simpl; auto).
    symmetry. apply filter_all.
    intros [k0 v0] Hin ?; simpl in *; subst.
    apply Hk. by apply (list_elem_of_fmap_2 fst) in Hin.
  - rewrite filter_cons_True by done. by rewrite IH.
Qed.

Lemma get_del_item_ne d k k' :
  k ≠ k' → py.get k' (py.del_item k d) = py.get k' d.
Proof.
  intros Hne. induction d as [|[k0 v0] d IH]; simpl; [done |].
  case_decide; subst; simpl.
  - by rewrite decide_False.
  - case_decide; [done | apply IH].
Qed.

Lemma get_del_item_eq d k : NoDup d.*1 → py.get k (py.del_item k d) = None.
Proof.
  intros Hnd. rewrite del_item_filter by done.
  apply get_None. intros (x & -> & Hx)%list_elem_of_fmap.
  by apply list_elem_of_filter in Hx as [? _].
Qed.

Lemma del_item_sublist d k : sublist (py.del_item k d) d.
Proof.
  induction d as [|[k' v'] d IH]; simpl; [done |].
  case_decide; [by apply sublist_cons | by apply sublist_skip].
Qed.

Lemma del_item_length d k :
  is_Some (py.get k d) → S (length (py.del_item k d)) = length d.
Proof.
  induction d as [|[k' v'] d IH]; simpl.
  - by intros [? ?].
  - case_decide; [done |]. intros H'. simpl. by rewrite IH.
Qed.

Lemma sublist_keys_NoDup d d' : sublist d' d → NoDup d.*1 → NoDup d'.*1.
Proof. intros Hs Hnd. eapply sublist_NoDup; [done |]. by apply fmap_sublist. Qed.

Lemma sublist_get d d' k v :
  sublist d' d → NoDup d.*1 → py.get k d' = Some v → py.get k d = Some v.
Proof.
  intros Hs Hnd Hg. apply elem_get_Some; [done |].
  eapply elem_of_sublist; [| done]. by apply get_Some_elem.
Qed.

End DictFacts.

Lemma remove_elem_ne (x y : string) (l : list string) :
  x ≠ y → y ∈ l → y ∈ py.remove x l.
Proof.
  intros Hne. induction l as [|z l IH]; simpl; [done |].
  intros [-> | H]%elem_of_cons.
  - rewrite decide_False by done. left.
  - case_decide; [done | right; auto].
Qed.

Lemma str_le_trans s1 s2 s3 : py.str_le s1 s2 → py.str_le s2 s3 → py.str_le s1 s3.
Proof.
  unfold py.str_le, String.leb. intros H12 H23.
  destruct (String.compare s1 s2) eqn:E12; [| | done].
  - apply String.compare_eq_iff in E12 as ->. done.
  - destruct (String.compare s2 s3) eqn:E23; [| | done].
    + apply String.compare_eq_iff in E23 as <-. by rewrite E12.
    + apply String_as_OT.cmp_lt in E12, E23.
      pose proof (String_as_OT.lt_trans _ _ _ E12 E23) as H13.
      apply String_as_OT.cmp_lt in H13.
      unfold String_as_OT.cmp in H13. by rewrite H13.
Qed.

Lemma str_le_total s1 s2 : py.str_le s1 s2 ∨ py.str_le s2 s1.
Proof. apply String.leb_total. Qed.

Section SortedFacts.
Context {A : Type} (key : A → string).
Implicit Types (x : A) (l : list A).


Lemma insert_by_perm x l : py.insert_by key x l ≡ₚ x :: l.
Proof.
  induction l as [|y l IH]; simpl; [done |].
  destruct (String.leb _ _); [done |].
  rewrite IH. apply Permutation_swap.
Qed.

Lemma sorted_perm l : py.sorted key l ≡ₚ l.
Proof.
  induction l as [|x l IH]; simpl; [done |].
  unfold py.sorted in *. simpl. by rewrite insert_by_perm, IH.
Qed.

Lemma insert_by_sorted x l :
  StronglySorted (py.by_key key) l → StronglySorted (py.by_key key) (py.insert_by key x l).
Proof.
  induction 1 as [|y l Hl IH Hy]; simpl.
  - repeat constructor.
  - destruct (String.leb (key x) (key y)) eqn:Hxy.
    + constructor; [by constructor |].
      constructor; [done |].
      eapply Forall_impl; [done |]. intros z Hz.
      by eapply str_le_trans.
    + constructor; [done |].
      rewrite insert_by_perm. constructor; [| done].
      destruct (str_le_total (key x) (key y)) as [H' | H']; [| done].
      unfold py.str_le in H'. congruence.
Qed.

Lemma sorted_sorted l : StronglySorted (py.by_key key) (py.sorted key l).
Proof.
  induction l as [|x l IH]; [constructor |].
  by apply insert_by_sorted.
Qed.

Lemma sorted_length l : length (py.sorted key l) = length l.
Proof. apply Permutation_length, sorted_perm. Qed.

(** The first [n] elements of the sorted list come before the others. *)
Lemma sorted_take_le n l x y :
  x ∈ take n (py.sorted key l) → y ∈ drop n (py.sorted key l) →
  py.str_le (key x) (key y).
Proof.
  intros Hx Hy.
  eapply (StronglySorted_app_1_elem_of (py.by_key key)); [| done | done].
  rewrite take_drop. apply sorted_sorted.
Qed.

End SortedFacts.

(** * Facts about the store *)

Section StoreFacts.
Context {Any float : Type} {clock : Clock}.
Implicit Types (w : World Any float) (s : SharedMemory Any float)
  (e : MemoryEntry Any float) (pid cid : string).

Ltac unfold_m :=
  unfold try_except, bind, ret, raise, get_self, put_self, utcnow in *;
  simpl in *.

Lemma evolves_refl w : evolves w w.
Proof. by split_and!. Qed.

Lemma evolves_trans w1 w2 w3 : evolves w1 w2 → evolves w2 w3 → evolves w1 w3.
Proof.
  intros (? & ? & ? & ?) (? & ? & ? & ?).
  split_and!; [by etrans | congruence | congruence | lia].
Qed.

Lemma _update_stats_run w :
  ∃ st, _update_stats w =
        (Return tt, {| self := with_stats (self w) st; ticks := S (ticks w) |})
        ∧ last_cleanup st = last_cleanup (_stats (self w)).
Proof. eexists. split; [reflexivity | done]. Qed.

(** [clear_memory] on an unknown id. *)
Lemma clear_memory_unknown w pid :
  py.get pid (_memory (self w)) = None → clear_memory pid w = (Return false, w).
Proof. intros Hg. unfold clear_memory. unfold_m. by rewrite Hg. Qed.

(** [clear_memory] never raises, and at most deletes from the table. *)
Lemma clear_memory_evolves w pid :
  ∃ b w', clear_memory pid w = (Return b, w') ∧ evolves w w'
          ∧ last_cleanup (_stats (self w')) = last_cleanup (_stats (self w)).
Proof.
  unfold clear_memory, unregister. unfold_m.
  destruct (py.get pid (_memory (self w))) as [e|] eqn:Hg;
    [| by eexists _, _; split_and!; [done | apply evolves_refl | done]].
  destruct (conversation_id e) as [cid|]; [destruct (py.truthy cid) |].
  - destruct (_conversation_index (self w) !! cid) as [l|];
      [| by eexists _, _; split_and!; [done | apply evolves_refl | done]].
    destruct (if decide (pid ∈ l) then py.remove pid l else l); simpl;
      (eexists _, _; split_and!; [done | | done];
       split_and!; simpl; [apply del_item_sublist | done | done | lia]).
  - simpl. eexists _, _; split_and!; [done | | done].
    split_and!; simpl; [apply del_item_sublist | done | done | lia].
  - simpl. eexists _, _; split_and!; [done | | done].
    split_and!; simpl; [apply del_item_sublist | done | done | lia].
Qed.

(** [clear_memory] on a known id of a store whose index covers the table. *)
Lemma clear_memory_known w pid e :
  index_covers (self w) →
  py.get pid (_memory (self w)) = Some e →
  ∃ w', clear_memory pid w = (Return true, w')
    ∧ _memory (self w') = py.del_item pid (_memory (self w))
    ∧ ticks w' = S (ticks w)
    ∧ max_entries (self w') = max_entries (self w)
    ∧ cleanup_hours (self w') = cleanup_hours (self w)
    ∧ last_cleanup (_stats (self w')) = last_cleanup (_stats (self w))
    ∧ (conversation_id e = None ∨ conversation_id e = Some EmptyString →
       _conversation_index (self w') = _conversation_index (self w))
    ∧ (∀ cid, conversation_id e = Some cid → cid ≠ EmptyString →
       ∃ bucket, _conversation_index (self w) !! cid = Some bucket
         ∧ pid ∈ bucket
         ∧ _conversation_index (self w') =
           match py.remove pid bucket with
           | [] => delete cid (_conversation_index (self w))
           | b' => <[cid := b']> (_conversation_index (self w))
           end).
Proof.
  intros Hcov Hg. unfold clear_memory, unregister. unfold_m. rewrite Hg.
  destruct (conversation_id e) as [cid|] eqn:Hc; simpl.
  - unfold py.truthy. case_decide as Hcid; simpl.
    + eexists. split_and!; try done. intros cid' [= <-] ?. done.
    + destruct (Hcov pid e cid Hg Hc Hcid) as (bucket & Hb & Hin).
      rewrite Hb. rewrite decide_True by done.
      destruct (py.remove pid bucket) eqn:Hr; simpl;
        (eexists; split_and!; try done;
         [by intros [? | [= ?]]
         | intros cid' [= <-] _; exists bucket; by rewrite Hr]).
  - eexists. split_and!; done.
Qed.

(** [clear_memory] keeps the representation invariant. *)
Lemma clear_memory_ok w pid :
  store_ok (self w) → store_ok (self (clear_memory pid w).2).
Proof.
  intros [Hnd Hcov].
  destruct (py.get pid (_memory (self w))) as [e|] eqn:Hg;
    [| by rewrite clear_memory_unknown].
  destruct (clear_memory_known w pid e Hcov Hg)
    as (w' & -> & Hm & _ & _ & _ & _ & Hfalsy & Htruthy); simpl.
  split.
  - rewrite Hm. eapply sublist_keys_NoDup; [apply del_item_sublist | done].
  - intros p e' c Hp Hc' Hne. rewrite Hm in Hp.
    destruct (decide (p = pid)) as [-> | Hpp];
      [by rewrite get_del_item_eq in Hp |].
    rewrite get_del_item_ne in Hp by done.
    destruct (Hcov p e' c Hp Hc' Hne) as (b & Hb & Hin).
    destruct (conversation_id e) as [cid|] eqn:Hc; [| rewrite Hfalsy; eauto].
    destruct (decide (cid = EmptyString)) as [-> | Hcid]; [rewrite Hfalsy; eauto |].
    destruct (Htruthy cid eq_refl Hcid) as (bucket & Hbk & Hpid & ->).
    destruct (decide (cid = c)) as [-> | Hcc].
    + assert (bucket = b) as -> by congruence.
      pose proof (remove_elem_ne pid p b (not_eq_sym Hpp) Hin) as Hin'.
      destruct (py.remove pid b) as [|x l] eqn:Hr;
        [by apply elem_of_nil in Hin' |].
      exists (x :: l). by rewrite lookup_insert_eq.
    + exists b. split; [| done].
      destruct (py.remove pid bucket);
        [by rewrite lookup_delete_ne | by rewrite lookup_insert_ne].
Qed.

Lemma for_each_fmap {A B} (f : A → B) (l : list A) (body : B → M unit) w :
  for_each (f <$> l) body w = for_each l (λ x, body (f x)) w.
Proof.
  revert w. induction l as [|x l IH]; intros w; [done |].
  csimpl. unfold bind. destruct (body (f x) w) as [[[]|] w']; [apply IH | done].
Qed.

(** Clearing distinct known ids one after the other removes exactly them. *)
Lemma clear_each_run ids : ∀ w,
  store_ok (self w) → NoDup ids →
  (∀ k, k ∈ ids → k ∈ (_memory (self w)).*1) →
  ∃ w', for_each ids (λ pid, call (clear_memory pid)) w
        = (Return tt, w')
    ∧ _memory (self w') = filter (λ x, x.1 ∉ ids) (_memory (self w))
    ∧ store_ok (self w')
    ∧ ticks w' = (ticks w + length ids)%nat
    ∧ max_entries (self w') = max_entries (self w)
    ∧ cleanup_hours (self w') = cleanup_hours (self w)
    ∧ last_cleanup (_stats (self w')) = last_cleanup (_stats (self w))
    ∧ (length (_memory (self w')) + length ids)%nat = length (_memory (self w)).
Proof.
  induction ids as [|pid ids IH]; intros w Hok Hnd Hin.
  - exists w. simpl. split_and!; try done; try lia.
    symmetry. apply filter_all. intros x _. apply not_elem_of_nil.
  - apply NoDup_cons in Hnd as [Hpid Hnd].
    assert (is_Some (py.get pid (_memory (self w)))) as [e Hg]
      by (apply get_is_Some, Hin; left).
    pose proof (clear_memory_ok w pid Hok) as Hok1.
    destruct (clear_memory_known w pid e (proj2 Hok) Hg)
      as (w1 & Hrun & Hm1 & Ht1 & Hmax1 & Hh1 & Hlc1 & _).
    rewrite Hrun in Hok1. simpl in Hok1.
    pose proof (del_item_length (_memory (self w)) pid (mk_is_Some _ _ Hg)) as Hlen1.
    rewrite <- Hm1 in Hlen1.
    rewrite del_item_filter in Hm1 by apply Hok.
    destruct (IH w1 Hok1 Hnd)
      as (w' & Hrun' & Hm & Hok' & Ht & Hmax & Hh & Hlc & Hlen).
    { intros k Hk. rewrite Hm1.
      assert (k ∈ (_memory (self w)).*1) as (x & -> & Hx)%list_elem_of_fmap
        by (apply Hin; by right).
      apply list_elem_of_fmap_2, list_elem_of_filter. split; [| done].
      intros Heq. by rewrite Heq in Hk. }
    exists w'. split_and!; try done; try congruence.
    + simpl. unfold bind at 1. unfold call, bind at 1. rewrite Hrun. simpl. done.
    + rewrite Hm, Hm1, list_filter_filter. apply list_filter_iff.
      intros x. rewrite not_elem_of_cons. tauto.
    + rewrite Ht, Ht1. simpl. lia.
    + simpl. lia.
Qed.

(** Without the invariant the loop still never raises and only deletes. *)
Lemma clear_each_evolves ids : ∀ w,
  ∃ w', for_each ids (λ pid, call (clear_memory pid)) w
        = (Return tt, w')
    ∧ evolves w w'
    ∧ last_cleanup (_stats (self w')) = last_cleanup (_stats (self w)).
Proof.
  induction ids as [|pid ids IH]; intros w.
  - exists w. split_and!; [done | apply evolves_refl | done].
  - destruct (clear_memory_evolves w pid) as (b & w1 & Hrun & Hev & Hlc).
    destruct (IH w1) as (w' & Hrun' & Hev' & Hlc').
    exists w'. split_and!; [| by eapply evolves_trans | congruence].
    simpl. unfold bind at 1. unfold call, bind at 1. by rewrite Hrun.
Qed.

Lemma _cleanup_old_entries_evolves w :
  ∃ w', _cleanup_old_entries w = (Return tt, w')
    ∧ evolves w w'
    ∧ last_cleanup (_stats (self w')) = last_cleanup (_stats (self w)).
Proof.
  unfold _cleanup_old_entries. unfold_m.
  destruct (len (_memory (self w)) <=? max_entries (self w)).
  - exists w. split_and!; [done | apply evolves_refl | done].
  - rewrite <- (for_each_fmap fst _
      (λ pid, call (clear_memory pid))).
    apply clear_each_evolves.
Qed.

Lemma clear_memory_ticks w pid :
  (ticks (clear_memory pid w).2 ≤ S (ticks w))%nat.
Proof.
  unfold clear_memory, unregister. unfold_m.
  destruct (py.get pid (_memory (self w))) as [e|]; [| simpl; lia].
  destruct (conversation_id e) as [cid|]; [destruct (py.truthy cid) |];
    simpl; try lia.
  destruct (_conversation_index (self w) !! cid) as [l|]; [| simpl; lia].
  destruct (if decide (pid ∈ l) then py.remove pid l else l); simpl; lia.
Qed.

Lemma clear_each_ticks ids : ∀ w,
  (ticks (for_each ids (λ pid, call (clear_memory pid)) w).2
   ≤ ticks w + length ids)%nat.
Proof.
  induction ids as [|pid ids IH]; intros w; [simpl; lia |].
  simpl. unfold bind at 1. unfold call, bind at 1.
  pose proof (clear_memory_ticks w pid) as Ht.
  destruct (clear_memory_evolves w pid) as (b & w1 & Hrun & _).
  rewrite Hrun in Ht |- *. simpl in *.
  eapply Nat.le_trans; [apply (IH w1) | lia].
Qed.

Lemma _cleanup_old_entries_ticks w :
  (ticks (_cleanup_old_entries w).2 ≤ ticks w + length (_memory (self w)))%nat.
Proof.
  unfold _cleanup_old_entries. unfold_m.
  destruct (len (_memory (self w)) <=? max_entries (self w)); [simpl; lia |].
  rewrite <- (for_each_fmap fst _ (λ pid, call (clear_memory pid))).
  etrans; [apply clear_each_ticks |].
  rewrite length_fmap, length_take, sorted_length. lia.
Qed.

(** Where no timestamp of the table is offset-aware, the first loop of the
    sweep returns the ids of the entries whose test succeeds. *)
Lemma expired_ids_Return cutoff_time (mem : py.dict (MemoryEntry Any float)) :
  (∀ x, x ∈ mem → fromisoformat (timestamp x.2) ≠ Some Aware) →
  expired_ids cutoff_time mem
  = Return (filter (λ x, expired cutoff_time x = Return true) mem).*1.
Proof.
  induction mem as [|x mem IH]; intros Hna; [done |].
  simpl. rewrite IH by (intros y Hy; apply Hna; by right).
  rewrite filter_cons.
  pose proof (Hna x ltac:(by left)) as Hx. unfold expired in *.
  destruct (fromisoformat (timestamp x.2)) as [[t|]|]; [| done |].
  - destruct (t <? cutoff_time); by case_decide.
  - by case_decide.
Qed.

(** An offset-aware timestamp anywhere in the table makes the first loop
    of the sweep raise [TypeError]. *)
Lemma expired_ids_Raise cutoff_time (mem : py.dict (MemoryEntry Any float)) x :
  x ∈ mem → fromisoformat (timestamp x.2) = Some Aware →
  expired_ids cutoff_time mem = Raise py.TypeError.
Proof.
  intros Hx Ha. induction mem as [|y mem IH]; [by apply elem_of_nil in Hx |].
  simpl. apply elem_of_cons in Hx as [<- | Hx].
  - unfold expired. by rewrite Ha.
  - rewrite (IH Hx). unfold expired.
    by destruct (fromisoformat (timestamp y.2)) as [[t|]|].
Qed.

(** The sweep only deletes, whether it returns or raises. *)
Lemma _cleanup_expired_entries_evolves w :
  ∃ r w', _cleanup_expired_entries w = (r, w') ∧ evolves w w'.
Proof.
  assert (evolves w {| self := self w; ticks := S (ticks w) |}) as Hev0
    by (split_and!; simpl; [done | done | done | lia]).
  unfold _cleanup_expired_entries, lift. unfold_m.
  destruct (timedelta _); [| by eexists _, _].
  destruct (datetime_sub _ _); [| by eexists _, _].
  destruct (expired_ids _ _) as [ids|]; [| by eexists _, _].
  destruct (clear_each_evolves ids {| self := self w; ticks := S (ticks w) |})
    as (w1 & Hrun & Hev & _).
  rewrite Hrun. eexists _, _. split; [done |].
  destruct Hev as (? & ? & ? & ?). simpl in *.
  split_and!; simpl; [done | done | done | lia].
Qed.

(** [_cleanup_if_needed] only deletes, whether it returns or raises. *)
Lemma _cleanup_if_needed_evolves w :
  ∃ r w', _cleanup_if_needed w = (r, w') ∧ evolves w w'.
Proof.
  unfold _cleanup_if_needed, lift. unfold_m.
  assert (∃ w1, (if len (_memory (self w)) >? max_entries (self w)
                 then _cleanup_old_entries else λ w, (Return tt, w)) w
                = (Return tt, w1) ∧ evolves w w1) as (w1 & -> & Hev1).
  { destruct (_ >? _).
    - destruct (_cleanup_old_entries_evolves w) as (w1 & ? & ? & ?); eauto.
    - eexists; split; [done | apply evolves_refl]. }
  assert (evolves w {| self := self w1; ticks := S (ticks w1) |}) as Hev2.
  { destruct Hev1 as (? & ? & ? & ?). split_and!; simpl; try done; lia. }
  destruct (fromisoformat _) as [[t|]|]; [| by eexists _, _ | by eexists _, _].
  destruct (timedelta _); [| by eexists _, _].
  destruct (_ >? _); [| by eexists _, _].
  match goal with |- context [_cleanup_expired_entries ?w0] =>
    destruct (_cleanup_expired_entries_evolves w0) as (r & w2 & -> & Hev3) end.
  eexists _, _. split; [done | by eapply evolves_trans].
Qed.

(** *** What survives retention

    A property of the object that [clear_memory] keeps and that does not
    depend on the recorded time of the last sweep is kept by retention. *)

Section Preserved.
Variable P : SharedMemory Any float → Prop.
Hypothesis P_clear_memory :
  ∀ w pid, P (self w) → P (self (clear_memory pid w).2).
Hypothesis P_last_cleanup :
  ∀ s t, P s →
    P (with_stats s
         {| total_entries := total_entries (_stats s);
            active_conversations := active_conversations (_stats s);
            last_cleanup := t;
            last_update := last_update (_stats s) |}).

Lemma clear_each_preserves ids : ∀ w,
  P (self w) → P (self (for_each ids (λ pid, call (clear_memory pid)) w).2).
Proof.
  induction ids as [|pid ids IH]; intros w HP; [done |].
  simpl. unfold bind at 1. unfold call, bind at 1.
  pose proof (P_clear_memory w pid HP) as HP1.
  destruct (clear_memory_evolves w pid) as (b & w1 & Hrun & _).
  rewrite Hrun in HP1 |- *. simpl. by apply IH.
Qed.

Lemma _cleanup_old_entries_preserves w :
  P (self w) → P (self (_cleanup_old_entries w).2).
Proof.
  intros HP. unfold _cleanup_old_entries, bind, get_self.
  destruct (len (_memory (self w)) <=? max_entries (self w)); [done |].
  rewrite <- (for_each_fmap fst _ (λ pid, call (clear_memory pid))).
  by apply clear_each_preserves.
Qed.

Lemma _cleanup_expired_entries_preserves w :
  P (self w) → P (self (_cleanup_expired_entries w).2).
Proof.
  intros HP. unfold _cleanup_expired_entries.
  unfold bind at 1, get_self. unfold bind at 1, utcnow.
  destruct (timedelta _); [| done]. unfold bind at 1, lift at 1, ret at 1.
  destruct (datetime_sub _ _); [| done]. unfold bind at 1, lift at 1, ret at 1.
  destruct (expired_ids _ _) as [ids|]; [| done].
  unfold bind at 1, lift at 1, ret at 1. unfold bind at 1.
  match goal with |- context [for_each ?ids ?body ?w0] =>
    pose proof (clear_each_preserves ids w0 HP) as HP1;
    destruct (clear_each_evolves ids w0) as (w1 & Hrun & _) end.
  rewrite Hrun in HP1 |- *. simpl in *. by apply P_last_cleanup.
Qed.

Lemma _cleanup_if_needed_preserves w :
  P (self w) → P (self (_cleanup_if_needed w).2).
Proof.
  intros HP. unfold _cleanup_if_needed.
  unfold bind at 1, get_self. unfold bind at 1.
  assert (∃ w1, (if len (_memory (self w)) >? max_entries (self w)
                 then _cleanup_old_entries else ret tt) w
                = (Return tt, w1) ∧ P (self w1)) as (w1 & -> & HP1).
  { destruct (_ >? _).
    - pose proof (_cleanup_old_entries_preserves w HP) as HP1.
      destruct (_cleanup_old_entries_evolves w) as (w1 & Hrun & _).
      rewrite Hrun in HP1. eauto.
    - by exists w. }
  unfold bind at 1, get_self.
  destruct (fromisoformat _) as [[t|]|]; [| done | done].
  unfold bind at 1, utcnow.
  destruct (timedelta _); [| done]. unfold bind at 1, lift at 1, ret at 1.
  destruct (_ >? _); [| done].
  by apply _cleanup_expired_entries_preserves.
Qed.

End Preserved.

(** The sweep returns where the sweep interval is a [timedelta], the cutoff
    is a datetime and no timestamp of the table is offset-aware. *)
Lemma _cleanup_expired_entries_returns w delta :
  timedelta (cleanup_hours (self w)) = Return delta →
  datetime_sub (utc (ticks w)) delta = Return (utc (ticks w) - delta) →
  (∀ x, x ∈ _memory (self w) → fromisoformat (timestamp x.2) ≠ Some Aware) →
  ∃ w', _cleanup_expired_entries w = (Return tt, w').
Proof.
  intros Hdelta Hcut Hna. unfold _cleanup_expired_entries, bind at 1, get_self.
  unfold bind at 1, utcnow. rewrite Hdelta.
  unfold bind at 1, lift at 1, ret at 1. rewrite Hcut.
  unfold bind at 1, lift at 1, ret at 1.
  rewrite (expired_ids_Return _ _ Hna).
  unfold bind at 1, lift at 1, ret at 1. unfold bind at 1.
  match goal with |- context [for_each ?ids ?body ?w0] =>
    destruct (clear_each_evolves ids w0) as (w1 & -> & _) end.
  by eexists.
Qed.

(** [_cleanup_if_needed] returns where the recorded time of the last sweep
    parses to a naive datetime and a sweep, if one is due, returns. *)
Lemma _cleanup_if_needed_returns w t delta :
  fromisoformat (last_cleanup (_stats (self w))) = Some (Naive t) →
  timedelta (cleanup_hours (self w)) = Return delta →
  (∀ k, (ticks w ≤ k ≤ ticks w + length (_memory (self w)) + 1)%nat →
        datetime_sub (utc k) delta = Return (utc k - delta)) →
  (∀ x, x ∈ _memory (self w) → fromisoformat (timestamp x.2) ≠ Some Aware) →
  ∃ w', _cleanup_if_needed w = (Return tt, w').
Proof.
  intros Hparse Hdelta Hcut Hna. unfold _cleanup_if_needed.
  unfold bind at 1, get_self. unfold bind at 1.
  assert (∃ w1, (if len (_memory (self w)) >? max_entries (self w)
                 then _cleanup_old_entries else ret tt) w
                = (Return tt, w1) ∧ evolves w w1
                ∧ last_cleanup (_stats (self w1)) = last_cleanup (_stats (self w))
                ∧ (ticks w1 ≤ ticks w + length (_memory (self w)))%nat)
    as (w1 & -> & Hev & Hlc & Ht).
  { destruct (_ >? _).
    - pose proof (_cleanup_old_entries_ticks w) as Ht.
      destruct (_cleanup_old_entries_evolves w) as (w1 & Hrun & ? & ?).
      rewrite Hrun in Ht. eauto.
    - exists w. split_and!; [done | apply evolves_refl | done | lia]. }
  destruct Hev as (Hsub & _ & Hh & Hle).
  unfold bind at 1, get_self. rewrite Hlc, Hparse.
  unfold bind at 1, utcnow. rewrite Hh, Hdelta.
  unfold bind at 1, lift at 1, ret at 1.
  destruct (_ >? _); [| by eexists].
  apply (_cleanup_expired_entries_returns _ delta); simpl.
  - by rewrite Hh.
  - apply Hcut. lia.
  - intros x Hx. apply Hna. by eapply elem_of_sublist.
Qed.

End StoreFacts.

Section RetentionFacts.
Context {Any float : Type} {clock : Clock}.
Implicit Types (w : World Any float) (s : SharedMemory Any float)
  (e : MemoryEntry Any float) (pid cid : string).

Lemma victims_length s :
  len (_memory s) > max_entries s →
  len (victims s) = Z.min (len (_memory s) - max_entries s + 100) (len (_memory s)).
Proof.
  intros Hgt. unfold victims, len in *.
  rewrite length_take, sorted_length. lia.
Qed.

Lemma victims_sublist s :
  sublist (victims s) (py.sorted (λ x, timestamp x.2) (_memory s)).
Proof. apply sublist_take. Qed.

Lemma victims_elem s x : x ∈ victims s → x ∈ _memory s.
Proof.
  intros Hx. rewrite <- (sorted_perm (λ x, timestamp x.2)).
  eapply elem_of_sublist; [done | apply victims_sublist].
Qed.

Lemma victims_NoDup s : NoDup (_memory s).*1 → NoDup (victims s).*1.
Proof.
  intros Hnd. eapply sublist_keys_NoDup; [apply victims_sublist |].
  by rewrite (sorted_perm (λ x, timestamp x.2)).
Qed.

(** Every victim is at least as old as every entry that is kept. *)
Lemma victims_oldest s x y :
  NoDup (_memory s).*1 →
  x ∈ victims s → y ∈ _memory s → y.1 ∉ (victims s).*1 →
  py.str_le (timestamp x.2) (timestamp y.2).
Proof.
  intros Hnd Hx Hy Hny.
  apply (sorted_take_le (λ x, timestamp x.2)
           (Z.to_nat (Z.min (len (_memory s) - max_entries s + 100)
                            (len (py.sorted (λ x, timestamp x.2) (_memory s)))))
           (_memory s)); [done |].
  rewrite <- (sorted_perm (λ x, timestamp x.2)) in Hy.
  rewrite <- (take_drop
    (Z.to_nat (Z.min (len (_memory s) - max_entries s + 100)
                     (len (py.sorted (λ x, timestamp x.2) (_memory s)))))) in Hy.
  apply elem_of_app in Hy as [Hy | Hy]; [| done].
  exfalso. apply Hny. by apply list_elem_of_fmap_2.
Qed.

(** An entry of the table is dropped by the filter on the keys of the
    victims exactly when it is a victim. *)
Lemma kept_or_victim s x :
  NoDup (_memory s).*1 → x ∈ _memory s →
  x ∉ filter (λ x, x.1 ∉ (victims s).*1) (_memory s) ↔ x ∈ victims s.
Proof.
  intros Hnd Hx. destruct x as [k v]. rewrite list_elem_of_filter. simpl.
  split.
  - intros Hn. destruct (decide (k ∈ (victims s).*1)) as [Hk | Hk];
      [| exfalso; by apply Hn].
    apply list_elem_of_fmap in Hk as ([k' v'] & Hkk & Hv). simpl in Hkk.
    subst k'. pose proof (victims_elem _ _ Hv) as Hv'.
    apply (elem_get_Some _ _ _ Hnd) in Hx, Hv'.
    by replace v with v' by congruence.
  - intros Hv [Hn _]. apply Hn. by apply (list_elem_of_fmap_2 fst _ (k, v)).
Qed.

(** Every entry dropped by that filter is at least as old as every entry
    it keeps. *)
Lemma evicted_before_kept s x y :
  NoDup (_memory s).*1 → x ∈ _memory s →
  x ∉ filter (λ x, x.1 ∉ (victims s).*1) (_memory s) →
  y ∈ filter (λ x, x.1 ∉ (victims s).*1) (_memory s) →
  py.str_le (timestamp x.2) (timestamp y.2).
Proof.
  intros Hnd Hx Hnx Hy. apply list_elem_of_filter in Hy as [Hyk Hy].
  apply (victims_oldest s); [done | | done | done].
  by apply kept_or_victim.
Qed.

(** [_cleanup_old_entries] over capacity: exactly the victims go. *)
Lemma _cleanup_old_entries_run w :
  store_ok (self w) →
  len (_memory (self w)) > max_entries (self w) →
  ∃ w', _cleanup_old_entries w = (Return tt, w')
    ∧ _memory (self w') =
      filter (λ x, x.1 ∉ (victims (self w)).*1) (_memory (self w))
    ∧ store_ok (self w')
    ∧ ticks w' = (ticks w + length (victims (self w)))%nat
    ∧ max_entries (self w') = max_entries (self w)
    ∧ cleanup_hours (self w') = cleanup_hours (self w)
    ∧ last_cleanup (_stats (self w')) = last_cleanup (_stats (self w))
    ∧ len (_memory (self w')) = Z.max 0 (max_entries (self w) - 100).
Proof.
  intros Hok Hgt.
  destruct (clear_each_run (victims (self w)).*1 w Hok)
    as (w' & Hrun & Hm & Hok' & Ht & Hmax & Hh & Hlc & Hlen).
  { apply victims_NoDup, Hok. }
  { intros k (x & -> & Hx)%list_elem_of_fmap.
    by apply list_elem_of_fmap_2, victims_elem. }
  exists w'. rewrite length_fmap in Ht, Hlen.
  split_and!; try done.
  - rewrite for_each_fmap in Hrun.
    unfold _cleanup_old_entries, bind at 1, get_self.
    replace (len (_memory (self w)) <=? max_entries (self w)) with false
      by (symmetry; apply Z.leb_gt; lia).
    apply Hrun.
  - pose proof (victims_length (self w) Hgt) as Hv. unfold len in *. lia.
Qed.

(** [_cleanup_expired_entries], where the sweep interval is a [timedelta],
    the cutoff is a datetime and no timestamp of the table is offset-aware:
    exactly the expired entries go, and the time of the last sweep is set
    afterwards. *)
Lemma _cleanup_expired_entries_run w delta cutoff_time :
  store_ok (self w) →
  timedelta (cleanup_hours (self w)) = Return delta →
  datetime_sub (utc (ticks w)) delta = Return cutoff_time →
  (∀ x, x ∈ _memory (self w) → fromisoformat (timestamp x.2) ≠ Some Aware) →
  let gone :=
    filter (λ x, expired cutoff_time x = Return true) (_memory (self w)) in
  ∃ w', _cleanup_expired_entries w = (Return tt, w')
    ∧ _memory (self w') =
      filter (λ x, expired cutoff_time x ≠ Return true) (_memory (self w))
    ∧ store_ok (self w')
    ∧ ticks w' = S (S (ticks w + length gone))
    ∧ max_entries (self w') = max_entries (self w)
    ∧ cleanup_hours (self w') = cleanup_hours (self w)
    ∧ last_cleanup (_stats (self w')) =
      isoformat (utc (S (ticks w + length gone))).
Proof.
  intros Hok Hdelta Hcut Hna gone.
  destruct (clear_each_run gone.*1 {| self := self w; ticks := S (ticks w) |} Hok)
    as (w1 & Hrun & Hm & Hok1 & Ht & Hmax & Hh & Hlc & Hlen).
  { eapply sublist_keys_NoDup; [apply sublist_filter | apply Hok]. }
  { intros k (x & -> & Hx)%list_elem_of_fmap. simpl.
    apply list_elem_of_fmap_2. by apply list_elem_of_filter in Hx as [_ ?]. }
  simpl in *. rewrite length_fmap in Ht.
  unfold _cleanup_expired_entries, bind at 1, get_self.
  unfold bind at 1, utcnow. rewrite Hdelta. unfold bind at 1, lift at 1, ret at 1.
  rewrite Hcut. unfold bind at 1, lift at 1, ret at 1.
  rewrite (expired_ids_Return cutoff_time _ Hna).
  unfold bind at 1, lift at 1, ret at 1. unfold bind at 1.
  fold gone. rewrite Hrun.
  eexists. split; [reflexivity |]. simpl.
  split_and!; try done.
  - rewrite Hm. apply filter_ext_elem. intros [k v] Hkv. simpl.
    split.
    + intros Hn Hexp. apply Hn.
      apply (list_elem_of_fmap_2 fst _ (k, v)), list_elem_of_filter. done.
    + intros Hn (x & Hk & Hx)%list_elem_of_fmap.
      apply list_elem_of_filter in Hx as [Hexp Hx].
      apply Hn. replace (k, v) with x; [done |].
      destruct x as [k' v']. simpl in Hk. subst k'.
      f_equal. pose proof (elem_get_Some _ _ _ (proj1 Hok) Hkv).
      pose proof (elem_get_Some _ _ _ (proj1 Hok) Hx). congruence.
  - rewrite Ht. by f_equal.
  - by rewrite Ht.
Qed.

(** An offset-aware timestamp in the table makes the sweep raise and leave
    the object as it was, whatever else the table holds. *)
Lemma _cleanup_expired_entries_raises w x :
  x ∈ _memory (self w) → fromisoformat (timestamp x.2) = Some Aware →
  ∃ err, _cleanup_expired_entries w
         = (Raise err, {| self := self w; ticks := S (ticks w) |}).
Proof.
  intros Hx Ha. unfold _cleanup_expired_entries, bind at 1, get_self.
  unfold bind at 1, utcnow.
  destruct (timedelta _) as [delta | err]; [| by exists err].
  unfold bind at 1, lift at 1, ret at 1.
  destruct (datetime_sub _ _) as [cutoff_time | err]; [| by exists err].
  unfold bind at 1, lift at 1, ret at 1.
  rewrite (expired_ids_Raise cutoff_time _ x Hx Ha). by exists py.TypeError.
Qed.

End RetentionFacts.

Section WriterFacts.
Context {Any float : Type} {clock : Clock}.
Implicit Types (w : World Any float) (s : SharedMemory Any float)
  (e : MemoryEntry Any float) (pid cid : string).

Lemma upsert_run pid create update w :
  upsert pid create update w =
  (Return tt,
   {| self := with_memory (self w)
        (py.set_item pid
           match py.get pid (_memory (self w)) with
           | None => create (isoformat (utc (ticks w)))
           | Some e => update e
           end
           (_memory (self w)));
      ticks := match py.get pid (_memory (self w)) with
               | None => S (ticks w)
               | Some _ => ticks w
               end |}).
Proof.
  unfold upsert, bind, get_self, utcnow, put_self.
  by destruct (py.get pid (_memory (self w))).
Qed.

(** [store_classification] always succeeds and only touches its entry. *)
Lemma store_classification_run pid c w :
  ∃ w', store_classification pid c w = (Return true, w')
    ∧ _memory (self w') =
      py.set_item pid
        match py.get pid (_memory (self w)) with
        | None =>
            {| processing_id := pid;
               timestamp := isoformat (utc (ticks w));
               metadata := ∅; classification := Some c;
               extracted_data := None; conversation_id := None;
               agent_history := ["classification_stored"] |}
        | Some e =>
            {| processing_id := processing_id e; timestamp := timestamp e;
               metadata := metadata e; classification := Some c;
               extracted_data := extracted_data e;
               conversation_id := conversation_id e;
               agent_history := agent_history e ++ ["classification_stored"] |}
        end
        (_memory (self w))
    ∧ _conversation_index (self w') = _conversation_index (self w)
    ∧ max_entries (self w') = max_entries (self w)
    ∧ cleanup_hours (self w') = cleanup_hours (self w).
Proof.
  unfold store_classification, try_except, bind. rewrite upsert_run.
  eexists. split; [reflexivity |]. done.
Qed.

(** [store_extracted_data] always succeeds and only touches its entry. *)
Lemma store_extracted_data_run pid d w :
  ∃ w', store_extracted_data pid d w = (Return true, w')
    ∧ _memory (self w') =
      py.set_item pid
        match py.get pid (_memory (self w)) with
        | None =>
            {| processing_id := pid;
               timestamp := isoformat (utc (ticks w));
               metadata := ∅; classification := None;
               extracted_data := Some d; conversation_id := None;
               agent_history := ["data_extracted"] |}
        | Some e =>
            {| processing_id := processing_id e; timestamp := timestamp e;
               metadata := metadata e; classification := classification e;
               extracted_data := Some d;
               conversation_id := conversation_id e;
               agent_history := agent_history e ++ ["data_extracted"] |}
        end
        (_memory (self w))
    ∧ _conversation_index (self w') = _conversation_index (self w)
    ∧ max_entries (self w') = max_entries (self w)
    ∧ cleanup_hours (self w') = cleanup_hours (self w).
Proof.
  unfold store_extracted_data, try_except, bind. rewrite upsert_run.
  eexists. split; [reflexivity |]. done.
Qed.

(** [store_conversation_id] always succeeds, touches its entry and adds the
    id to the bucket of the conversation. *)
Lemma store_conversation_id_run pid cid w :
  ∃ w', store_conversation_id pid cid w = (Return true, w')
    ∧ _memory (self w') =
      py.set_item pid
        match py.get pid (_memory (self w)) with
        | None =>
            {| processing_id := pid;
               timestamp := isoformat (utc (ticks w));
               metadata := ∅; classification := None;
               extracted_data := None; conversation_id := Some cid;
               agent_history := ["conversation_id_stored"] |}
        | Some e =>
            {| processing_id := processing_id e; timestamp := timestamp e;
               metadata := metadata e; classification := classification e;
               extracted_data := extracted_data e;
               conversation_id := Some cid;
               agent_history := agent_history e ++ ["conversation_id_stored"] |}
        end
        (_memory (self w))
    ∧ _conversation_index (self w') =
      <[cid :=
          let bucket := default [] (_conversation_index (self w) !! cid) in
          if decide (pid ∈ bucket) then bucket else bucket ++ [pid]]>
        (_conversation_index (self w))
    ∧ max_entries (self w') = max_entries (self w)
    ∧ cleanup_hours (self w') = cleanup_hours (self w).
Proof.
  unfold store_conversation_id, try_except, bind. rewrite upsert_run.
  eexists. split; [reflexivity |]. done.
Qed.

(** [store_metadata] never raises; the table it leaves is what the write
    produced, minus the entries that retention evicted. *)
Lemma store_metadata_run pid md w :
  ∃ b w', store_metadata pid md w = (Return b, w')
    ∧ sublist (_memory (self w'))
        (py.set_item pid
           match py.get pid (_memory (self w)) with
           | None =>
               {| processing_id := pid;
                  timestamp := isoformat (utc (ticks w));
                  metadata := md; classification := None;
                  extracted_data := None; conversation_id := None;
                  agent_history := ["metadata_stored"] |}
           | Some e =>
               {| processing_id := processing_id e; timestamp := timestamp e;
                  metadata := md ∪ metadata e;
                  classification := classification e;
                  extracted_data := extracted_data e;
                  conversation_id := conversation_id e;
                  agent_history := agent_history e ++ ["metadata_updated"] |}
           end
           (_memory (self w)))
    ∧ max_entries (self w') = max_entries (self w)
    ∧ cleanup_hours (self w') = cleanup_hours (self w)
    ∧ (retention_safe w → b = true).
Proof.
  unfold store_metadata, try_except, bind. rewrite upsert_run.
  match goal with |- context [_update_stats ?w0] =>
    destruct (_update_stats_run w0) as (st & -> & Hst) end.
  match goal with |- context [_cleanup_if_needed ?w0] =>
    pose proof (_cleanup_if_needed_returns w0) as Hr;
    destruct (_cleanup_if_needed_evolves w0) as (r & w' & Hrun & Hev) end.
  rewrite Hrun in Hr |- *.
  destruct Hev as (Hsub & Hmax & Hh & _). simpl in *. rewrite Hst in Hr.
  destruct r as [[]|x]; eexists _, _; (split; [reflexivity |]);
    split_and!; try done.
  intros ((t & Hparse) & (delta & Hdelta & Hcut) & Hnew & Hna).
  destruct (Hr t delta Hparse Hdelta) as (w1 & [=]).
  - intros k Hk. apply Hcut. rewrite set_item_length in Hk.
    destruct (py.get pid (_memory (self w))); lia.
  - intros y [Hy | Hy]%set_item_elem; [| by apply Hna].
    subst y. simpl. destruct (py.get pid (_memory (self w))) as [e|] eqn:Hg;
      simpl; [| done].
    apply (Hna (pid, e)). by apply get_Some_elem.
Qed.

(** X6: [store_metadata] in the quiet regime: when the table is within
    capacity after the write, the recorded time of the last sweep parses to
    a naive datetime, the sweep interval is a [timedelta] and no sweep is
    due, the call succeeds, the table has the ids it had, in their order,
    with a new id at the end, and the record of the id carries the map just
    written laid over the metadata it had, and one tag more in its
    history. *)
Lemma store_metadata_quiet pid md w t delta :
  len (_memory (self w))
    + match py.get pid (_memory (self w)) with Some _ => 0 | None => 1 end
    ≤ max_entries (self w) →
  fromisoformat (last_cleanup (_stats (self w))) = Some (Naive t) →
  timedelta (cleanup_hours (self w)) = Return delta →
  utc (ticks w
       + match py.get pid (_memory (self w)) with
         | Some _ => 1 | None => 2
         end)%nat - t
    ≤ delta →
  ∃ w' e', store_metadata pid md w = (Return true, w')
    ∧ (_memory (self w')).*1 =
      (_memory (self w)).*1
      ++ match py.get pid (_memory (self w)) with Some _ => [] | None => [pid] end
    ∧ py.get pid (_memory (self w')) = Some e'
    ∧ metadata e' = md ∪ default ∅ (get_metadata pid (self w))
    ∧ agent_history e' =
      match py.get pid (_memory (self w)) with
      | Some e => agent_history e ++ ["metadata_updated"]
      | None => ["metadata_stored"]
      end.
Proof.
  intros Hcap Hparse Hdelta Hdue.
  unfold store_metadata, try_except, bind at 1. rewrite upsert_run.
  unfold bind at 1, _update_stats, bind at 1, get_self, bind at 1, utcnow,
    put_self.
  unfold bind at 1, _cleanup_if_needed, bind at 1, get_self. simpl.
  unfold len in *. rewrite set_item_length.
  replace (Z.of_nat _ >? max_entries (self w)) with false
    by (symmetry; rewrite Z.gtb_ltb; apply Z.ltb_ge;
        destruct (py.get pid (_memory (self w))); lia).
  unfold bind at 1, ret, bind at 1, get_self. simpl. rewrite Hparse.
  unfold bind at 1, utcnow. simpl. rewrite Hdelta.
  unfold bind at 1, lift at 1, ret at 1.
  replace (_ >? delta) with false.
  - unfold ret, get_metadata. simpl.
    destruct (py.get pid (_memory (self w))) eqn:Hg;
      (eexists _, _; split; [reflexivity |]); simpl;
      rewrite set_item_keys, get_set_item_eq, Hg,
        ?app_nil_r, ?(right_id_L ∅ (∪)); by split_and!.
  - symmetry. rewrite Z.gtb_ltb. apply Z.ltb_ge.
    destruct (py.get pid (_memory (self w)));
      [replace (S (ticks w)) with (ticks w + 1)%nat by lia
      | replace (S (S (ticks w))) with (ticks w + 2)%nat by lia]; done.
Qed.

End WriterFacts.

Section InvariantFacts.
Context {Any float : Type} {clock : Clock}.
Implicit Types (w : World Any float) (s : SharedMemory Any float)
  (e : MemoryEntry Any float) (pid cid : string).

Lemma store_ok_init max_entries cleanup_hours t0 :
  store_ok (self (__init__ (Any:=Any) (float:=float) max_entries cleanup_hours t0)).
Proof. split; [constructor | by intros ? ? ? ?]. Qed.

(** Writing an entry whose conversation, if any, lists it keeps the
    invariant. *)
Lemma set_item_ok s s' pid e' :
  store_ok s →
  _memory s' = py.set_item pid e' (_memory s) →
  (∀ cid bucket, _conversation_index s !! cid = Some bucket →
     ∃ bucket', _conversation_index s' !! cid = Some bucket' ∧ bucket ⊆ bucket') →
  (∀ cid, conversation_id e' = Some cid → cid ≠ EmptyString →
     ∃ bucket, _conversation_index s' !! cid = Some bucket ∧ pid ∈ bucket) →
  store_ok s'.
Proof.
  intros [Hnd Hcov] Hm Hidx He'. split.
  - rewrite Hm. by apply set_item_NoDup.
  - intros p e c Hp Hc Hne. rewrite Hm in Hp.
    destruct (decide (pid = p)) as [-> | Hpp].
    + rewrite get_set_item_eq in Hp. injection Hp as ->. eauto.
    + rewrite get_set_item_ne in Hp by done.
      destruct (Hcov p e c Hp Hc Hne) as (b & Hb & Hin).
      destruct (Hidx c b Hb) as (b' & Hb' & Hsub). eauto.
Qed.

Lemma store_classification_ok pid c w :
  store_ok (self w) → store_ok (self (store_classification pid c w).2).
Proof.
  intros Hok. unfold store_classification, try_except, bind.
  rewrite upsert_run. simpl.
  eapply set_item_ok; [done | reflexivity | simpl; eauto | simpl].
  destruct (py.get pid (_memory (self w))) as [e|] eqn:Hg; simpl; [| done].
  intros cid Hc Hne. by apply (proj2 Hok pid e cid).
Qed.

Lemma store_extracted_data_ok pid d w :
  store_ok (self w) → store_ok (self (store_extracted_data pid d w).2).
Proof.
  intros Hok. unfold store_extracted_data, try_except, bind.
  rewrite upsert_run. simpl.
  eapply set_item_ok; [done | reflexivity | simpl; eauto | simpl].
  destruct (py.get pid (_memory (self w))) as [e|] eqn:Hg; simpl; [| done].
  intros cid Hc Hne. by apply (proj2 Hok pid e cid).
Qed.

Lemma store_conversation_id_ok pid cid w :
  store_ok (self w) → store_ok (self (store_conversation_id pid cid w).2).
Proof.
  intros Hok. unfold store_conversation_id, try_except, bind.
  rewrite upsert_run. simpl.
  eapply set_item_ok; [done | reflexivity | simpl | simpl].
  - intros c b Hb. destruct (decide (cid = c)) as [-> | Hne].
    + rewrite lookup_insert_eq, Hb. simpl.
      eexists. split; [done |]. case_decide; set_solver.
    + rewrite lookup_insert_ne by done. eauto.
  - intros c Hc _.
    assert (c = cid) as ->
      by (destruct (py.get pid (_memory (self w))); simpl in Hc; congruence).
    rewrite lookup_insert_eq. eexists. split; [done |].
    case_decide; [done | set_solver].
Qed.

(** Retention keeps the invariant and, over capacity, brings the table down
    to [max(0, max_entries - 100)] entries or fewer. *)
Lemma _cleanup_if_needed_ok w :
  store_ok (self w) →
  ∃ r w', _cleanup_if_needed w = (r, w')
    ∧ evolves w w'
    ∧ store_ok (self w')
    ∧ (len (_memory (self w)) > max_entries (self w) →
       len (_memory (self w')) ≤ Z.max 0 (max_entries (self w) - 100)).
Proof.
  intros Hok. unfold _cleanup_if_needed.
  unfold bind at 1, get_self. unfold bind at 1.
  assert (∃ w1, (if len (_memory (self w)) >? max_entries (self w)
                 then _cleanup_old_entries else ret tt) w
                = (Return tt, w1) ∧ evolves w w1 ∧ store_ok (self w1)
          ∧ (len (_memory (self w)) > max_entries (self w) →
             len (_memory (self w1)) ≤ Z.max 0 (max_entries (self w) - 100)))
    as (w1 & -> & Hev1 & Hok1 & Hlen1).
  { destruct (Z.gtb_spec (len (_memory (self w))) (max_entries (self w)))
      as [Hgt | Hle].
    - destruct (_cleanup_old_entries_evolves w) as (w1 & Hrun & Hev & _).
      destruct (_cleanup_old_entries_run w Hok) as (w1' & Hrun' & _ & ? & _ & _ & _ & _ & Hl);
        [lia |].
      assert (w1' = w1) as -> by congruence.
      exists w1. split_and!; try done. intros _. lia.
    - exists w. split_and!; [done | apply evolves_refl | done | lia]. }
  unfold bind at 1, get_self.
  assert (∀ w2, evolves w1 w2 →
    len (_memory (self w)) > max_entries (self w) →
    len (_memory (self w2)) ≤ Z.max 0 (max_entries (self w) - 100)) as Hbound.
  { intros w2 (Hsub & _) Hgt. apply sublist_length in Hsub.
    specialize (Hlen1 Hgt). unfold len in *. lia. }
  assert (evolves w1 {| self := self w1; ticks := S (ticks w1) |}) as Hev2.
  { split_and!; simpl; try done. lia. }
  destruct (fromisoformat _) as [[t|]|].
  - unfold bind at 1, utcnow.
    destruct (timedelta _).
    + unfold bind at 1, lift at 1, ret at 1. destruct (_ >? _).
      * pose proof (_cleanup_expired_entries_preserves store_ok
          clear_memory_ok ltac:(done)
          {| self := self w1; ticks := S (ticks w1) |} Hok1) as Hok2.
        destruct (_cleanup_expired_entries_evolves
          {| self := self w1; ticks := S (ticks w1) |}) as (r & w2 & Hrun & Hev3).
        rewrite Hrun in Hok2 |- *. eexists _, _. split; [done |].
        assert (evolves w1 w2) by (by eapply evolves_trans).
        split_and!; [by eapply evolves_trans | done | by apply Hbound].
      * eexists _, _. split; [done |].
        split_and!; [by eapply evolves_trans | done | by apply Hbound].
    + eexists _, _. split; [done |].
      split_and!; [by eapply evolves_trans | done | by apply Hbound].
  - eexists _, _. split; [done |].
    split_and!; [by eapply evolves_trans | done | by apply Hbound].
  - eexists _, _. split; [done |].
    split_and!; [done | done | apply Hbound, evolves_refl].
Qed.

Lemma store_metadata_ok pid md w :
  store_ok (self w) → store_ok (self (store_metadata pid md w).2).
Proof.
  intros Hok. unfold store_metadata, try_except, bind.
  rewrite upsert_run.
  match goal with |- context [_update_stats ?w0] =>
    destruct (_update_stats_run w0) as (st & -> & _) end.
  match goal with |- context [_cleanup_if_needed ?w0] =>
    destruct (_cleanup_if_needed_ok w0) as (r & w' & -> & _ & Hok' & _) end.
  { eapply set_item_ok; [done | reflexivity | simpl; eauto | simpl].
    destruct (py.get pid (_memory (self w))) as [e|] eqn:Hg; simpl; [| done].
    intros cid Hc Hne. by apply (proj2 Hok pid e cid). }
  by destruct r.
Qed.

(** X4: after [store_metadata] the table is within capacity.  On an object
    that satisfies its representation invariant and whose [max_entries] is
    not negative, the table that a [store_metadata] leaves holds
    [max_entries] entries at most, whatever it held before: the retention
    run that ends the call brings an over-full table down.  The other three
    writers give no such bound. *)
Lemma store_metadata_bounded pid md w :
  store_ok (self w) → 0 ≤ max_entries (self w) →
  len (_memory (self (store_metadata pid md w).2)) ≤ max_entries (self w).
Proof.
  intros Hok Hmax. unfold store_metadata, try_except, bind.
  rewrite upsert_run.
  match goal with |- context [_update_stats ?w0] =>
    destruct (_update_stats_run w0) as (st & -> & _) end.
  match goal with |- context [_cleanup_if_needed ?w0] =>
    destruct (_cleanup_if_needed_ok w0) as (r & w' & -> & Hev & _ & Hlen) end.
  { eapply set_item_ok; [done | reflexivity | simpl; eauto | simpl].
    destruct (py.get pid (_memory (self w))) as [e|] eqn:Hg; simpl; [| done].
    intros cid Hc Hne. by apply (proj2 Hok pid e cid). }
  destruct Hev as (Hsub & _). apply sublist_length in Hsub. simpl in *.
  assert (len (_memory (self w')) ≤ max_entries (self w)).
  { match type of Hlen with (?a > _ → _) =>
      destruct (Z.le_gt_cases a (max_entries (self w))) as [Hle | Hgt] end.
    - unfold len in *. lia.
    - specialize (Hlen ltac:(lia)). lia. }
  by destruct r.
Qed.

Lemma clear_all_memory_ok w : store_ok (self (clear_all_memory w).2).
Proof. split; [constructor | by intros ? ? ? ?]. Qed.

(** The representation invariant holds in every world that the methods
    reach. *)
Lemma reachable_ok w : reachable w → store_ok (self w).
Proof.
  induction 1.
  - apply store_ok_init.
  - by apply store_metadata_ok.
  - by apply store_classification_ok.
  - by apply store_extracted_data_ok.
  - by apply store_conversation_id_ok.
  - by apply clear_memory_ok.
  - apply clear_all_memory_ok.
  - done.
Qed.

End InvariantFacts.

Section IndexFacts.
Context {Any float : Type} {clock : Clock}.
Implicit Types (w : World Any float) (s : SharedMemory Any float)
  (e : MemoryEntry Any float) (pid cid : string).

Lemma index_exact_consistent s : index_exact s → index_consistent s.
Proof.
  intros (_ & _ & Hb) cid bucket Hl. destruct (Hb cid bucket Hl) as (? & _ & Hin).
  split; [done |]. intros pid Hp. destruct (Hin pid Hp) as (e & -> & _). done.
Qed.

Lemma remove_NoDup (x : string) (l : list string) :
  NoDup l →
  NoDup (py.remove x l) ∧ (x ∉ py.remove x l)
  ∧ ∀ y, y ∈ py.remove x l → y ∈ l.
Proof.
  induction l as [|z l IH]; simpl; intros Hnd.
  - split_and!; [done | apply not_elem_of_nil | done].
  - apply NoDup_cons in Hnd as [Hz Hnd]. case_decide; subst.
    + split_and!; [done | done | intros y Hy; by right].
    + destruct (IH Hnd) as (Hnd' & Hx & Hsub). split_and!.
      * apply NoDup_cons. split; [| done]. intros Hin. by apply Hz, Hsub.
      * apply not_elem_of_cons. split; [congruence | done].
      * intros y [-> | Hy]%elem_of_cons; [left | right; by apply Hsub].
Qed.

Lemma clear_memory_exact pid w :
  index_exact (self w) → index_exact (self (clear_memory pid w).2).
Proof.
  intros (Hok & Hne & Hb).
  pose proof (clear_memory_ok w pid Hok) as Hok'.
  destruct (py.get pid (_memory (self w))) as [e|] eqn:Hg;
    [| by rewrite clear_memory_unknown].
  destruct (clear_memory_known w pid e (proj2 Hok) Hg)
    as (w' & Hrun & Hm & _ & _ & _ & _ & Hfalsy & Htruthy).
  rewrite Hrun in Hok' |- *. simpl in *.
  assert (∀ p e', p ≠ pid → py.get p (_memory (self w)) = Some e' →
                  py.get p (_memory (self w')) = Some e') as Hkeep.
  { intros p e' Hp Hp'. by rewrite Hm, get_del_item_ne. }
  split_and!; [done | |].
  - intros p e' Hp. rewrite Hm in Hp.
    destruct (decide (p = pid)) as [-> | Hpp];
      [by rewrite get_del_item_eq in Hp by apply Hok |].
    rewrite get_del_item_ne in Hp by done. by eapply Hne.
  - intros cid bucket Hl.
    destruct (conversation_id e) as [c|] eqn:Hc.
    + assert (c ≠ EmptyString) as Hcne by (intros ->; by eapply Hne).
      destruct (Htruthy c eq_refl Hcne) as (b & Hbk & Hpid & Hidx).
      destruct (Hb c b Hbk) as (_ & Hndb & Hinb).
      destruct (remove_NoDup pid b Hndb) as (Hnd' & Hnotin & Hsub).
      rewrite Hidx in Hl.
      assert (∀ p, p ∈ py.remove pid b →
        ∃ e', py.get p (_memory (self w')) = Some e'
              ∧ conversation_id e' = Some c) as Hmem.
      { intros p Hp. destruct (Hinb p (Hsub p Hp)) as (e' & He' & Hc').
        exists e'. split; [| done]. apply Hkeep; [| done].
        intros ->. done. }
      destruct (decide (cid = c)) as [-> | Hcc].
      * destruct (py.remove pid b) as [|x l] eqn:Hr;
          [by rewrite lookup_delete_eq in Hl |].
        rewrite lookup_insert_eq in Hl. injection Hl as <-. done.
      * assert (_conversation_index (self w) !! cid = Some bucket) as Hl'.
        { destruct (py.remove pid b);
            [by rewrite lookup_delete_ne in Hl
            | by rewrite lookup_insert_ne in Hl]. }
        destruct (Hb cid bucket Hl') as (? & ? & Hin). split_and!; [done | done |].
        intros p Hp. destruct (Hin p Hp) as (e' & He' & Hc').
        exists e'. split; [| done]. apply Hkeep; [| done].
        intros ->. congruence.
    + rewrite Hfalsy in Hl by (by left).
      destruct (Hb cid bucket Hl) as (? & ? & Hin). split_and!; [done | done |].
      intros p Hp. destruct (Hin p Hp) as (e' & He' & Hc').
      exists e'. split; [| done]. apply Hkeep; [| done].
      intros ->. congruence.
Qed.

Lemma store_conversation_id_exact pid cid w :
  index_exact (self w) → settled (Register pid cid) (self w) →
  index_exact (self (store_conversation_id pid cid w).2).
Proof.
  intros (Hok & Hne & Hb) [Hcid Hold].
  pose proof (store_conversation_id_ok pid cid w Hok) as Hok'.
  destruct (store_conversation_id_run pid cid w)
    as (w' & Hrun & Hm & Hidx & _).
  rewrite Hrun in Hok' |- *. simpl in *.
  split_and!; [done | |].
  - intros p e' Hp. rewrite Hm in Hp.
    destruct (decide (pid = p)) as [-> | Hpp].
    + rewrite get_set_item_eq in Hp. injection Hp as <-.
      destruct (py.get p (_memory (self w))); simpl; congruence.
    + rewrite get_set_item_ne in Hp by done. by eapply Hne.
  - intros c bucket Hl. rewrite Hidx in Hl.
    assert (∃ e', py.get pid (_memory (self w')) = Some e'
                  ∧ conversation_id e' = Some cid) as Hnew.
    { rewrite Hm, get_set_item_eq. eexists. split; [done |].
      by destruct (py.get pid (_memory (self w))). }
    destruct (decide (cid = c)) as [<- | Hcc].
    + rewrite lookup_insert_eq in Hl. injection Hl as <-.
      destruct (_conversation_index (self w) !! cid) as [b|] eqn:Hbk; simpl.
      * destruct (Hb cid b Hbk) as (Hbne & Hnd & Hin).
        assert (∀ p, p ∈ b → ∃ e', py.get p (_memory (self w')) = Some e'
                                   ∧ conversation_id e' = Some cid) as Hmem.
        { intros p Hp. destruct (decide (p = pid)) as [-> | Hpp]; [done |].
          destruct (Hin p Hp) as (e' & He' & Hc'). exists e'.
          by rewrite Hm, get_set_item_ne. }
        destruct (decide (pid ∈ b)) as [Hpin | Hpin];
          [split_and!; [done | done | apply Hmem] |]. split_and!.
        -- by destruct b.
        -- apply NoDup_app. split_and!; [done | | apply NoDup_singleton].
           intros x Hx ->%list_elem_of_singleton. done.
        -- intros p [Hp | ->%list_elem_of_singleton]%elem_of_app; auto.
      * split_and!.
        -- done.
        -- apply NoDup_singleton.
        -- by intros p ->%list_elem_of_singleton.
    + rewrite lookup_insert_ne in Hl by done.
      destruct (Hb c bucket Hl) as (? & ? & Hin). split_and!; [done | done |].
      intros p Hp. destruct (Hin p Hp) as (e' & He' & Hc'). exists e'.
      split; [| done]. rewrite Hm, get_set_item_ne; [done |].
      intros <-. destruct (Hold e' He') as [? | ?]; congruence.
Qed.

(** X5: index consistency holds after every sequence of
    [store_conversation_id] and [clear_memory] in which no call moves a
    record to another conversation and no conversation id is empty, from a
    new store or from any store whose index lists exactly the records of
    each conversation: every id in a bucket then has a live record, and no
    bucket is empty. *)
Lemma settled_calls_consistent cs : ∀ w,
  index_exact (self w) → all_settled cs w →
  index_consistent (self (foldl (λ w c, (index_step c w).2) w cs)).
Proof.
  induction cs as [|c cs IH]; intros w Hex Hs.
  - by apply index_exact_consistent.
  - destruct Hs as [Hc Hs]. simpl. apply IH; [| done].
    destruct c as [pid cid | pid]; simpl.
    + by apply store_conversation_id_exact.
    + by apply clear_memory_exact.
Qed.

Lemma index_exact_init max_entries cleanup_hours t0 :
  index_exact (self (__init__ (Any:=Any) (float:=float) max_entries cleanup_hours t0)).
Proof.
  split_and!; [apply store_ok_init | done |].
  intros cid bucket Hl. simpl in Hl. by rewrite lookup_empty in Hl.
Qed.

End IndexFacts.

(** * The properties of the store *)

Section Claims.
Context {Any float : Type} {clock : Clock}.
Implicit Types (w : World Any float) (s : SharedMemory Any float)
  (e : MemoryEntry Any float) (pid cid : string).

(** ** Reading a conversation *)

Lemma collect_skip (mem : py.dict (MemoryEntry Any float)) (l : list string) :
  collect mem l = collect mem (filter (λ pid, py.get pid mem ≠ None) l).
Proof.
  induction l as [|pid l IH]; [done |].
  rewrite filter_cons. simpl.
  destruct (py.get pid mem) as [e|] eqn:Hg.
  - rewrite decide_True by done. simpl. rewrite Hg, IH. done.
  - rewrite decide_False by (intros Hn; by apply Hn). done.
Qed.

Lemma collect_elems (mem : py.dict (MemoryEntry Any float)) (l : list string) h :
  collect mem l = Return h →
  ∀ r, r ∈ h ↔ ∃ pid, pid ∈ l ∧ py.get pid mem = Some r.
Proof.
  revert h. induction l as [|pid l IH]; simpl; intros h Hc r.
  - injection Hc as <-. split; [by intros ?%elem_of_nil |].
    by intros (? & ?%elem_of_nil & _).
  - destruct (py.get pid mem) as [e|] eqn:Hg.
    + unfold _serialize_entry in Hc.
      destruct (classification e); [done |].
      destruct (collect mem l) as [h'|]; [| done].
      injection Hc as <-. rewrite elem_of_cons, (IH h' eq_refl). split.
      * intros [-> | (p & Hp & Hr)]; [exists pid | exists p];
          (split; [| done]); [left | by right].
      * intros (p & [-> | Hp]%elem_of_cons & Hr); [left; congruence | right; eauto].
    + rewrite (IH h Hc). split.
      * intros (p & Hp & Hr). exists p. split; [by right | done].
      * intros (p & [-> | Hp]%elem_of_cons & Hr); [congruence | eauto].
Qed.

Lemma collect_total (mem : py.dict (MemoryEntry Any float)) (l : list string) :
  (∀ pid e, pid ∈ l → py.get pid mem = Some e → classification e = None) →
  ∃ h, collect mem l = Return h.
Proof.
  induction l as [|pid l IH]; simpl; intros Hl; [by eexists |].
  destruct IH as [h Hh]; [intros p e Hp; apply Hl; by right |].
  rewrite Hh. destruct (py.get pid mem) as [e|] eqn:Hg; [| by eexists].
  unfold _serialize_entry. rewrite (Hl pid e) by (done || left). by eexists.
Qed.


(** ** Retention *)

(** The age sweep where it runs to its end.  On a store that satisfies its
    representation invariant, when the sweep interval is a [timedelta], the
    cutoff [now - timedelta(hours=cleanup_hours)] is a datetime and no
    timestamp of the table is offset-aware, [_cleanup_expired_entries]
    returns and leaves exactly the entries that are not expired against the
    cutoff, whatever the size of the table: an entry whose timestamp parses
    to a time before the cutoff is gone, an entry whose timestamp does not
    parse is gone, an entry whose timestamp parses to the cutoff or later
    is kept unchanged; and the time of the last sweep is set to a reading
    of the clock taken after the sweep, whether or not anything was
    evicted. *)
Lemma cleanup_expired_entries_in_range w delta cutoff_time :
  store_ok (self w) →
  timedelta (cleanup_hours (self w)) = Return delta →
  datetime_sub (utc (ticks w)) delta = Return cutoff_time →
  (∀ x, x ∈ _memory (self w) → fromisoformat (timestamp x.2) ≠ Some Aware) →
  let gone :=
    filter (λ x, expired cutoff_time x = Return true) (_memory (self w)) in
  ∃ w', _cleanup_expired_entries w = (Return tt, w')
    ∧ _memory (self w') =
      filter (λ x, expired cutoff_time x ≠ Return true) (_memory (self w))
    ∧ (∀ pid e t, py.get pid (_memory (self w)) = Some e →
         fromisoformat (timestamp e) = Some (Naive t) → t < cutoff_time →
         py.get pid (_memory (self w')) = None)
    ∧ (∀ pid e, py.get pid (_memory (self w)) = Some e →
         fromisoformat (timestamp e) = None →
         py.get pid (_memory (self w')) = None)
    ∧ (∀ pid e t, py.get pid (_memory (self w)) = Some e →
         fromisoformat (timestamp e) = Some (Naive t) → cutoff_time ≤ t →
         py.get pid (_memory (self w')) = Some e)
    ∧ last_cleanup (_stats (self w')) =
      isoformat (utc (S (ticks w + length gone)))
    ∧ ticks w' = S (S (ticks w + length gone)).
Proof.
  intros Hok Hdelta Hcut Hna gone.
  destruct (_cleanup_expired_entries_run w delta cutoff_time Hok Hdelta Hcut Hna)
    as (w' & Hrun & Hm & _ & Ht & _ & _ & Hlc).
  exists w'. fold gone in Ht, Hlc.
  assert (∀ pid e, py.get pid (_memory (self w)) = Some e →
    py.get pid (_memory (self w')) =
    if decide (expired cutoff_time (pid, e) = Return true) then None else Some e)
    as Hget.
  { intros pid e Hg. rewrite Hm.
    destruct (py.get pid (filter _ (_memory (self w)))) as [e'|] eqn:Hg'.
    - apply get_Some_elem, list_elem_of_filter in Hg' as [Hexp Hin].
      apply (elem_get_Some _ _ _ (proj1 Hok)) in Hin.
      assert (e' = e) as -> by congruence. by rewrite decide_False.
    - case_decide as Hexp; [done |]. exfalso.
      apply get_None in Hg'. apply Hg'.
      apply (list_elem_of_fmap_2 fst _ (pid, e)), list_elem_of_filter.
      split; [done | by apply get_Some_elem]. }
  split_and!; try done.
  - intros pid e t Hg Hp Hlt. rewrite (Hget pid e Hg).
    rewrite decide_True; [done |]. unfold expired. simpl. rewrite Hp.
    f_equal. by apply Z.ltb_lt.
  - intros pid e Hg Hp. rewrite (Hget pid e Hg).
    rewrite decide_True; [done |]. unfold expired. simpl. by rewrite Hp.
  - intros pid e t Hg Hp Hle. rewrite (Hget pid e Hg).
    rewrite decide_False; [done |]. unfold expired. simpl. rewrite Hp.
    intros [= Hlt%Z.ltb_lt]. lia.
Qed.

(** C6, as amended: when the table is over capacity on a store that
    satisfies its representation invariant, [_cleanup_old_entries] removes
    the first [min(len - max_entries + 100, len)] entries of the table
    sorted by timestamp and nothing else: every entry removed is at least
    as old, in the order of the timestamp strings, as every entry kept, and
    the table is left with [max(0, max_entries - 100)] entries, the buffer
    being the constant 100. *)
Theorem cleanup_old_entries_evicts_oldest w :
  store_ok (self w) →
  len (_memory (self w)) > max_entries (self w) →
  ∃ w', _cleanup_old_entries w = (Return tt, w')
    ∧ _memory (self w') =
      filter (λ x, x.1 ∉ (victims (self w)).*1) (_memory (self w))
    ∧ (∀ x, x ∈ _memory (self w) →
         x ∉ _memory (self w') ↔ x ∈ victims (self w))
    ∧ (∀ x y, x ∈ _memory (self w) → x ∉ _memory (self w') →
         y ∈ _memory (self w') →
         py.str_le (timestamp x.2) (timestamp y.2))
    ∧ len (_memory (self w')) = Z.max 0 (max_entries (self w) - 100).
Proof.
  intros Hok Hgt.
  destruct (_cleanup_old_entries_run w Hok Hgt)
    as (w' & Hrun & Hm & _ & _ & _ & _ & _ & Hlen).
  exists w'. split_and!; [done | done | | | done].
  - intros x Hx. rewrite Hm. apply kept_or_victim; [apply Hok | done].
  - intros x y Hx Hnx Hy. rewrite Hm in Hnx, Hy.
    apply (evicted_before_kept (self w)); [apply Hok | done | done | done].
Qed.

(** C9, as amended: the eviction buffer is the constant 100.  Over capacity,
    on a store that satisfies its representation invariant,
    [_cleanup_old_entries] removes [min(size - max_entries + 100, size)]
    entries, the oldest in timestamp order, and leaves
    [max(0, max_entries - 100)]; with [max_entries ≤ 100] it leaves the
    table empty, and so does a [store_metadata] whose write brings the
    table over capacity, whatever that call returns. *)
Theorem cleanup_old_entries_fixed_buffer w :
  store_ok (self w) →
  len (_memory (self w)) > max_entries (self w) →
  (∃ w', _cleanup_old_entries w = (Return tt, w')
     ∧ len (_memory (self w)) - len (_memory (self w')) =
       Z.min (len (_memory (self w)) - max_entries (self w) + 100)
             (len (_memory (self w)))
     ∧ (∀ x y, x ∈ _memory (self w) → x ∉ _memory (self w') →
          y ∈ _memory (self w') →
          py.str_le (timestamp x.2) (timestamp y.2))
     ∧ len (_memory (self w')) = Z.max 0 (max_entries (self w) - 100)
     ∧ (max_entries (self w) ≤ 100 → _memory (self w') = []))
  ∧ (∀ pid md w0,
       store_ok (self w0) → max_entries (self w0) ≤ 100 →
       len (_memory (self w0)) +
         match py.get pid (_memory (self w0)) with Some _ => 0 | None => 1 end
         > max_entries (self w0) →
       _memory (self (store_metadata pid md w0).2) = []).
Proof.
  intros Hok Hgt. split.
  - destruct (_cleanup_old_entries_run w Hok Hgt)
      as (w' & Hrun & Hm & _ & _ & _ & _ & _ & Hlen).
    exists w'. split_and!; [done | | | done |].
    + rewrite Hlen. lia.
    + intros x y Hx Hnx Hy. rewrite Hm in Hnx, Hy.
      apply (evicted_before_kept (self w)); [apply Hok | done | done | done].
    + intros Hmax. apply length_zero_iff_nil. unfold len in Hlen. lia.
  - intros pid md w0 Hok0 Hmax Hover.
    unfold store_metadata, try_except, bind. rewrite upsert_run.
    match goal with |- context [_update_stats ?w1] =>
      destruct (_update_stats_run w1) as (st & -> & _) end.
    match goal with |- context [_cleanup_if_needed ?w1] =>
      destruct (_cleanup_if_needed_ok w1) as (r & w' & -> & _ & _ & Hlen) end.
    { eapply set_item_ok; [done | reflexivity | simpl; eauto | simpl].
      destruct (py.get pid (_memory (self w0))) as [e|] eqn:Hg; simpl; [| done].
      intros cid Hc Hne. by apply (proj2 Hok0 pid e cid). }
    simpl in Hlen. unfold len in Hlen, Hover. rewrite set_item_length in Hlen.
    assert (length (_memory (self w')) = 0%nat) as Hnil.
    { destruct (py.get pid (_memory (self w0))); lia. }
    apply length_zero_iff_nil in Hnil. by destruct r.
Qed.

End Claims.

Section WriteClaims.
Context {Any float : Type} {clock : Clock}.
Implicit Types (w : World Any float) (s : SharedMemory Any float)
  (e : MemoryEntry Any float) (pid cid : string) (op : write (Any:=Any) (float:=float)).

Lemma records_one s pid :
  NoDup (_memory s).*1 → is_Some (py.get pid (_memory s)) → records pid s = 1%nat.
Proof.
  unfold records. induction (_memory s) as [|[k v] d IH]; simpl.
  - by intros _ [? ?].
  - intros [Hk Hnd]%NoDup_cons Hs. case_decide; subst.
    + rewrite filter_cons_True by done. simpl. f_equal.
      apply length_zero_iff_nil, filter_none.
      intros [k' v'] Hin ?; simpl in *; subst.
      apply Hk. by apply (list_elem_of_fmap_2 fst _ (pid, v')).
    + rewrite filter_cons_False by done. auto.
Qed.

(** The entry of [pid] after [store_metadata], when it has one, is the
    entry the write produced; the keys stay distinct. *)
Lemma store_metadata_entry pid md w :
  NoDup (_memory (self w)).*1 →
  NoDup (_memory (self (store_metadata pid md w).2)).*1
  ∧ ∀ e', py.get pid (_memory (self (store_metadata pid md w).2)) = Some e' →
      e' = match py.get pid (_memory (self w)) with
           | None =>
               {| processing_id := pid;
                  timestamp := isoformat (utc (ticks w));
                  metadata := md; classification := None;
                  extracted_data := None; conversation_id := None;
                  agent_history := ["metadata_stored"] |}
           | Some e =>
               {| processing_id := processing_id e; timestamp := timestamp e;
                  metadata := md ∪ metadata e;
                  classification := classification e;
                  extracted_data := extracted_data e;
                  conversation_id := conversation_id e;
                  agent_history := agent_history e ++ ["metadata_updated"] |}
           end.
Proof.
  intros Hnd.
  destruct (store_metadata_run pid md w) as (b & w' & -> & Hsub & _). simpl.
  match type of Hsub with sublist _ (py.set_item _ ?x _) =>
    pose proof (set_item_NoDup (_memory (self w)) pid x Hnd) as Hnd' end.
  split; [by eapply sublist_keys_NoDup |].
  intros e' Hg. eapply sublist_get in Hg; [| done | done].
  rewrite get_set_item_eq in Hg. by injection Hg.
Qed.

(** One write: the keys stay distinct, a write other than [store_metadata]
    leaves the entry in the table, and the history of the entry, when it is
    in the table afterwards, is the old history with one tag appended. *)
Lemma apply_write_history pid op w :
  NoDup (_memory (self w)).*1 →
  NoDup (_memory (self (apply_write pid op w).2)).*1
  ∧ (is_metadata op = false →
     is_Some (py.get pid (_memory (self (apply_write pid op w).2))))
  ∧ ∀ e', py.get pid (_memory (self (apply_write pid op w).2)) = Some e' →
      agent_history e' =
      match py.get pid (_memory (self w)) with
      | None => [tag true op]
      | Some e => agent_history e ++ [tag false op]
      end.
Proof.
  intros Hnd. destruct op as [md | c | d | cid]; simpl.
  - destruct (store_metadata_entry pid md w Hnd) as [Hnd' He].
    split_and!; [done | done |].
    intros e' ->%He. by destruct (py.get pid (_memory (self w))).
  - destruct (store_classification_run pid c w) as (w' & -> & Hm & _).
    simpl. rewrite Hm, get_set_item_eq.
    split_and!; [by apply set_item_NoDup | done |].
    intros e' [= <-]. by destruct (py.get pid (_memory (self w))).
  - destruct (store_extracted_data_run pid d w) as (w' & -> & Hm & _).
    simpl. rewrite Hm, get_set_item_eq.
    split_and!; [by apply set_item_NoDup | done |].
    intros e' [= <-]. by destruct (py.get pid (_memory (self w))).
  - destruct (store_conversation_id_run pid cid w) as (w' & -> & Hm & _).
    simpl. rewrite Hm, get_set_item_eq.
    split_and!; [by apply set_item_NoDup | done |].
    intros e' [= <-]. by destruct (py.get pid (_memory (self w))).
Qed.

Lemma run_writes_history pid ops : ∀ w e,
  NoDup (_memory (self w)).*1 →
  py.get pid (_memory (self w)) = Some e →
  survives pid ops w →
  NoDup (_memory (self (run_writes pid ops w))).*1
  ∧ ∃ e', py.get pid (_memory (self (run_writes pid ops w))) = Some e'
      ∧ agent_history e' = agent_history e ++ (tag false <$> ops).
Proof.
  induction ops as [|op ops IH]; intros w e Hnd Hg Hs.
  - split; [done |]. exists e. by rewrite app_nil_r.
  - destruct Hs as [Hlive Hs].
    destruct (apply_write_history pid op w Hnd) as (Hnd' & Hkeep & Hh).
    assert (is_Some (py.get pid (_memory (self (apply_write pid op w).2))))
      as [e1 Hg1].
    { destruct (is_metadata op) eqn:Hop; [| by apply Hkeep].
      apply not_eq_None_Some. by apply Hlive. }
    destruct (IH _ e1 Hnd' Hg1 Hs) as (Hnd2 & e' & Hg' & Hh').
    split; [done |]. exists e'. split; [done |].
    rewrite Hh', (Hh e1 Hg1), Hg. by rewrite <- app_assoc.
Qed.

(** C3, as amended: for every non-empty sequence of writes applied to one
    processing id that has no record at the start, provided no
    [store_metadata] of the sequence ends with the record evicted by its own
    retention run (the other three writes never evict), there is exactly
    one record with this id afterwards and its [agent_history] is the list
    of the tags of the writes in the order they were issued, so its length
    is the number of writes; and every write to a record that is still in
    the table afterwards leaves the old history as it was and appends one
    tag to it. *)
Theorem write_sequence_history pid ops w :
  NoDup (_memory (self w)).*1 →
  py.get pid (_memory (self w)) = None →
  ops ≠ [] →
  survives pid ops w →
  records pid (self (run_writes pid ops w)) = 1%nat
  ∧ (∃ e, py.get pid (_memory (self (run_writes pid ops w))) = Some e
       ∧ agent_history e = tags ops
       ∧ length (agent_history e) = length ops)
  ∧ (∀ op w0 e0 e1,
       NoDup (_memory (self w0)).*1 →
       py.get pid (_memory (self w0)) = Some e0 →
       py.get pid (_memory (self (apply_write pid op w0).2)) = Some e1 →
       agent_history e1 = agent_history e0 ++ [tag false op]).
Proof.
  intros Hnd Hg Hops Hs.
  destruct ops as [|op ops]; [done |]. destruct Hs as [Hlive Hs].
  destruct (apply_write_history pid op w Hnd) as (Hnd' & Hkeep & Hh).
  assert (is_Some (py.get pid (_memory (self (apply_write pid op w).2))))
    as [e1 Hg1].
  { destruct (is_metadata op) eqn:Hop; [| by apply Hkeep].
    apply not_eq_None_Some. by apply Hlive. }
  destruct (run_writes_history pid ops _ e1 Hnd' Hg1 Hs)
    as (Hnd2 & e' & Hg' & Hh').
  change (run_writes pid (op :: ops) w)
    with (run_writes pid ops (apply_write pid op w).2).
  rewrite (Hh e1 Hg1), Hg in Hh'.
  split_and!.
  - by apply records_one.
  - exists e'. split_and!; [done | done |].
    rewrite Hh'. simpl. by rewrite length_fmap.
  - intros op0 w0 e0 e2 Hnd0 Hg0 Hg2.
    destruct (apply_write_history pid op0 w0 Hnd0) as (_ & _ & Hh0).
    by rewrite (Hh0 e2 Hg2), Hg0.
Qed.

(** C4, as amended: [store_metadata] merges key by key into the metadata of
    the record it finds.  For two maps written one after the other to the
    same id, if the record is in the table after the first write and after
    the second (retention, which runs at the end of each [store_metadata],
    has not evicted it), the metadata after the second write is the second
    map laid over the metadata after the first write: a key of the second
    map has the value of the second map, every other key is as it was after
    the first write, where the keys of the first map had the values of the
    first map; and when the id had no record before the first write, the
    result is the second map laid over the first. *)
Theorem store_metadata_merges pid m1 m2 w md1 md2 :
  NoDup (_memory (self w)).*1 →
  get_metadata pid (self (store_metadata pid m1 w).2) = Some md1 →
  get_metadata pid
    (self (store_metadata pid m2 (store_metadata pid m1 w).2).2) = Some md2 →
  md2 = m2 ∪ md1
  ∧ (∀ k v, m2 !! k = Some v → md2 !! k = Some v)
  ∧ (∀ k, m2 !! k = None → md2 !! k = md1 !! k)
  ∧ (∀ k v, m1 !! k = Some v → md1 !! k = Some v)
  ∧ (get_metadata pid (self w) = None → md2 = m2 ∪ m1).
Proof.
  unfold get_metadata. intros Hnd H1 H2.
  destruct (store_metadata_entry pid m1 w Hnd) as [Hnd1 He1].
  destruct (store_metadata_entry pid m2 _ Hnd1) as [_ He2].
  destruct (py.get pid (_memory (self (store_metadata pid m1 w).2)))
    as [e1|] eqn:Hg1; [| done].
  destruct (py.get pid (_memory (self
    (store_metadata pid m2 (store_metadata pid m1 w).2).2)))
    as [e2|] eqn:Hg2; [| done].
  injection H1 as <-. injection H2 as <-.
  rewrite (He2 e2 eq_refl). simpl.
  assert (∀ k v, m1 !! k = Some v → metadata e1 !! k = Some v) as Hfirst.
  { intros k v Hk. rewrite (He1 e1 eq_refl).
    destruct (py.get pid (_memory (self w))); simpl; [| done].
    by apply lookup_union_Some_l. }
  split_and!; [done | | | done |].
  - intros k v Hk. by apply lookup_union_Some_l.
  - intros k Hk. by rewrite lookup_union_r.
  - intros Hnone. rewrite (He1 e1 eq_refl).
    by destruct (py.get pid (_memory (self w))).
Qed.


End WriteClaims.

(** * The properties on the worked configurations *)

Section Worked.
Existing Instance steady.

Lemma aged_ok : store_ok (self aged).
Proof.
  split.
  - apply (bool_decide_unpack _). by vm_compute.
  - intros pid e cid Hg Hc. simpl in Hg.
    repeat (case_decide; [by injection Hg as <- |]). done.
Qed.

Lemma crowded_ok : store_ok (self crowded).
Proof. do 2 apply store_classification_ok. apply store_ok_init. Qed.

(** C1: the bound on the table fails through [store_classification].  With
    [max_entries = 1], two classifications of distinct ids both succeed and
    leave two entries: no retention runs after the write. *)
Theorem store_classification_skips_retention :
  let w1 := (store_classification "a" order tiny).2 in
  let w2 := (store_classification "b" order w1).2 in
  (store_classification "a" order tiny).1 = Return true
  ∧ (store_classification "b" order w1).1 = Return true
  ∧ (_memory (self w2)).*1 = ["a"; "b"]
  ∧ max_entries (self w2) = 1
  ∧ len (_memory (self w2)) > max_entries (self w2).
Proof. intros w1 w2. split_and!; by vm_compute. Qed.

(** C2: the index keeps a stale id.  A record is given the conversation
    [c1], then [c2], then it is cleared: the three calls succeed, the
    bucket of [c1] still lists the id, [get_memory] finds no record for it,
    and the index is not consistent. *)
Theorem stale_bucket_after_reassignment :
  let w1 := (store_conversation_id "p" "c1" fresh).2 in
  let w2 := (store_conversation_id "p" "c2" w1).2 in
  let w3 := (clear_memory "p" w2).2 in
  (store_conversation_id "p" "c1" fresh).1 = Return true
  ∧ (store_conversation_id "p" "c2" w1).1 = Return true
  ∧ (clear_memory "p" w2).1 = Return true
  ∧ _conversation_index (self w3) !! "c1" = Some ["p"]
  ∧ get_memory "p" (self w3) = Return None
  ∧ ¬ index_consistent (self w3).
Proof.
  intros w1 w2 w3. split_and!; try by vm_compute.
  intros Hcons. destruct (Hcons "c1" ["p"]) as [_ Hlive]; [by vm_compute |].
  apply (Hlive "p"); [left | by vm_compute].
Qed.

(** C8: [clear_memory] leaves the id in the bucket of the empty
    conversation id.  A record stored under the empty conversation id is
    listed in the bucket of that id; clearing it succeeds and removes the
    record, and the bucket still lists the id. *)
Theorem clear_memory_skips_empty_conversation :
  let w1 := (store_conversation_id "p" EmptyString fresh).2 in
  let w2 := (clear_memory "p" w1).2 in
  (store_conversation_id "p" EmptyString fresh).1 = Return true
  ∧ conversation_id <$> py.get "p" (_memory (self w1)) = Some (Some EmptyString)
  ∧ _conversation_index (self w1) !! EmptyString = Some ["p"]
  ∧ (clear_memory "p" w1).1 = Return true
  ∧ _memory (self w2) = []
  ∧ _conversation_index (self w2) !! EmptyString = Some ["p"].
Proof. intros w1 w2. split_and!; by vm_compute. Qed.

(** C3, counterexample: on the default store, two successful
    [store_metadata] to a new id, the second a day after the first, leave
    no record with this id: the age sweep that ends the second write evicts
    the record that the write has just updated. *)
Lemma history_lost_by_eviction :
  let ops := [PutMetadata {["a" := 1]}; PutMetadata {["b" := 2]}] in
  let w' := run_writes (clock := next_day) "p" ops day_one in
  py.get "p" (_memory (self day_one)) = None
  ∧ (store_metadata (clock := next_day) "p" {["a" := 1]} day_one).1
    = Return true
  ∧ (store_metadata (clock := next_day) "p" {["b" := 2]}
       (store_metadata (clock := next_day) "p" {["a" := 1]} day_one).2).1
    = Return true
  ∧ records "p" (self w') = 0%nat
  ∧ ¬ (records "p" (self w') = 1%nat
       ∧ ∃ e, py.get "p" (_memory (self w')) = Some e
            ∧ length (agent_history e) = length ops).
Proof.
  intros ops w'. split_and!; try by vm_compute.
  intros [Hone _]. by vm_compute in Hone.
Qed.

(** The same on the store at capacity: the first of two successful
    [store_metadata] to a new id evicts the whole table, so the history
    holds one tag after two writes. *)
Example history_lost_at_capacity :
  let ops := [PutMetadata {["a" := 1]}; PutMetadata {["b" := 2]}] in
  (store_metadata "p" {["a" := 1]} full).1 = Return true
  ∧ (store_metadata "p" {["b" := 2]}
       (store_metadata "p" {["a" := 1]} full).2).1 = Return true
  ∧ agent_history <$> py.get "p" (_memory (self (run_writes "p" ops full)))
    = Some ["metadata_stored"].
Proof. intros ops. split_and!; by vm_compute. Qed.

(** C3, witness: metadata, classification and conversation id written to a
    new id of the default store. *)
Lemma write_sequence_history_witness :
  let ops := [PutMetadata {["file" := 1]}; PutClassification order;
              PutConversationId "c1"] in
  records "p" (self (run_writes "p" ops fresh)) = 1%nat
  ∧ (∃ e, py.get "p" (_memory (self (run_writes "p" ops fresh))) = Some e
       ∧ agent_history e = tags ops
       ∧ length (agent_history e) = length ops)
  ∧ (∀ (op : @write Z Z) (w0 : World Z Z) e0 e1,
       NoDup (_memory (self w0)).*1 →
       py.get "p" (_memory (self w0)) = Some e0 →
       py.get "p" (_memory (self (apply_write "p" op w0).2)) = Some e1 →
       agent_history e1 = agent_history e0 ++ [tag false op]).
Proof.
  intros ops. apply (write_sequence_history "p" ops fresh).
  - apply NoDup_nil_2.
  - reflexivity.
  - discriminate.
  - repeat split; intros _; by vm_compute.
Defined.

(** C4, counterexample: on the default store, [{"a": 1}] and, a day later,
    [{"b": 2}] written to a new id both succeed and yield no metadata at
    all: the age sweep that ends the second write evicts the record. *)
Lemma merge_lost_by_eviction :
  let w1 := (store_metadata (clock := next_day) "p" {["a" := 1]} day_one).2 in
  let w2 := (store_metadata (clock := next_day) "p" {["b" := 2]} w1).2 in
  (store_metadata (clock := next_day) "p" {["a" := 1]} day_one).1 = Return true
  ∧ (store_metadata (clock := next_day) "p" {["b" := 2]} w1).1 = Return true
  ∧ get_metadata "p" (self w2) = None
  ∧ get_metadata "p" (self w2) ≠ Some {["a" := 1; "b" := 2]}.
Proof. intros w1 w2. split_and!; by vm_compute. Qed.

(** The same on the store at capacity: the key of the first write is not
    preserved. *)
Example merge_lost_at_capacity :
  let w1 := (store_metadata "p" {["a" := 1]} full).2 in
  let w2 := (store_metadata "p" {["b" := 2]} w1).2 in
  (store_metadata "p" {["a" := 1]} full).1 = Return true
  ∧ (store_metadata "p" {["b" := 2]} w1).1 = Return true
  ∧ get_metadata "p" (self w2) = Some {["b" := 2]}.
Proof. intros w1 w2. split_and!; by vm_compute. Qed.

(** C4, witness: the two writes of the merge law on the default store. *)
Lemma store_metadata_merges_witness :
  ({["a" := 1; "b" := 2]} : gmap string Z) = {["b" := 2]} ∪ {["a" := 1]}
  ∧ (∀ k v, ({["b" := 2]} : gmap string Z) !! k = Some v →
       ({["a" := 1; "b" := 2]} : gmap string Z) !! k = Some v)
  ∧ (∀ k, ({["b" := 2]} : gmap string Z) !! k = None →
       ({["a" := 1; "b" := 2]} : gmap string Z) !! k
       = ({["a" := 1]} : gmap string Z) !! k)
  ∧ (∀ k v, ({["a" := 1]} : gmap string Z) !! k = Some v →
       ({["a" := 1]} : gmap string Z) !! k = Some v)
  ∧ (get_metadata "p" (self fresh) = None →
     ({["a" := 1; "b" := 2]} : gmap string Z) = {["b" := 2]} ∪ {["a" := 1]}).
Proof.
  apply (store_metadata_merges "p" {["a" := 1]} {["b" := 2]} fresh).
  - apply NoDup_nil_2.
  - by vm_compute.
  - by vm_compute.
Defined.

(** The merge law on the default store. *)
Example merge_law_new_key :
  get_metadata "p"
    (self (store_metadata "p" {["b" := 2]}
             (store_metadata "p" {["a" := 1]} fresh).2).2)
  = Some {["a" := 1; "b" := 2]}.
Proof. by vm_compute. Qed.

Example merge_law_same_key :
  get_metadata "p"
    (self (store_metadata "p" {["a" := 2]}
             (store_metadata "p" {["a" := 1]} fresh).2).2)
  = Some {["a" := 2]}.
Proof. by vm_compute. Qed.


(** The sweep of the aged table runs to its end. *)
Example aged_in_range :
  ∃ w', _cleanup_expired_entries aged = (Return tt, w')
    ∧ (_memory (self w')).*1 = ["new"]
    ∧ last_cleanup (_stats (self w')) = isoformat (utc 3).
Proof.
  destruct (cleanup_expired_entries_in_range aged (24 * 3600000000)
              (utc 0 - 24 * 3600000000) aged_ok)
    as (w' & Hrun & Hm & _ & _ & _ & Hlc & _);
    [by vm_compute | by vm_compute | |].
  - intros x Hx. simpl in Hx.
    repeat (apply elem_of_cons in Hx as [-> | Hx]; [by vm_compute |]).
    by apply elem_of_nil in Hx.
  - exists w'. split; [done |]. rewrite Hm, Hlc. split; by vm_compute.
Qed.

(** The sweep of the aged table keeps the entry half an hour old only. *)
Example aged_swept :
  (_memory (self (_cleanup_expired_entries aged).2)).*1 = ["new"]
  ∧ last_cleanup (_stats (self (_cleanup_expired_entries aged).2))
    = "2024-01-15T10:30:00.003000".
Proof. by vm_compute. Qed.

(** C6, counterexample: with [max_entries = 1] and two entries the eviction
    empties the table; the size is not [max_entries - 100]. *)
Lemma eviction_below_buffer :
  let w' := (_cleanup_old_entries crowded).2 in
  len (_memory (self crowded)) > max_entries (self crowded)
  ∧ _memory (self w') = []
  ∧ len (_memory (self w')) ≠ max_entries (self crowded) - 100.
Proof. intros w'. split_and!; by vm_compute. Qed.

(** C6, witness: the eviction on the store that is over capacity. *)
Lemma cleanup_old_entries_evicts_oldest_witness :
  ∃ w', _cleanup_old_entries crowded = (Return tt, w')
    ∧ _memory (self w') =
      filter (λ x, x.1 ∉ (victims (self crowded)).*1) (_memory (self crowded))
    ∧ (∀ x, x ∈ _memory (self crowded) →
         x ∉ _memory (self w') ↔ x ∈ victims (self crowded))
    ∧ (∀ x y, x ∈ _memory (self crowded) → x ∉ _memory (self w') →
         y ∈ _memory (self w') →
         py.str_le (timestamp x.2) (timestamp y.2))
    ∧ len (_memory (self w')) = Z.max 0 (max_entries (self crowded) - 100).
Proof.
  apply (cleanup_old_entries_evicts_oldest crowded); [apply crowded_ok |].
  by vm_compute.
Defined.

(** C9, counterexample: with [max_entries = 1] and one record in the table,
    a [store_extracted_data], a [store_classification] and a
    [store_conversation_id] of a new id each succeed and bring the table
    over capacity, and each leaves both records in the table: a single
    write over capacity does not empty it. *)
Lemma write_over_capacity_keeps_table :
  max_entries (self full) ≤ 100
  ∧ len (_memory (self full)) = max_entries (self full)
  ∧ (store_extracted_data "r" ∅ full).1 = Return true
  ∧ (_memory (self (store_extracted_data "r" ∅ full).2)).*1 = ["q"; "r"]
  ∧ (store_classification "r" order full).1 = Return true
  ∧ (_memory (self (store_classification "r" order full).2)).*1 = ["q"; "r"]
  ∧ (store_conversation_id "r" "c" full).1 = Return true
  ∧ (_memory (self (store_conversation_id "r" "c" full).2)).*1 = ["q"; "r"].
Proof. split_and!; by vm_compute. Qed.

(** C9, witness: the fixed buffer on the store that is over capacity. *)
Lemma cleanup_old_entries_fixed_buffer_witness :
  (∃ w', _cleanup_old_entries crowded = (Return tt, w')
     ∧ len (_memory (self crowded)) - len (_memory (self w')) =
       Z.min (len (_memory (self crowded)) - max_entries (self crowded) + 100)
             (len (_memory (self crowded)))
     ∧ (∀ x y, x ∈ _memory (self crowded) → x ∉ _memory (self w') →
          y ∈ _memory (self w') →
          py.str_le (timestamp x.2) (timestamp y.2))
     ∧ len (_memory (self w')) = Z.max 0 (max_entries (self crowded) - 100)
     ∧ (max_entries (self crowded) ≤ 100 → _memory (self w') = []))
  ∧ (∀ pid md (w0 : World Z Z),
       store_ok (self w0) → max_entries (self w0) ≤ 100 →
       len (_memory (self w0)) +
         match py.get pid (_memory (self w0)) with Some _ => 0 | None => 1 end
         > max_entries (self w0) →
       _memory (self (store_metadata pid md w0).2) = []).
Proof.
  apply (cleanup_old_entries_fixed_buffer crowded); [apply crowded_ok |].
  by vm_compute.
Defined.

(** On the store at capacity, [store_metadata] of a new id empties the
    table. *)
Example store_metadata_empties_table :
  _memory (self (store_metadata "p" {["a" := 1]} full).2) = [].
Proof. by vm_compute. Qed.


(** The same on the store at capacity, for the write that creates the
    record. *)
Example metadata_evicted_at_capacity :
  (store_metadata "p" {["a" := 1]} full).1 = Return true
  ∧ get_metadata "p" (self (store_metadata "p" {["a" := 1]} full).2) = None.
Proof. split; by vm_compute. Qed.


(** The range of the naive datetimes on the time line of the worked
    clock. *)
Example datetime_range :
  fromisoformat "0001-01-01T00:00:00" = Some (Naive datetime_min)
  ∧ fromisoformat "9999-12-31T23:59:59.999999" = Some (Naive datetime_max)
  ∧ datetime_sub datetime_min 1 = Raise py.OverflowError
  ∧ datetime_sub datetime_max (-1) = Raise py.OverflowError
  ∧ timedelta 23999999999 = Return (23999999999 * 3600000000)
  ∧ timedelta 24000000000 = Raise py.OverflowError
  ∧ timedelta (-23999999976) = Return (-23999999976 * 3600000000)
  ∧ timedelta (-23999999977) = Raise py.OverflowError.
Proof. split_and!; by vm_compute. Qed.

(** On the default store the retention run of a [store_metadata] cannot
    raise. *)
Example fresh_retention_safe : retention_safe fresh.
Proof.
  split_and!.
  - eexists. by vm_compute.
  - exists (24 * 3600000000). split; [by vm_compute |].
    intros k Hk. change (ticks fresh) with 1%nat in Hk. simpl in Hk.
    destruct k as [|[|[|[|[|[|k]]]]]]; [by vm_compute.. | lia].
  - by vm_compute.
  - intros x Hx. by apply elem_of_nil in Hx.
Qed.

(** The serialisation fails on a record that carries a classification. *)
Example get_memory_raises :
  let w := (store_conversation_id "p" "c1"
              (store_classification "p" order fresh).2).2 in
  get_memory "p" (self w) = Raise py.TypeError
  ∧ get_conversation_history "c1" (self w) = Raise py.TypeError.
Proof. by vm_compute. Qed.

End Worked.

(** * Further facts about the store *)

Section FurtherFacts.
Context {Any float : Type} {clock : Clock}.
Implicit Types (w : World Any float) (s : SharedMemory Any float)
  (e : MemoryEntry Any float) (pid cid : string).

Lemma _update_stats_eq w :
  _update_stats w =
  (Return tt,
   {| self := with_stats (self w)
        {| total_entries := len (_memory (self w));
           active_conversations := Z.of_nat (size (_conversation_index (self w)));
           last_cleanup := last_cleanup (_stats (self w));
           last_update := Some (isoformat (utc (ticks w))) |};
      ticks := S (ticks w) |}).
Proof. reflexivity. Qed.

(** *** The counters *)

Lemma clear_memory_stats w pid :
  stats_current (self w) → stats_current (self (clear_memory pid w).2).
Proof.
  intros Hst. unfold clear_memory, unregister.
  unfold try_except, bind, ret, raise, get_self, put_self, utcnow. simpl.
  destruct (py.get pid (_memory (self w))) as [e|]; [| done].
  destruct (conversation_id e) as [cid|]; [destruct (py.truthy cid) |];
    [| done | done].
  destruct (_conversation_index (self w) !! cid) as [l|]; [| done].
  by destruct (if decide (pid ∈ l) then py.remove pid l else l).
Qed.

Lemma store_metadata_stats pid md w :
  stats_current (self (store_metadata pid md w).2).
Proof.
  unfold store_metadata, try_except, bind at 1. rewrite upsert_run.
  unfold bind at 1. rewrite _update_stats_eq. unfold bind at 1.
  match goal with |- context [_cleanup_if_needed ?w0] =>
    pose proof (_cleanup_if_needed_preserves stats_current
                  clear_memory_stats (λ s t H, H) w0) as HP;
    destruct (_cleanup_if_needed w0) as [r w'] end.
  destruct r; apply HP; done.
Qed.

Lemma serialize_all_Return (mem es : py.dict (MemoryEntry Any float)) :
  serialize_all mem = Return es → es = mem.
Proof.
  revert es. induction mem as [|[k v] mem IH]; simpl; intros es Hs.
  - by injection Hs.
  - unfold _serialize_entry in Hs. destruct (classification v); [done |].
    destruct (serialize_all mem) as [es'|]; [| done].
    injection Hs as <-. by rewrite (IH es' eq_refl).
Qed.

Lemma serialize_all_spec (mem : py.dict (MemoryEntry Any float)) :
  serialize_all mem =
  if decide (Forall (λ x, classification x.2 = None) mem)
  then Return mem else Raise py.TypeError.
Proof.
  induction mem as [|[k v] mem IH].
  - by destruct (decide _) as [? | []].
  - change (serialize_all ((k, v) :: mem))
      with (match _serialize_entry v with
            | Return d =>
                match serialize_all mem with
                | Return entries => Return ((k, d) :: entries)
                | Raise e => Raise e
                end
            | Raise e => Raise e
            end).
    rewrite IH. unfold _serialize_entry.
    destruct (decide (Forall _ ((k, v) :: mem))) as [Hall | Hall].
    + apply Forall_cons in Hall as [Hv Hall]. simpl in Hv. rewrite Hv.
      by rewrite decide_True.
    + destruct (classification v) eqn:Hc; [done |].
      rewrite decide_False; [done |]. intros Hall'. apply Hall. by constructor.
Qed.

(** *** Entries under their own id *)

Lemma keyed_sublist s s' :
  sublist (_memory s') (_memory s) → keyed s → keyed s'.
Proof. intros Hsub Hk pid e Hin. apply Hk. by eapply elem_of_sublist. Qed.

Lemma set_item_keyed s s' pid e' :
  keyed s →
  _memory s' = py.set_item pid e' (_memory s) →
  processing_id e' = pid → agent_history e' ≠ [] →
  keyed s'.
Proof.
  intros Hk Hm Hp Hh p e Hin. rewrite Hm in Hin.
  apply set_item_elem in Hin as [[= -> ->] | Hin]; [done | by apply Hk].
Qed.

Lemma keyed_get s pid e :
  keyed s → py.get pid (_memory s) = Some e →
  processing_id e = pid ∧ agent_history e ≠ [].
Proof. intros Hk Hg. by apply Hk, get_Some_elem. Qed.

Lemma clear_memory_keyed w pid :
  keyed (self w) → keyed (self (clear_memory pid w).2).
Proof.
  intros Hk. destruct (clear_memory_evolves w pid) as (b & w' & -> & Hev & _).
  eapply keyed_sublist; [apply Hev | done].
Qed.

Lemma store_classification_keyed pid c w :
  keyed (self w) → keyed (self (store_classification pid c w).2).
Proof.
  intros Hk. unfold store_classification, try_except, bind.
  rewrite upsert_run. simpl.
  eapply set_item_keyed; [done | reflexivity | |];
    destruct (py.get pid (_memory (self w))) as [e|] eqn:Hg; simpl;
    try done; [by apply (keyed_get (self w)) | by destruct (agent_history e)].
Qed.

Lemma store_extracted_data_keyed pid d w :
  keyed (self w) → keyed (self (store_extracted_data pid d w).2).
Proof.
  intros Hk. unfold store_extracted_data, try_except, bind.
  rewrite upsert_run. simpl.
  eapply set_item_keyed; [done | reflexivity | |];
    destruct (py.get pid (_memory (self w))) as [e|] eqn:Hg; simpl;
    try done; [by apply (keyed_get (self w)) | by destruct (agent_history e)].
Qed.

Lemma store_conversation_id_keyed pid cid w :
  keyed (self w) → keyed (self (store_conversation_id pid cid w).2).
Proof.
  intros Hk. unfold store_conversation_id, try_except, bind.
  rewrite upsert_run. simpl.
  eapply set_item_keyed; [done | reflexivity | |];
    destruct (py.get pid (_memory (self w))) as [e|] eqn:Hg; simpl;
    try done; [by apply (keyed_get (self w)) | by destruct (agent_history e)].
Qed.

Lemma store_metadata_keyed pid md w :
  keyed (self w) → keyed (self (store_metadata pid md w).2).
Proof.
  intros Hk.
  destruct (store_metadata_run pid md w) as (b & w' & -> & Hsub & _). simpl.
  intros p e Hin. eapply elem_of_sublist in Hin; [| done].
  apply set_item_elem in Hin as [[= -> ->] | Hin]; [| by apply Hk].
  destruct (py.get pid (_memory (self w))) as [e|] eqn:Hg; simpl; [| done].
  split; [by apply (keyed_get (self w)) | by destruct (agent_history e)].
Qed.

(** *** Buckets *)

Lemma clear_memory_tidy w pid :
  buckets_tidy (self w) → buckets_tidy (self (clear_memory pid w).2).
Proof.
  intros Ht. unfold clear_memory, unregister.
  unfold try_except, bind, ret, raise, get_self, put_self, utcnow. simpl.
  destruct (py.get pid (_memory (self w))) as [e|]; [| done].
  destruct (conversation_id e) as [cid|]; [destruct (py.truthy cid) |];
    [| done | done].
  destruct (_conversation_index (self w) !! cid) as [l|] eqn:Hl; [| done].
  destruct (Ht cid l Hl) as [Hne Hnd].
  assert (NoDup (if decide (pid ∈ l) then py.remove pid l else l)) as Hnd'.
  { case_decide; [by apply remove_NoDup | done]. }
  destruct (if decide (pid ∈ l) then py.remove pid l else l) as [|x l'];
    simpl; intros c b Hb; simpl in Hb.
  - apply lookup_delete_Some in Hb as [_ Hb]. by apply Ht in Hb.
  - apply lookup_insert_Some in Hb as [[_ <-] | [_ Hb]]; [done | by apply Ht in Hb].
Qed.

Lemma store_metadata_tidy pid md w :
  buckets_tidy (self w) → buckets_tidy (self (store_metadata pid md w).2).
Proof.
  intros Ht. unfold store_metadata, try_except, bind at 1. rewrite upsert_run.
  unfold bind at 1. rewrite _update_stats_eq. unfold bind at 1.
  match goal with |- context [_cleanup_if_needed ?w0] =>
    pose proof (_cleanup_if_needed_preserves buckets_tidy
                  clear_memory_tidy (λ s t H, H) w0) as HP;
    destruct (_cleanup_if_needed w0) as [r w'] end.
  destruct r; apply HP; done.
Qed.

Lemma store_conversation_id_tidy pid cid w :
  buckets_tidy (self w) → buckets_tidy (self (store_conversation_id pid cid w).2).
Proof.
  intros Ht.
  destruct (store_conversation_id_run pid cid w) as (w' & -> & _ & Hidx & _).
  simpl. intros c b Hb. rewrite Hidx in Hb.
  apply lookup_insert_Some in Hb as [[_ <-] | [_ Hb]]; [| by apply Ht in Hb].
  destruct (_conversation_index (self w) !! cid) as [l|] eqn:Hl; simpl.
  - destruct (Ht cid l Hl) as [Hne Hnd]. case_decide as Hin; [done |].
    split; [by destruct l |].
    apply NoDup_app. split_and!; [done | | apply NoDup_singleton].
    by intros x Hx ->%list_elem_of_singleton.
  - split; [done | apply NoDup_singleton].
Qed.

End FurtherFacts.

Section ReadingFacts.
Context {Any float : Type} {clock : Clock}.
Implicit Types (w : World Any float) (s : SharedMemory Any float)
  (e : MemoryEntry Any float) (pid cid : string).

Lemma omap_length_le {A B} (f : A → option B) (l : list A) :
  (length (omap f l) ≤ length l)%nat.
Proof.
  induction l as [|x l IH]; csimpl; [done |]. destruct (f x); csimpl; lia.
Qed.

Lemma collect_omap (mem : py.dict (MemoryEntry Any float)) (l : list string) h :
  collect mem l = Return h → h = omap (λ pid, py.get pid mem) l.
Proof.
  revert h. induction l as [|pid l IH]; simpl; intros h Hc.
  - by injection Hc.
  - destruct (py.get pid mem) as [e|] eqn:Hg; [| by apply IH].
    unfold _serialize_entry in Hc. destruct (classification e); [done |].
    destruct (collect mem l) as [h'|]; [| done].
    injection Hc as <-. by rewrite (IH h' eq_refl).
Qed.

(** The only exception that reading a conversation raises is the one of
    the serialisation, and a listed entry with a classification raises it. *)
Lemma collect_classified (mem : py.dict (MemoryEntry Any float)) (l : list string)
    pid e :
  pid ∈ l → py.get pid mem = Some e → classification e ≠ None →
  collect mem l = Raise py.TypeError.
Proof.
  intros Hin Hg Hc. induction l as [|p l IH]; [by apply elem_of_nil in Hin |].
  simpl. destruct (decide (p = pid)) as [-> | Hp].
  - rewrite Hg. unfold _serialize_entry. by destruct (classification e).
  - apply elem_of_cons in Hin as [-> | Hin]; [done |].
    rewrite (IH Hin). destruct (py.get p mem) as [e'|]; [| done].
    unfold _serialize_entry. by destruct (classification e').
Qed.

(** [_cleanup_if_needed] raises [ValueError] when the recorded time of the
    last sweep does not parse, [TypeError] when it parses to an offset-aware
    datetime, and the exception of [timedelta] when it parses to a naive
    datetime and the sweep interval is out of range. *)
Lemma _cleanup_if_needed_raises w err :
  match fromisoformat (last_cleanup (_stats (self w))) with
  | None => err = py.ValueError
  | Some Aware => err = py.TypeError
  | Some (Naive _) => timedelta (cleanup_hours (self w)) = Raise err
  end →
  ∃ w', _cleanup_if_needed w = (Raise err, w').
Proof.
  intros Herr. unfold _cleanup_if_needed.
  unfold bind at 1, get_self. unfold bind at 1.
  assert (∃ w1, (if len (_memory (self w)) >? max_entries (self w)
                 then _cleanup_old_entries else ret tt) w
                = (Return tt, w1)
                ∧ last_cleanup (_stats (self w1)) = last_cleanup (_stats (self w))
                ∧ cleanup_hours (self w1) = cleanup_hours (self w))
    as (w1 & -> & Hlc & Hh).
  { destruct (_ >? _).
    - destruct (_cleanup_old_entries_evolves w) as (w1 & ? & (_ & _ & ? & _) & ?).
      eauto.
    - by exists w. }
  unfold bind at 1, get_self. simpl. rewrite Hlc.
  destruct (fromisoformat _) as [[t|]|]; subst; [| by eexists | by eexists].
  unfold bind at 1, utcnow. simpl. rewrite Hh, Herr. by eexists.
Qed.

(** The ids that a filter keeps do not change when the value of an id is
    replaced by one that passes the filter exactly when the old one did. *)
Lemma filter_set_item_keys {V} (P : string * V → Prop) `{∀ x, Decision (P x)}
    (d : py.dict V) k v :
  (∀ v', py.get k d = Some v' → (P (k, v) ↔ P (k, v'))) →
  is_Some (py.get k d) →
  (filter P (py.set_item k v d)).*1 = (filter P d).*1.
Proof.
  induction d as [|[k' v'] d IH]; simpl; intros HP Hs; [by destruct Hs |].
  case_decide; subst.
  - specialize (HP v' eq_refl). rewrite !filter_cons.
    destruct (decide (P (k, v))), (decide (P (k, v'))); csimpl; tauto.
  - rewrite !filter_cons. specialize (IH HP Hs).
    destruct (decide (P (k', v'))); csimpl; by rewrite IH.
Qed.

(** A classification, once stored, stays on the record through later
    writes that leave the record in the table. *)
Lemma run_writes_classified pid (ops : list (write (Any:=Any) (float:=float))) :
  ∀ w,
  NoDup (_memory (self w)).*1 →
  (∀ e, py.get pid (_memory (self w)) = Some e → classification e ≠ None) →
  py.get pid (_memory (self w)) ≠ None →
  survives pid ops w →
  ∃ e', py.get pid (_memory (self (run_writes pid ops w))) = Some e'
        ∧ classification e' ≠ None.
Proof.
  induction ops as [|op ops IH]; intros w Hnd Hc Hlive Hs.
  - destruct (py.get pid (_memory (self w))) as [e|] eqn:Hg; [| done].
    exists e. split; [done | by apply Hc].
  - destruct Hs as [Hkeep Hs].
    change (run_writes pid (op :: ops) w)
      with (run_writes pid ops (apply_write pid op w).2).
    destruct (apply_write_history pid op w Hnd) as (Hnd1 & Hstay & _).
    destruct (py.get pid (_memory (self w))) as [e0|] eqn:Hg0; [| done].
    apply IH; [done | | | done].
    + intros e1 Hg1. destruct op as [md | c' | d | cid']; simpl in Hg1.
      * destruct (store_metadata_entry pid md w Hnd) as [_ He].
        rewrite (He e1 Hg1), Hg0. simpl. by apply Hc.
      * destruct (store_classification_run pid c' w) as (w1 & Hrun & Hm & _).
        rewrite Hrun in Hg1. simpl in Hg1.
        rewrite Hm, get_set_item_eq, Hg0 in Hg1. by injection Hg1 as <-.
      * destruct (store_extracted_data_run pid d w) as (w1 & Hrun & Hm & _).
        rewrite Hrun in Hg1. simpl in Hg1.
        rewrite Hm, get_set_item_eq, Hg0 in Hg1. injection Hg1 as <-.
        simpl. by apply Hc.
      * destruct (store_conversation_id_run pid cid' w) as (w1 & Hrun & Hm & _).
        rewrite Hrun in Hg1. simpl in Hg1.
        rewrite Hm, get_set_item_eq, Hg0 in Hg1. injection Hg1 as <-.
        simpl. by apply Hc.
    + destruct (is_metadata op) eqn:Hop; [by apply Hkeep |].
      apply not_eq_None_Some. by apply Hstay.
Qed.

(** After [store_classification] the table cannot be serialised. *)
Lemma store_classification_unserializable pid c w :
  serialize_all (_memory (self (store_classification pid c w).2))
  = Raise py.TypeError.
Proof.
  destruct (store_classification_run pid c w) as (w' & -> & Hm & _). simpl.
  rewrite serialize_all_spec, decide_False; [done |].
  rewrite Forall_forall. intros Hall.
  match type of Hm with _ = py.set_item _ ?x _ =>
    assert ((pid, x) ∈ _memory (self w')) as Hin
      by (rewrite Hm; apply get_Some_elem, get_set_item_eq) end.
  apply Hall in Hin. simpl in Hin.
  by destruct (py.get pid (_memory (self w))).
Qed.

End ReadingFacts.

(** * Further properties of the store *)

Section FurtherClaims.
Context {Any float : Type} {clock : Clock}.
Implicit Types (w : World Any float) (s : SharedMemory Any float)
  (e : MemoryEntry Any float) (pid cid : string)
  (op : write (Any:=Any) (float:=float)).

(** X1: the object is well formed in every world that the public methods
    reach from a new object.  The keys of the table are distinct; every
    entry is stored under its own [processing_id] and has a non-empty
    [agent_history]; every entry with a non-empty conversation id is listed
    in the bucket of that conversation; no bucket is empty or lists an id
    twice. *)
Theorem reachable_well_formed w : reachable w → well_formed (self w).
Proof.
  induction 1 as [? ? ? | pid md w _ IH | pid c w _ IH | pid d w _ IH
                 | pid cid w _ IH | pid w _ IH | w _ IH | w _ IH];
    try destruct IH as (Hok & Hk & Ht).
  - split_and!; [apply store_ok_init | |].
    + intros p e Hin. by apply elem_of_nil in Hin.
    + intros c b Hl. simpl in Hl. by rewrite lookup_empty in Hl.
  - split_and!;
      [by apply store_metadata_ok | by apply store_metadata_keyed
      | by apply store_metadata_tidy].
  - split_and!;
      [by apply store_classification_ok | by apply store_classification_keyed |].
    destruct (store_classification_run pid c w) as (w' & -> & _ & Hidx & _).
    intros c' b. simpl. rewrite Hidx. apply Ht.
  - split_and!;
      [by apply store_extracted_data_ok | by apply store_extracted_data_keyed |].
    destruct (store_extracted_data_run pid d w) as (w' & -> & _ & Hidx & _).
    intros c' b. simpl. rewrite Hidx. apply Ht.
  - split_and!;
      [by apply store_conversation_id_ok | by apply store_conversation_id_keyed
      | by apply store_conversation_id_tidy].
  - split_and!;
      [by apply clear_memory_ok | by apply clear_memory_keyed
      | by apply clear_memory_tidy].
  - split_and!; [apply clear_all_memory_ok | |].
    + intros p e Hin. by apply elem_of_nil in Hin.
    + intros c b Hl. simpl in Hl. by rewrite lookup_empty in Hl.
  - done.
Qed.

(** X2: the counters never drift.  In every world that the public methods
    reach, [total_entries] is the size of the table and
    [active_conversations] is the number of buckets, so a snapshot returned
    by [get_all_memory] carries statistics that agree with the entries and
    the index it carries. *)
Theorem reachable_stats_current w :
  reachable w →
  stats_current (self w)
  ∧ ∀ snap, get_all_memory (self w) = Return snap →
      total_entries (statistics snap) = len (entries snap)
      ∧ active_conversations (statistics snap)
        = Z.of_nat (size (conversation_index snap)).
Proof.
  intros Hr.
  assert (stats_current (self w)) as Hst.
  { induction Hr as [? ? ? | pid md w _ IH | pid c w _ IH | pid d w _ IH
                    | pid cid w _ IH | pid w _ IH | w _ IH | w _ IH].
    - split; [done |]. simpl. by rewrite map_size_empty.
    - apply store_metadata_stats.
    - unfold store_classification, try_except, bind. by rewrite upsert_run.
    - unfold store_extracted_data, try_except, bind. by rewrite upsert_run.
    - unfold store_conversation_id, try_except, bind. by rewrite upsert_run.
    - by apply clear_memory_stats.
    - split; [done |]. simpl. by rewrite map_size_empty.
    - done. }
  split; [done |]. intros snap Hsnap. unfold get_all_memory in Hsnap.
  destruct (serialize_all (_memory (self w))) as [es|] eqn:Hes; [| done].
  apply serialize_all_Return in Hes as ->. by injection Hsnap as <-.
Qed.

(** X3: on an object that satisfies its representation invariant,
    [clear_memory] never raises and never takes its [except] branch: it
    returns [True] exactly when the id has a record, removes that record
    and no other, keeps the order of the records that remain, and leaves
    the world as it was, clock included, when the id is unknown. *)
Theorem clear_memory_removes_exactly pid w :
  store_ok (self w) →
  ∃ w', clear_memory pid w
        = (Return (bool_decide (py.get pid (_memory (self w)) ≠ None)), w')
    ∧ _memory (self w') = filter (λ x, x.1 ≠ pid) (_memory (self w))
    ∧ py.get pid (_memory (self w')) = None
    ∧ (∀ p, p ≠ pid →
         py.get p (_memory (self w')) = py.get p (_memory (self w)))
    ∧ (py.get pid (_memory (self w)) = None → w' = w)
    ∧ store_ok (self w').
Proof.
  intros Hok. pose proof (clear_memory_ok w pid Hok) as Hok'.
  destruct (py.get pid (_memory (self w))) as [e|] eqn:Hg.
  - destruct (clear_memory_known w pid e (proj2 Hok) Hg)
      as (w' & Hrun & Hm & _).
    rewrite Hrun in Hok'. exists w'. rewrite bool_decide_eq_true_2 by done.
    split_and!; [done | | | | done | done].
    + rewrite Hm. apply del_item_filter, Hok.
    + rewrite Hm. apply get_del_item_eq, Hok.
    + intros p Hp. rewrite Hm. by apply get_del_item_ne.
  - rewrite clear_memory_unknown in Hok' |- * by done. exists w.
    rewrite bool_decide_eq_false_2 by (by intros ?).
    split_and!; try done.
    symmetry. apply filter_all. intros [k v] Hin Hk. simpl in Hk. subst k.
    apply get_None in Hg. apply Hg. by apply (list_elem_of_fmap_2 fst _ (pid, v)).
Qed.

(** X7: a write other than [store_metadata] touches one record and one
    field.  [store_classification], [store_extracted_data] and
    [store_conversation_id] to [pid] leave the record of every other id as
    it was.  On the record of [pid] itself, when there was one, the write
    changes the field it writes, adds its tag to the history, and keeps
    [processing_id], [timestamp] (the time of creation, which no update
    refreshes), the metadata and the fields of the other writers. *)
Theorem write_touches_one_record pid op w :
  is_metadata op = false →
  (∀ p, p ≠ pid →
     py.get p (_memory (self (apply_write pid op w).2))
     = py.get p (_memory (self w)))
  ∧ (∀ e, py.get pid (_memory (self w)) = Some e →
       ∃ e', py.get pid (_memory (self (apply_write pid op w).2)) = Some e'
       ∧ processing_id e' = processing_id e ∧ timestamp e' = timestamp e
       ∧ metadata e' = metadata e
       ∧ (classification e' =
          match op with PutClassification c => Some c | _ => classification e end)
       ∧ (extracted_data e' =
          match op with PutExtractedData d => Some d | _ => extracted_data e end)
       ∧ (conversation_id e' =
          match op with PutConversationId c => Some c | _ => conversation_id e end)
       ∧ agent_history e' = agent_history e ++ [tag false op]).
Proof.
  intros Hop. destruct op as [md | c | d | cid]; simpl; [done | | |].
  - destruct (store_classification_run pid c w) as (w' & -> & Hm & _).
    simpl. rewrite Hm. split.
    + intros p Hp. by apply get_set_item_ne.
    + intros e Hg. rewrite get_set_item_eq, Hg. by eexists.
  - destruct (store_extracted_data_run pid d w) as (w' & -> & Hm & _).
    simpl. rewrite Hm. split.
    + intros p Hp. by apply get_set_item_ne.
    + intros e Hg. rewrite get_set_item_eq, Hg. by eexists.
  - destruct (store_conversation_id_run pid cid w) as (w' & -> & Hm & _).
    simpl. rewrite Hm. split.
    + intros p Hp. by apply get_set_item_ne.
    + intros e Hg. rewrite get_set_item_eq, Hg. by eexists.
Qed.

(** X8: [store_metadata] can delete the record it has just updated.  When
    the id has a record, the table is within capacity, a sweep is due (the
    reading of the clock in [_cleanup_if_needed] is more than
    [cleanup_hours] after the recorded last sweep) and the sweep runs to
    its end (the sweep interval is a [timedelta], the cutoff is a datetime
    and no timestamp of the table is offset-aware), the call returns
    [True] and the ids it leaves are those of the entries that are not
    expired against the cutoff of the sweep.  Updates never refresh
    [timestamp], so a record created before the cutoff is gone when the
    call returns, with the metadata just written. *)
Theorem store_metadata_sweeps_updated_record pid md w e last t delta cutoff_time :
  store_ok (self w) →
  py.get pid (_memory (self w)) = Some e →
  len (_memory (self w)) ≤ max_entries (self w) →
  fromisoformat (last_cleanup (_stats (self w))) = Some (Naive last) →
  timedelta (cleanup_hours (self w)) = Return delta →
  utc (S (ticks w)) - last > delta →
  datetime_sub (utc (S (S (ticks w)))) delta = Return cutoff_time →
  (∀ x, x ∈ _memory (self w) → fromisoformat (timestamp x.2) ≠ Some Aware) →
  fromisoformat (timestamp e) = Some (Naive t) →
  t < cutoff_time →
  ∃ w', store_metadata pid md w = (Return true, w')
    ∧ (_memory (self w')).*1 =
      (filter (λ x, expired cutoff_time x ≠ Return true) (_memory (self w))).*1
    ∧ py.get pid (_memory (self w')) = None
    ∧ get_metadata pid (self w') = None.
Proof.
  intros Hok Hg Hcap Hparse Hdelta Hdue Hcut Hna Ht Hold.
  unfold store_metadata, try_except, bind at 1. rewrite upsert_run, Hg.
  unfold bind at 1. rewrite _update_stats_eq.
  unfold bind at 1, _cleanup_if_needed, bind at 1, get_self. simpl.
  unfold len in *. rewrite set_item_length, Hg.
  replace (Z.of_nat _ >? max_entries (self w)) with false
    by (symmetry; rewrite Z.gtb_ltb; apply Z.ltb_ge; lia).
  unfold bind at 1, ret, bind at 1, get_self. simpl. rewrite Hparse.
  unfold bind at 1, utcnow. simpl. rewrite Hdelta.
  unfold bind at 1, lift at 1, ret at 1.
  replace (_ >? delta) with true
    by (symmetry; rewrite Z.gtb_ltb; apply Z.ltb_lt; lia).
  match goal with |- context [_cleanup_expired_entries ?w0] =>
    destruct (_cleanup_expired_entries_run w0 delta cutoff_time)
      as (w' & Hrun & Hm & _) end; [| done | done | |].
  { eapply set_item_ok; [done | reflexivity | simpl; eauto | simpl].
    intros cid Hc Hne. by apply (proj2 Hok pid e cid). }
  { simpl. intros x [-> | Hx]%set_item_elem; [| by apply Hna].
    simpl. apply (Hna (pid, e)). by apply get_Some_elem. }
  rewrite Hrun. simpl in Hm. exists w'. split; [done |].
  assert (py.get pid (_memory (self w')) = None) as Hgone.
  { rewrite Hm. apply get_None.
    intros ([k v] & Hk & Hin)%list_elem_of_fmap. simpl in Hk. subst k.
    apply list_elem_of_filter in Hin as [Hexp Hin].
    apply elem_get_Some in Hin; [| by apply set_item_NoDup, Hok].
    rewrite get_set_item_eq in Hin. injection Hin as <-.
    apply Hexp. unfold expired. simpl. rewrite Ht. f_equal. by apply Z.ltb_lt. }
  split_and!; [| done |]; [| unfold get_metadata; by rewrite Hgone].
  rewrite Hm. apply filter_set_item_keys; [| by rewrite Hg].
  intros v' Hv'. assert (v' = e) as -> by congruence. done.
Qed.



(** X11: the list that [get_conversation_history] returns is in ascending
    order of the timestamp strings and holds one entry for each listed id
    that has a record, no more and no fewer: it is a rearrangement of the
    records of the bucket's live ids. *)
Theorem get_conversation_history_sorted cid s history :
  get_conversation_history cid s = Return history →
  StronglySorted (py.by_key timestamp) history
  ∧ history ≡ₚ omap (λ pid, py.get pid (_memory s))
                 (default [] (_conversation_index s !! cid))
  ∧ (length history ≤ length (default [] (_conversation_index s !! cid)))%nat.
Proof.
  unfold get_conversation_history. intros Hh.
  destruct (collect _ _) as [h|] eqn:Hc; [| done]. injection Hh as <-.
  apply collect_omap in Hc as ->. split_and!.
  - apply sorted_sorted.
  - apply sorted_perm.
  - rewrite sorted_length. apply omap_length_le.
Qed.

(** X12: [store_metadata] never raises, and it reports the failure of its
    retention run after the write.  It returns [True] when the retention
    run cannot raise.  It returns [False] when the recorded time of the
    last sweep does not parse or parses to an offset-aware datetime, and
    when the sweep interval is beyond the range of [timedelta]; the call
    that returns [False] for one of these reasons has stored the metadata
    all the same (shown here for a table within capacity). *)
Theorem store_metadata_fails_after_write pid md w :
  let last := fromisoformat (last_cleanup (_stats (self w))) in
  let fails :=
    last = None ∨ last = Some Aware
    ∨ timedelta (cleanup_hours (self w)) = Raise py.OverflowError in
  (∃ b w', store_metadata pid md w = (Return b, w')
     ∧ (retention_safe w → b = true)
     ∧ (fails → b = false))
  ∧ (fails →
     len (_memory (self w))
       + match py.get pid (_memory (self w)) with Some _ => 0 | None => 1 end
       ≤ max_entries (self w) →
     get_metadata pid (self (store_metadata pid md w).2)
     = Some (md ∪ default ∅ (get_metadata pid (self w)))).
Proof.
  intros last fails.
  assert (fails →
    ∃ err, match last with
           | None => err = py.ValueError
           | Some Aware => err = py.TypeError
           | Some (Naive _) => timedelta (cleanup_hours (self w)) = Raise err
           end) as Herr.
  { intros [Hl | [Hl | Hl]]; [rewrite Hl; by eexists .. |].
    destruct last as [[t|]|]; by eexists. }
  split.
  - destruct (store_metadata_run pid md w) as (b & w' & Hrun & _ & _ & _ & Hb).
    exists b, w'. split_and!; [done | done |].
    intros [err Herr']%Herr. revert Hrun.
    unfold store_metadata, try_except, bind at 1. rewrite upsert_run.
    unfold bind at 1. rewrite _update_stats_eq. unfold bind at 1.
    match goal with |- context [_cleanup_if_needed ?w0] =>
      destruct (_cleanup_if_needed_raises w0 err) as (w1 & ->) end; [done |].
    by intros [= <- _].
  - intros [err Herr']%Herr Hcap.
    unfold store_metadata, try_except, bind at 1. rewrite upsert_run.
    unfold bind at 1. rewrite _update_stats_eq.
    unfold bind at 1, _cleanup_if_needed, bind at 1, get_self. simpl.
    unfold len in *. rewrite set_item_length.
    replace (Z.of_nat _ >? max_entries (self w)) with false
      by (symmetry; rewrite Z.gtb_ltb; apply Z.ltb_ge;
          destruct (py.get pid (_memory (self w))); lia).
    unfold bind at 1, ret, bind at 1, get_self. simpl.
    fold last. destruct last as [[t|]|]; simpl.
    + unfold bind at 1, utcnow. simpl. rewrite Herr'.
      unfold get_metadata. simpl. rewrite get_set_item_eq.
      destruct (py.get pid (_memory (self w))); simpl; [done |].
      by rewrite (right_id_L ∅ (∪)).
    + unfold get_metadata. simpl. rewrite get_set_item_eq.
      destruct (py.get pid (_memory (self w))); simpl; [done |].
      by rewrite (right_id_L ∅ (∪)).
    + unfold get_metadata. simpl. rewrite get_set_item_eq.
      destruct (py.get pid (_memory (self w))); simpl; [done |].
      by rewrite (right_id_L ∅ (∪)).
Qed.

(** X13: registering a record twice in the same conversation lists it
    once.  The second [store_conversation_id] with the same arguments
    leaves the index and the keys of the table as the first left them; it
    is not a no-op on the record, whose history grows by one tag. *)
Theorem store_conversation_id_twice pid cid w :
  let w1 := (store_conversation_id pid cid w).2 in
  let w2 := (store_conversation_id pid cid w1).2 in
  _conversation_index (self w2) = _conversation_index (self w1)
  ∧ (_memory (self w2)).*1 = (_memory (self w1)).*1
  ∧ ∃ e1 e2,
      py.get pid (_memory (self w1)) = Some e1
      ∧ py.get pid (_memory (self w2)) = Some e2
      ∧ conversation_id e1 = Some cid ∧ conversation_id e2 = Some cid
      ∧ agent_history e2 = agent_history e1 ++ ["conversation_id_stored"].
Proof.
  intros w1 w2. subst w2 w1.
  destruct (store_conversation_id_run pid cid w) as (w1 & -> & Hm1 & Hidx1 & _).
  simpl.
  destruct (store_conversation_id_run pid cid w1) as (w2 & -> & Hm2 & Hidx2 & _).
  simpl. rewrite Hm1, get_set_item_eq in Hm2.
  split_and!.
  - rewrite Hidx2, Hidx1, lookup_insert_eq. simpl.
    assert (pid ∈ (if decide (pid ∈ default [] (_conversation_index (self w) !! cid))
                   then default [] (_conversation_index (self w) !! cid)
                   else default [] (_conversation_index (self w) !! cid) ++ [pid]))
      as Hin by (case_decide; set_solver).
    rewrite decide_True by done. by rewrite insert_insert_eq.
  - rewrite Hm2, set_item_keys, get_set_item_eq, <- Hm1. done.
  - eexists _, _. rewrite Hm2, Hm1, !get_set_item_eq.
    split_and!; try done; by destruct (py.get pid (_memory (self w))).
Qed.


End FurtherClaims.

(** * Properties of the endpoints *)

Section EndpointClaims.
Context {Any float : Type} {clock : Clock}.
Implicit Types (w : World Any float) (s : SharedMemory Any float)
  (e : MemoryEntry Any float) (pid cid : string).


(** X16: [DELETE /memory/{processing_id}] never answers 404 either: for
    an unknown id the store returns [False], the [HTTPException(404)] is
    raised inside the [try], and the answer is 500, with the store
    untouched.  On an object that satisfies its representation invariant a
    known id is answered with the success message and its record is
    gone. *)
Theorem clear_memory_endpoint_never_404 pid w :
  (main.clear_memory pid w).1 ≠ main.Fail (main.HTTPException 404)
  ∧ (py.get pid (_memory (self w)) = None →
     main.clear_memory pid w = (main.Fail (main.HTTPException 500), w))
  ∧ (store_ok (self w) → py.get pid (_memory (self w)) ≠ None →
     (main.clear_memory pid w).1 = main.Respond "Memory cleared successfully"
     ∧ py.get pid (_memory (self (main.clear_memory pid w).2)) = None).
Proof.
  unfold main.clear_memory. split_and!.
  - destruct (clear_memory_evolves w pid) as (b & w' & -> & _).
    by destruct b.
  - intros Hg. by rewrite clear_memory_unknown.
  - intros Hok Hg.
    destruct (py.get pid (_memory (self w))) as [e|] eqn:He; [| done].
    destruct (clear_memory_known w pid e (proj2 Hok) He)
      as (w' & -> & Hm & _).
    simpl. split; [done |]. rewrite Hm. apply get_del_item_eq, Hok.
Qed.


End EndpointClaims.

(** * Facts about strings *)

Section StrFacts.
Implicit Types (s t p : string).

Lemma append_cons c s t : String c s +:+ t = String c (s +:+ t).
Proof. reflexivity. Qed.

Lemma append_assoc s t u : (s +:+ t) +:+ u = s +:+ (t +:+ u).
Proof.
  induction s as [|c s IH]; [done |]. by rewrite !append_cons, IH.
Qed.

Lemma append_nil_r s : s +:+ EmptyString = s.
Proof. induction s as [|c s IH]; [done |]. by rewrite append_cons, IH. Qed.

Lemma rev_app_append s t : String.rev_app s t = String.rev s +:+ t.
Proof.
  unfold String.rev. revert t.
  induction s as [|c s IH]; intros t; simpl; [done |].
  rewrite (IH (String c t)), (IH (String c EmptyString)).
  by rewrite append_assoc.
Qed.

Lemma rev_cons c s : String.rev (String c s) = String.rev s +:+ String c EmptyString.
Proof. unfold String.rev at 1. simpl. apply rev_app_append. Qed.

Lemma rev_append s t : String.rev (s +:+ t) = String.rev t +:+ String.rev s.
Proof.
  induction s as [|c s IH]; [by rewrite append_nil_r |].
  by rewrite append_cons, !rev_cons, IH, append_assoc.
Qed.

Lemma rev_involutive s : String.rev (String.rev s) = s.
Proof.
  induction s as [|c s IH]; [done |].
  by rewrite rev_cons, rev_append, IH.
Qed.

Lemma prefix_append p s t :
  String.prefix p s = true → String.prefix p (s +:+ t) = true.
Proof.
  revert s. induction p as [|c p IH]; intros s.
  - intros _. by destruct (s +:+ t).
  - destruct s as [|c' s]; [done |]. rewrite append_cons. simpl.
    destruct (ascii_dec c c'); [apply IH | done].
Qed.

Lemma contains_append_l p s t :
  str.contains p s = true → str.contains p (s +:+ t) = true.
Proof.
  induction s as [|c s IH].
  - simpl. rewrite orb_false_r. intros Hp. destruct p; [| done].
    by destruct t.
  - rewrite append_cons. simpl.
    intros [Hp | Hc]%orb_true_iff; apply orb_true_iff.
    + left. by apply (prefix_append p (String c s) t).
    + right. by apply IH.
Qed.

Lemma contains_append_r p s t :
  str.contains p t = true → str.contains p (s +:+ t) = true.
Proof.
  intros Hp. induction s as [|c s IH]; [done |].
  rewrite append_cons. simpl. rewrite IH. apply orb_true_r.
Qed.

Lemma lower_append s t : str.ascii_lower (s +:+ t) = str.ascii_lower s +:+ str.ascii_lower t.
Proof.
  induction s as [|c s IH]; [done |].
  rewrite append_cons. simpl. by rewrite IH.
Qed.

(** [strip] leaves a text that starts and ends with a character that is
    not a space as it is. *)
Lemma strip_id c s c' :
  str.isspace c = false → str.isspace c' = false →
  str.ascii_strip (String c (s +:+ String c' EmptyString))
  = String c (s +:+ String c' EmptyString).
Proof.
  intros Hc Hc'. unfold str.ascii_strip. simpl. rewrite Hc.
  rewrite rev_cons, rev_append.
  change (String.rev (String c' EmptyString)) with (String c' EmptyString).
  rewrite !append_cons. simpl. rewrite Hc'.
  change (EmptyString +:+ String.rev s) with (String.rev s).
  rewrite rev_cons, rev_append, rev_involutive.
  change (String.rev (String c EmptyString)) with (String c EmptyString).
  by rewrite append_assoc.
Qed.

Lemma count_zero (patterns : list string) s :
  str.count patterns s = 0%nat
  ↔ Forall (λ pattern, str.contains pattern s = false) patterns.
Proof.
  induction patterns as [|p ps IH]; simpl; [by split; [constructor |] |].
  rewrite Forall_cons, <- IH.
  destruct (str.contains p s); split; (lia || intros [? ?]; (done || lia)).
Qed.

Lemma count_le (patterns : list string) s :
  (str.count patterns s ≤ length patterns)%nat.
Proof.
  induction patterns as [|p ps IH]; simpl; [done |].
  destruct (str.contains p s); lia.
Qed.

End StrFacts.

(** * Facts about the classifier *)

Section ClassifierFacts.
Import PrimFloat.
Context {methods : str.Methods} {parser : json.Parser}
  {gemini : classifier.Gemini} {rendering : classifier.Rendering}.

Lemma filter_split {A} (P : A → Prop) `{!∀ x, Decision (P x)}
    (l l1 l2 : list A) (x : A) :
  filter P l = l1 ++ x :: l2 →
  ∃ b a, l = b ++ x :: a ∧ filter P b = l1 ∧ filter P a = l2.
Proof.
  revert l1. induction l as [|y l IH]; intros l1 Hf.
  - by destruct l1.
  - rewrite filter_cons in Hf. destruct (decide (P y)) as [Hy | Hy].
    + destruct l1 as [|z l1]; simpl in Hf; injection Hf as -> Hf.
      * exists [], l. by rewrite filter_nil.
      * destruct (IH l1 Hf) as (b & a & -> & Hb & Ha).
        exists (z :: b), a. split_and!; [done | | done].
        by rewrite filter_cons_True, Hb.
    + destruct (IH l1 Hf) as (b & a & -> & Hb & Ha).
      exists (y :: b), a. split_and!; [done | | done].
      by rewrite filter_cons_False.
Qed.

(** [max(d, key=d.get)]: the key returned has the greatest value, and no
    key before it has a value as great. *)
Lemma max_by_value_spec (d : list (string * nat)) : ∀ best,
  ∃ before v after,
    best :: d = before ++ (builtins.max_by_value best d, v) :: after
    ∧ Forall (λ x, (x.2 < v)%nat) before
    ∧ Forall (λ x, (x.2 ≤ v)%nat) after.
Proof.
  induction d as [|x d IH]; intros best.
  - exists [], best.2, []. destruct best. by split_and!.
  - simpl. destruct (Nat.ltb_spec best.2 x.2) as [Hlt | Hge].
    + destruct (IH x) as (b & v & a & Heq & Hb & Ha).
      exists (best :: b), v, a. split_and!; [by rewrite Heq | | done].
      constructor; [| done].
      destruct b as [|y b]; simpl in Heq; injection Heq as Hx _.
      * apply (f_equal snd) in Hx. simpl in Hx. lia.
      * subst y. apply Forall_cons in Hb as [Hy _]. lia.
    + destruct (IH best) as (b & v & a & Heq & Hb & Ha).
      destruct b as [|y b]; simpl in Heq; injection Heq as Hbest Hd.
      * exists [], v, (x :: a). split_and!; [| done |].
        { simpl. rewrite <- Hbest. by rewrite Hd. }
        constructor; [| done].
        apply (f_equal snd) in Hbest. simpl in Hbest. lia.
      * subst y. exists (best :: x :: b), v, a. split_and!; [| | done].
        { simpl. by rewrite <- Hd. }
        apply Forall_cons in Hb as [Hy Hb].
        constructor; [done |]. constructor; [lia | done].
Qed.

(** The scores of the six intents, in the order of [intent_patterns]. *)
Lemma intent_scores_keys content_lower x :
  x ∈ classifier.intent_scores content_lower →
  x.1 ∈ ["invoice"; "rfq"; "complaint"; "regulation"; "support"; "order"].
Proof.
  unfold classifier.intent_scores. intros [_ Hx]%list_elem_of_filter.
  by apply (list_elem_of_fmap_2 fst) in Hx.
Qed.

Lemma _pattern_based_intent_known content :
  classifier._pattern_based_intent content ≠ "unknown" →
  ∃ v, (classifier._pattern_based_intent content, v)
       ∈ classifier.intent_scores (str.lower content).
Proof.
  unfold classifier._pattern_based_intent.
  destruct (classifier.intent_scores _) as [|x d]; [done |]. intros _.
  destruct (max_by_value_spec d x) as (b & v & a & -> & _).
  exists v. apply elem_of_app. right. left.
Qed.

Lemma _pattern_based_intent_range content :
  classifier._pattern_based_intent content
  ∈ ["invoice"; "rfq"; "complaint"; "regulation"; "support"; "order"; "unknown"].
Proof.
  change ["invoice"; "rfq"; "complaint"; "regulation"; "support"; "order"; "unknown"]
    with (["invoice"; "rfq"; "complaint"; "regulation"; "support"; "order"]
          ++ ["unknown"]).
  apply elem_of_app.
  destruct (decide (classifier._pattern_based_intent content = "unknown"))
    as [-> | Hne]; [right; left |].
  destruct (_pattern_based_intent_known content Hne) as [v Hv].
  apply intent_scores_keys in Hv. by left.
Qed.

Lemma _calculate_confidence_range content format_type intent :
  leb 0 (classifier._calculate_confidence content format_type intent) = true
  ∧ leb (classifier._calculate_confidence content format_type intent) 1 = true.
Proof.
  unfold classifier._calculate_confidence. cbv zeta.
  unfold str.count.
  destruct (String.eqb format_type "json");
    [destruct (json.loads content) as [[]|]
    | destruct (String.eqb format_type "email");
      [destruct (str.contains "from:" _), (str.contains "to:" _),
                (str.contains "subject:" _)
      | destruct (String.eqb format_type "pdf")]];
    (destruct (negb (String.eqb intent "unknown"));
     [destruct (String.eqb (classifier._pattern_based_intent content) intent) |]);
    split; vm_compute; reflexivity.
Qed.

End ClassifierFacts.

(** * Properties of the classifier *)

Section ClassifierClaims.
Import PrimFloat.
#[local] Set Warnings "-inexact-float".
Context {methods : str.Methods} {parser : json.Parser}
  {gemini : classifier.Gemini} {rendering : classifier.Rendering}.

(** X18: [_pattern_based_intent] returns ["unknown"] exactly when no
    keyword of any intent occurs in the lowered content.  Otherwise it
    returns an intent whose keyword count is positive and greatest, and
    among the intents with the greatest count the first in the order
    invoice, rfq, complaint, regulation, support, order: every intent
    before it has a strictly smaller count. *)
Theorem pattern_based_intent_first_best content :
  let scores :=
    (λ x, (x.1, str.count x.2 (str.lower content)))
      <$> classifier.intent_patterns in
  (classifier._pattern_based_intent content = "unknown"
   ↔ Forall (λ x, x.2 = 0%nat) scores)
  ∧ (classifier._pattern_based_intent content ≠ "unknown" →
     ∃ before v after,
       scores = before ++ (classifier._pattern_based_intent content, v) :: after
       ∧ (0 < v)%nat
       ∧ Forall (λ x, (x.2 < v)%nat) before
       ∧ Forall (λ x, (x.2 ≤ v)%nat) after).
Proof.
  intros scores.
  assert (classifier.intent_scores (str.lower content)
          = filter (λ x, (0 < x.2)%nat) scores) as Hscores by done.
  split; [split |].
  - intros Hu. apply Forall_forall. intros y Hy.
    destruct (decide (0 < y.2)%nat) as [Hpos | Hz]; [| lia]. exfalso.
    assert (y ∈ classifier.intent_scores (str.lower content)) as Hin
      by (rewrite Hscores; by apply list_elem_of_filter).
    unfold classifier._pattern_based_intent in Hu.
    destruct (classifier.intent_scores _) as [|x d] eqn:Hs;
      [by apply elem_of_nil in Hin |].
    destruct (max_by_value_spec d x) as (b & v & a & Heq & _).
    assert ((builtins.max_by_value x d, v)
            ∈ classifier.intent_scores (str.lower content)) as Hr.
    { rewrite Hs, Heq. apply elem_of_app. right. left. }
    apply intent_scores_keys in Hr. simpl in Hr. rewrite Hu in Hr.
    repeat (apply elem_of_cons in Hr as [Hr | Hr]; [done |]).
    by apply elem_of_nil in Hr.
  - intros Hall. unfold classifier._pattern_based_intent.
    rewrite Hscores, (filter_none _ scores); [done |].
    intros y Hy. rewrite Forall_forall in Hall. specialize (Hall y Hy). lia.
  - intros Hne. unfold classifier._pattern_based_intent in *.
    destruct (classifier.intent_scores _) as [|x d] eqn:Hs; [done |].
    destruct (max_by_value_spec d x) as (b & v & a & Heq & Hb & Ha).
    rewrite Heq in Hscores. symmetry in Hscores.
    pose proof Hscores as Hsplit.
    apply filter_split in Hsplit as (b' & a' & Hsc & Hfb & Hfa).
    assert (0 < v)%nat as Hv.
    { assert ((builtins.max_by_value x d, v) ∈ filter (λ x, (0 < x.2)%nat) scores)
        as Hin by (rewrite Hscores; apply elem_of_app; right; left).
      by apply list_elem_of_filter in Hin as [? _]. }
    exists b', v, a'. split_and!; [done | done | |].
    + apply Forall_forall. intros y Hy.
      destruct (decide (0 < y.2)%nat) as [Hpos | Hz]; [| lia].
      rewrite Forall_forall in Hb. apply Hb. rewrite <- Hfb.
      by apply list_elem_of_filter.
    + apply Forall_forall. intros y Hy.
      destruct (decide (0 < y.2)%nat) as [Hpos | Hz]; [| lia].
      rewrite Forall_forall in Ha. apply Ha. rewrite <- Hfa.
      by apply list_elem_of_filter.
Qed.

(** X19: [_classify_intent] never raises and consults the model only
    when no keyword matches: with a keyword in the content the result is
    the pattern-based intent, whatever the model would answer.  The result
    is one of the seven valid intents or ["unknown"], and it is
    ["unknown"] exactly when no keyword matches and the call of the model
    raises. *)
Theorem classify_intent_prefers_keywords content format_type :
  (classifier._pattern_based_intent content ≠ "unknown" →
   classifier._classify_intent content format_type
   = classifier._pattern_based_intent content)
  ∧ (classifier._classify_intent content format_type = "unknown"
     ↔ classifier._pattern_based_intent content = "unknown"
       ∧ classifier.generate_response format_type content = None)
  ∧ classifier._classify_intent content format_type
    ∈ ["invoice"; "rfq"; "complaint"; "regulation"; "support"; "order";
       "general"; "unknown"].
Proof.
  unfold classifier._classify_intent. cbv zeta.
  pose proof (_pattern_based_intent_range content) as Hrange.
  destruct (String.eqb_spec (classifier._pattern_based_intent content) "unknown")
    as [Hu | Hne]; simpl.
  - rewrite Hu. split_and!; [done | |].
    + destruct (classifier.generate_response format_type content) as [r|];
        [| done].
      split; [| by intros [_ ?]].
      case_bool_decide as Hin; [| done]. intros Heq. rewrite Heq in Hin.
      exfalso. repeat (apply elem_of_cons in Hin as [Hin | Hin]; [done |]).
      by apply elem_of_nil in Hin.
    + destruct (classifier.generate_response format_type content) as [r|].
      * case_bool_decide as Hin.
        -- change ["invoice"; "rfq"; "complaint"; "regulation"; "support";
                   "order"; "general"; "unknown"]
             with (["invoice"; "rfq"; "complaint"; "regulation"; "support";
                    "order"; "general"] ++ ["unknown"]).
           apply elem_of_app. by left.
        -- do 6 right. left.
      * do 7 right. left.
  - split_and!; [done | by split; [| intros [? _]] |].
    change ["invoice"; "rfq"; "complaint"; "regulation"; "support"; "order";
            "unknown"]
      with (["invoice"; "rfq"; "complaint"; "regulation"; "support"; "order"]
            ++ ["unknown"]) in Hrange.
    apply elem_of_app in Hrange as [Hr | Hr%list_elem_of_singleton]; [| done].
    change ["invoice"; "rfq"; "complaint"; "regulation"; "support"; "order";
            "general"; "unknown"]
      with (["invoice"; "rfq"; "complaint"; "regulation"; "support"; "order"]
            ++ ["general"; "unknown"]).
    apply elem_of_app. by left.
Qed.

(** X20: the confidence that [_calculate_confidence] returns lies between
    0 and 1 for every content, format and intent, so the validation of
    [ClassificationResult] ([ge=0.0], [le=1.0]) accepts it; and a content
    detected as an e-mail that holds none of [from:], [to:], [subject:]
    gets 0.2 at most. *)
Theorem calculate_confidence_valid content format_type intent timestamp error :
  let c := classifier._calculate_confidence content format_type intent in
  (0 <=? c)%float = true ∧ (c <=? 1)%float = true
  ∧ classifier.new_ClassificationResult format_type intent c timestamp error
    = Return {| schemas.format := format_type; schemas.intent := intent;
                schemas.confidence := c; schemas.timestamp := timestamp;
                schemas.error := error |}
  ∧ (format_type = "email" →
     str.count ["from:"; "to:"; "subject:"] (str.lower content) = 0%nat →
     (c <=? 0.2)%float = true).
Proof.
  intros c. destruct (_calculate_confidence_range content format_type intent)
    as [Hlo Hhi]. fold c in Hlo, Hhi.
  split_and!; [done | done | |].
  - unfold classifier.new_ClassificationResult. by rewrite Hlo, Hhi.
  - intros -> Hcount. subst c. unfold classifier._calculate_confidence.
    cbv zeta. rewrite Hcount. simpl.
    destruct (negb (String.eqb intent "unknown"));
      [destruct (String.eqb (classifier._pattern_based_intent content) intent) |];
      vm_compute; reflexivity.
Qed.


End ClassifierClaims.

Section PdfUpload.

Lemma pdf_text_shape filename :
  classifier.pdf_text filename
  = String "["
      (("PDF Content] Extracted text from " +:+ filename +:+
        ". This is a mock extraction. In production, implement proper PDF parsing")
       +:+ String "." EmptyString).
Proof.
  unfold classifier.pdf_text. rewrite append_cons. f_equal.
  by rewrite !append_assoc.
Qed.

Lemma pdf_text_strip filename :
  str.ascii_strip (classifier.pdf_text filename) = classifier.pdf_text filename.
Proof. rewrite pdf_text_shape. by apply strip_id. Qed.

Lemma pdf_text_lower filename :
  str.ascii_lower (classifier.pdf_text filename)
  = String "["
      (("pdf content] extracted text from " +:+ str.ascii_lower filename +:+
        ". this is a mock extraction. in production, implement proper pdf parsing")
       +:+ String "." EmptyString).
Proof.
  rewrite pdf_text_shape.
  change (str.ascii_lower (String "[" ?s)) with (String "[" (str.ascii_lower s)).
  by rewrite !lower_append.
Qed.

(** X22: an upload whose name ends in [.pdf] is never detected as a PDF.
    The text that [process_file] builds for it holds the word [This],
    hence the e-mail indicator [hi], and the e-mail test comes before the
    PDF test: [_detect_format] answers ["email"], whatever the (ASCII)
    file name. *)
Theorem pdf_upload_detected_as_email (parser : json.Parser) filename :
  str.isascii filename = true →
  classifier._detect_format (methods := str.ascii) (classifier.pdf_text filename)
  = Return "email".
Proof.
  intros _. unfold classifier._detect_format. cbv zeta.
  unfold str.lower, str.strip, str.ascii.
  rewrite pdf_text_strip.
  assert (str.startswith "{" (classifier.pdf_text filename) = false) as ->
    by (by rewrite pdf_text_shape).
  cbn [andb].
  assert (str.ascii_strip (str.ascii_lower (classifier.pdf_text filename))
          = str.ascii_lower (classifier.pdf_text filename)) as ->
    by (rewrite pdf_text_lower; by apply strip_id).
  match goal with |- context [existsb ?f ?l] =>
    assert (existsb f l = true) as ->; [| done] end.
  apply existsb_exists. exists "hi". split; [do 8 right; by left |].
  cbv beta. rewrite pdf_text_lower.
  apply (contains_append_r _ (String "[" EmptyString)).
  apply contains_append_l, contains_append_r, contains_append_r.
  by vm_compute.
Qed.

End PdfUpload.

(** * Facts about the urgency of an e-mail *)

Section UrgencyFacts.
Import PrimFloat.
#[local] Set Warnings "-inexact-float".
Context {methods : str.Methods}.

Lemma head_prefix n s : ∃ t, s = str.head n s +:+ t.
Proof.
  revert n. induction s as [|c s IH]; intros n; [by exists EmptyString |].
  simpl. destruct (str.continuation c).
  - destruct (IH n) as [t Ht]. exists t. by rewrite append_cons, <- Ht.
  - destruct n as [|n]; [by exists (String c s) |].
    destruct (IH n) as [t Ht]. exists t. by rewrite append_cons, <- Ht.
Qed.

Lemma contains_head pattern n s :
  str.contains pattern (str.head n s) = true → str.contains pattern s = true.
Proof.
  intros Hc. destruct (head_prefix n s) as [t Ht]. rewrite Ht.
  by apply contains_append_l.
Qed.

Lemma existsb_false {A} (f : A → bool) (l : list A) :
  existsb f l = false ↔ ∀ x, x ∈ l → f x = false.
Proof.
  induction l as [|y l IH]; simpl.
  - split; [by intros _ x ?%elem_of_nil | done].
  - rewrite orb_false_iff, IH. split.
    + intros [Hy Hl] x [-> | Hx]%elem_of_cons; auto.
    + intros Hall. split; [apply Hall; left | intros x Hx; apply Hall; by right].
Qed.

(** An entry of [urgency_scores] is a level with the positive count of
    its indicators. *)
Lemma urgency_scores_entry content_lower k v :
  (k, v) ∈ filter (λ x, (0 < x.2)%nat)
             ((λ x, (x.1, str.count x.2 content_lower))
                <$> email_agent.urgency_indicators) →
  (0 < v)%nat
  ∧ ∃ indicators,
      (k, indicators) ∈ email_agent.urgency_indicators
      ∧ v = str.count indicators content_lower.
Proof.
  intros [Hpos Hin]%list_elem_of_filter. split; [done |].
  apply list_elem_of_fmap in Hin as ([k' inds] & [= -> ->] & Hin). eauto.
Qed.

End UrgencyFacts.

Section UrgencyClaims.
Import PrimFloat.
#[local] Set Warnings "-inexact-float".
Context {methods : str.Methods}.

(** X23: [_classify_urgency] never raises; its level is high, medium or
    low and its confidence is greater than 0 and at most 1.  The level is
    ["medium"] only when none of [urgent], [asap], [important],
    [priority] occurs in the first 200 characters of the lowered content
    (such an e-mail is promoted to ["high"]), and an e-mail without any
    urgency indicator is ["medium"] with confidence 0.3. *)
Theorem classify_urgency_levels content :
  ∃ u,
    email_agent._classify_urgency content = Return u
    ∧ email_agent.level u ∈ ["high"; "medium"; "low"]
    ∧ (0 <? email_agent.confidence u)%float = true
    ∧ (email_agent.confidence u <=? 1)%float = true
    ∧ (email_agent.level u = "medium" →
       ∀ indicator, indicator ∈ ["urgent"; "asap"; "important"; "priority"] →
         str.contains indicator (str.head 200 (str.lower content)) = false)
    ∧ (email_agent.indicators_found u = [] →
       u = {| email_agent.level := "medium";
              email_agent.confidence := 0.3;
              email_agent.indicators_found := [] |}).
Proof.
  unfold email_agent._classify_urgency. cbv zeta.
  set (flag := existsb _ _).
  assert (flag = false →
          ∀ indicator, indicator ∈ ["urgent"; "asap"; "important"; "priority"] →
            str.contains indicator (str.head 200 (str.lower content)) = false)
    as Hflag by (intros Hf; by apply existsb_false).
  pose proof (urgency_scores_entry (str.lower content)) as Hentry.
  destruct (filter _ _) as [|x d] eqn:Hs.
  - assert (flag = false) as Hf.
    { apply existsb_false. intros indicator Hin.
      destruct (str.contains indicator (str.head 200 (str.lower content)))
        eqn:Hc; [| done].
      apply contains_head in Hc. exfalso.
      assert (∀ k inds, (k, inds) ∈ email_agent.urgency_indicators →
                indicator ∈ inds → False) as Hno.
      { intros k inds Hk Hi.
        destruct (decide (0 < str.count inds (str.lower content))%nat)
          as [Hpos | Hz].
        - assert ((k, str.count inds (str.lower content))
                  ∈ filter (λ x, (0 < x.2)%nat)
                      ((λ x, (x.1, str.count x.2 (str.lower content)))
                         <$> email_agent.urgency_indicators)) as Hin'.
          { apply list_elem_of_filter. split; [done |].
            by apply (list_elem_of_fmap_2
                        (λ x, (x.1, str.count x.2 (str.lower content)))
                        _ (k, inds)). }
          rewrite Hs in Hin'. by apply elem_of_nil in Hin'.
        - assert (str.count inds (str.lower content) = 0%nat) as Hz' by lia.
          apply count_zero in Hz'. rewrite Forall_forall in Hz'.
          specialize (Hz' indicator Hi). congruence. }
      repeat (apply elem_of_cons in Hin as [-> | Hin]);
        [ apply (Hno "high" ["urgent"; "asap"; "emergency"; "critical";
                             "immediate"; "rush"; "!!!"]);
            [left | left]
        | apply (Hno "high" ["urgent"; "asap"; "emergency"; "critical";
                             "immediate"; "rush"; "!!!"]);
            [left | right; left]
        | apply (Hno "medium" ["soon"; "priority"; "important"; "quickly";
                               "expedite"]);
            [right; left | do 2 right; left]
        | apply (Hno "medium" ["soon"; "priority"; "important"; "quickly";
                               "expedite"]);
            [right; left | right; left]
        | by apply elem_of_nil in Hin ]. }
    rewrite Hf. simpl. eexists. split; [done |]. simpl.
    split_and!; [right; left | done | done | by intros _; apply Hflag | done].
  - destruct (max_by_value_spec d x) as (b & v0 & a & Heq & _).
    assert (builtins.max_by_value x d ∈ (x :: d).*1) as Hkey.
    { rewrite Heq, fmap_app. apply elem_of_app. right. left. }
    apply get_is_Some in Hkey as [v Hget].
    pose proof (get_Some_elem _ _ _ Hget) as Hin.
    apply Hentry in Hin as (Hpos & inds & Hinds & Hv).
    pose proof (count_le inds (str.lower content)) as Hle.
    rewrite <- Hv in Hle. clear Hv Hentry Heq.
    unfold builtins.item at 1. rewrite Hget.
    repeat (apply elem_of_cons in Hinds as [[= Htop ->] | Hinds]);
      [| | | by apply elem_of_nil in Hinds];
      rewrite Htop; simpl in Hle;
      destruct v as [|[|[|[|[|[|[|[|v]]]]]]]]; try lia;
      destruct flag eqn:Hf; simpl;
      (eexists; split; [done |]; simpl;
       split_and!;
       [ first [left | right; left | do 2 right; left]
       | done | done | first [done | by intros _; apply Hflag] | done ]).
Qed.

End UrgencyClaims.

(** * The further properties on the worked configurations *)

Section FurtherWorked.
Existing Instance steady.

Lemma thread_reachable : reachable thread.
Proof.
  unfold thread, fresh.
  do 2 apply reach_store_conversation_id. apply reach_store_metadata.
  apply reach_init.
Qed.

(** X1, witness: the conversation of two messages after the first message
    has been cleared. *)
Lemma reachable_well_formed_witness :
  well_formed (self (clear_memory "m1" thread).2).
Proof.
  apply (reachable_well_formed (clear_memory "m1" thread).2).
  apply reach_clear_memory, thread_reachable.
Defined.

(** X2, witness: the counters of the conversation of two messages. *)
Lemma reachable_stats_current_witness :
  stats_current (self thread)
  ∧ ∀ snap, get_all_memory (self thread) = Return snap →
      total_entries (statistics snap) = len (entries snap)
      ∧ active_conversations (statistics snap)
        = Z.of_nat (size (conversation_index snap)).
Proof. apply (reachable_stats_current thread), thread_reachable. Defined.

Example thread_counters :
  total_entries (_stats (self thread)) = 2
  ∧ active_conversations (_stats (self thread)) = 1.
Proof. by vm_compute. Qed.

(** X3, witness: clearing the first message of the conversation. *)
Lemma clear_memory_removes_exactly_witness :
  ∃ w', clear_memory "m1" thread
        = (Return (bool_decide (py.get "m1" (_memory (self thread)) ≠ None)), w')
    ∧ _memory (self w') = filter (λ x, x.1 ≠ "m1") (_memory (self thread))
    ∧ py.get "m1" (_memory (self w')) = None
    ∧ (∀ p, p ≠ "m1" →
         py.get p (_memory (self w')) = py.get p (_memory (self thread)))
    ∧ (py.get "m1" (_memory (self thread)) = None → w' = thread)
    ∧ store_ok (self w').
Proof.
  apply (clear_memory_removes_exactly "m1" thread).
  apply reachable_ok, thread_reachable.
Defined.

(** X4, witness: [store_metadata] on the store that is over capacity. *)
Lemma store_metadata_bounded_witness :
  len (_memory (self (store_metadata "c" ∅ crowded).2)) ≤ max_entries (self crowded).
Proof.
  apply (store_metadata_bounded "c" ∅ crowded); [apply crowded_ok |].
  by vm_compute.
Defined.

(** X5, witness: two registrations in one conversation and a deletion. *)
Lemma settled_calls_consistent_witness :
  index_consistent
    (self (foldl (λ w c, (index_step c w).2) fresh
             [Register "m1" "thread"; Register "m2" "thread"; Clear "m1"])).
Proof.
  apply (settled_calls_consistent
           [Register "m1" "thread"; Register "m2" "thread"; Clear "m1"] fresh).
  - apply index_exact_init.
  - repeat split; try done; intros e He; by vm_compute in He.
Defined.

(** X6, witness: a first [store_metadata] on the default store. *)
Lemma store_metadata_quiet_witness :
  ∃ w' e', store_metadata "m1" {["source" := 1]} fresh = (Return true, w')
    ∧ (_memory (self w')).*1 =
      (_memory (self fresh)).*1
      ++ match py.get "m1" (_memory (self fresh)) with
         | Some _ => [] | None => ["m1"]
         end
    ∧ py.get "m1" (_memory (self w')) = Some e'
    ∧ metadata e' = {["source" := 1]} ∪ default ∅ (get_metadata "m1" (self fresh))
    ∧ agent_history e' =
      match py.get "m1" (_memory (self fresh)) with
      | Some e => agent_history e ++ ["metadata_updated"]
      | None => ["metadata_stored"]
      end.
Proof.
  apply (store_metadata_quiet "m1" {["source" := 1]} fresh
           datetime.t_2024_01_15 (24 * 3600000000));
    by vm_compute.
Defined.

(** X7, witness: a write of extracted data to the first message of the
    conversation. *)
Lemma write_touches_one_record_witness :
  let op : @write Z Z := PutExtractedData {["sender" := 7]} in
  (∀ p, p ≠ "m1" →
     py.get p (_memory (self (apply_write "m1" op thread).2))
     = py.get p (_memory (self thread)))
  ∧ (∀ e, py.get "m1" (_memory (self thread)) = Some e →
       ∃ e', py.get "m1" (_memory (self (apply_write "m1" op thread).2)) = Some e'
       ∧ processing_id e' = processing_id e ∧ timestamp e' = timestamp e
       ∧ metadata e' = metadata e
       ∧ (classification e' =
          match op with PutClassification c => Some c | _ => classification e end)
       ∧ (extracted_data e' =
          match op with PutExtractedData d => Some d | _ => extracted_data e end)
       ∧ (conversation_id e' =
          match op with PutConversationId c => Some c | _ => conversation_id e end)
       ∧ agent_history e' = agent_history e ++ [tag false op]).
Proof.
  intros op. apply (write_touches_one_record "m1" op thread). reflexivity.
Defined.

(** X8, witness: on the aged table, last swept more than a day ago, an
    update of the entry that is five days old deletes it. *)
Lemma store_metadata_sweeps_updated_record_witness :
  ∃ w', store_metadata "old" {["seen" := 1]} aged = (Return true, w')
    ∧ (_memory (self w')).*1 =
      (filter (λ x, expired (utc 2 - 24 * 3600000000) x ≠ Return true)
         (_memory (self aged))).*1
    ∧ py.get "old" (_memory (self w')) = None
    ∧ get_metadata "old" (self w') = None.
Proof.
  apply (store_metadata_sweeps_updated_record "old" {["seen" := 1]} aged
           (plain "old" "2024-01-10T08:00:00")
           1705226400000000 1704873600000000 (24 * 3600000000)
           (utc 2 - 24 * 3600000000));
    [apply aged_ok | by vm_compute .. | | by vm_compute | by vm_compute].
  intros x Hx. simpl in Hx.
  repeat (apply elem_of_cons in Hx as [-> | Hx]; [by vm_compute |]).
  by apply elem_of_nil in Hx.
Defined.

Example aged_updated_and_swept :
  (store_metadata "old" {["seen" := 1]} aged).1 = Return true
  ∧ (_memory (self (store_metadata "old" {["seen" := 1]} aged).2)).*1 = ["new"].
Proof. by vm_compute. Qed.

(** X11, witness: the history of the conversation of two messages. *)
Lemma get_conversation_history_sorted_witness :
  ∃ history,
    get_conversation_history "thread" (self thread) = Return history
    ∧ StronglySorted (py.by_key timestamp) history
    ∧ history ≡ₚ omap (λ pid, py.get pid (_memory (self thread)))
                   (default [] (_conversation_index (self thread) !! "thread"))
    ∧ (length history
       ≤ length (default [] (_conversation_index (self thread) !! "thread")))%nat.
Proof.
  destruct (get_conversation_history "thread" (self thread)) as [history|]
    eqn:Hh; [| by vm_compute in Hh].
  exists history. split; [done |].
  by apply (get_conversation_history_sorted "thread" (self thread) history).
Defined.

Example thread_history :
  (λ o, match o with
        | Return history => Some (processing_id <$> history)
        | Raise _ => None
        end) (get_conversation_history "thread" (self thread))
  = Some ["m1"; "m2"].
Proof. by vm_compute. Qed.

(** X22, witness: the upload [report.pdf]; the parser is not consulted. *)
Lemma pdf_upload_detected_as_email_witness :
  classifier._detect_format (methods := str.ascii)
    (parser := {| json.loads := λ _, Raise py.JSONDecodeError |})
    (classifier.pdf_text "report.pdf") = Return "email".
Proof.
  apply (pdf_upload_detected_as_email
           {| json.loads := λ _, Raise py.JSONDecodeError |} "report.pdf").
  reflexivity.
Defined.

(** A parser that gives up on the text it is given sends [_detect_format],
    and with it [classify], to the fallback; a text that is merely not JSON
    does not. *)
Example detect_format_parser_raises :
  classifier._detect_format (methods := str.ascii)
    (parser := {| json.loads := λ _, Raise py.RecursionError |}) "{[[[[]]]]}"
  = Raise py.RecursionError
  ∧ classifier._detect_format (methods := str.ascii)
      (parser := {| json.loads := λ _, Raise py.JSONDecodeError |}) "{oops}"
    = Return "text".
Proof. split; by vm_compute. Qed.

End FurtherWorked.
